(** * Gemini-Agent: the agent lifecycle, self-correction and the orchestrator

    A shallow embedding of [agents/*.py], [src/error_handling.py]
    ([agent_self_correct]), [src/orchestrator.py] and the [/ipc] handler of
    [src/backend_server.py].

    Async generators are modelled by the trace of events they produce
    (chunks yielded, messages sent to the websocket manager, calls to the
    artifact store) together with the way they end.  The collaborators
    that live in [AgentBase] (prompt templates, the LLM call, the rule
    engine, Google Drive) are oracles over an abstract world state, and so
    is the decorator [record_telemetry] of [run], whose module is not part
    of the sources: what [await agent.run(..)] gives is a parameter. *)

From Stdlib Require Import String Ascii List Bool Arith Lia.
From stdpp Require Import base option strings gmap list pretty.

Open Scope string_scope.
Open Scope list_scope.

(** ** Python values, strings and exceptions *)

(** The values the engine stores in dictionaries typed [Any].  The code only
    ever tests them for truth, compares them with string literals, formats
    them and hands them to collaborators; [VOther] is any non-string object,
    known by its [str()] and its truth value. *)
Inductive pyval :=
  | VNone
  | VStr (s : string)
  | VOther (repr : string) (truth : bool).

#[global] Instance pyval_eq_dec : EqDecision pyval.
Proof. solve_decision. Defined.

Definition truthy (v : pyval) : bool :=
  match v with
  | VNone => false
  | VStr s => negb (String.eqb s "")
  | VOther _ t => t
  end.

Definition py_str (v : pyval) : string :=
  match v with
  | VNone => "None"
  | VStr s => s
  | VOther r _ => r
  end.

(** [v == "literal"] *)
Definition str_eq (v : pyval) (lit : string) : bool :=
  match v with
  | VStr s => String.eqb s lit
  | _ => false
  end.

(** [a or b] *)
Definition py_or (a b : pyval) : pyval := if truthy a then a else b.

Abbreviation pydict := (gmap string pyval).

(** [d.get(k)] and [d.get(k, dflt)] *)
Definition dict_get (d : pydict) (k : string) : pyval := default VNone (d !! k).
Definition dict_get_or (d : pydict) (k : string) (dflt : pyval) : pyval :=
  default dflt (d !! k).

(** Truth of a dictionary: it is not empty. *)
Definition dict_truthy (d : pydict) : bool := negb (bool_decide (d = ∅)).

Definition nl : string := String (ascii_of_nat 10) "".

(** [s.startswith(p)] *)
Definition startswith (s p : string) : bool := String.prefix p s.

(** [needle in hay] *)
Fixpoint str_in (needle hay : string) : bool :=
  String.prefix needle hay ||
  match hay with
  | EmptyString => false
  | String _ rest => str_in needle rest
  end.

(** [str.isspace] on one character, for code points below 256. *)
Definition is_space (a : ascii) : bool :=
  let n := nat_of_ascii a in
  (((9 <=? n) && (n <=? 13)) || ((28 <=? n) && (n <=? 32))
   || (n =? 133) || (n =? 160))%nat.

(** [not s.strip()]: every character of [s] is white space. *)
Fixpoint blank (s : string) : bool :=
  match s with
  | EmptyString => true
  | String a rest => is_space a && blank rest
  end.

(** [sep.join(l)] *)
Definition join (sep : string) (l : list string) : string := String.concat sep l.

Inductive exn_class := ValueError | KeyError | IOError | OtherException.

(** An exception: its class and its [str(e)]. *)
Record exn := Exn { exn_cls : exn_class; exn_msg : string }.

(** ** Generators as event traces *)

Inductive event :=
  | EYield (chunk : string)                      (* yield chunk *)
  | ESend (msg : string)                         (* websocket_manager.send_message_to_client *)
  | EWrite (filename : pyval) (content : string) (parent : pyval)   (* _write_gdrive_file *)
  | EUpdate (file_id : pyval) (content : string).                   (* _update_gdrive_file *)

(** How a computation ends: it returns, it raises, or it is still running
    when the unfolding of the self-correction recursion stops. *)
Inductive res (A : Type) :=
  | Ok (a : A)
  | Exc (e : exn)
  | Div.
Arguments Ok {A} a.
Arguments Exc {A} e.
Arguments Div {A}.

Definition gen (W A : Type) : Type := W -> list event * res A * W.

Definition events {W A} (x : list event * res A * W) : list event := x.1.1.
Definition result {W A} (x : list event * res A * W) : res A := x.1.2.
Definition world {W A} (x : list event * res A * W) : W := x.2.

Definition ret {W A} (a : A) : gen W A := fun w => ([], Ok a, w).

Definition bind {W A B} (m : gen W A) (k : A -> gen W B) : gen W B :=
  fun w =>
    match m w with
    | (evs, Ok a, w1) =>
        match k a w1 with
        | (evs2, r, w2) => (evs ++ evs2, r, w2)
        end
    | (evs, Exc e, w1) => (evs, Exc e, w1)
    | (evs, Div, w1) => (evs, Div, w1)
    end.

Notation "'let*' x ':=' m 'in' k" := (bind m (fun x => k))
  (at level 10, x name, m at level 100, k at level 200).
Notation "m '>>' k" := (bind m (fun _ => k))
  (at level 90, right associativity).

Definition emit {W} (e : event) : gen W unit := fun w => ([e], Ok tt, w).
Definition yield {W} (chunk : string) : gen W unit := emit (EYield chunk).
Definition raise {W A} (e : exn) : gen W A := fun w => ([], Exc e, w).
Definition diverge {W A} : gen W A := fun w => ([], Div, w).

(** [try: m  except Exception as e: h e] *)
Definition try_except {W A} (m : gen W A) (h : exn -> gen W A) : gen W A :=
  fun w =>
    match m w with
    | (evs, Exc e, w1) =>
        match h e w1 with
        | (evs2, r, w2) => (evs ++ evs2, r, w2)
        end
    | other => other
    end.

(** What a collaborator call gives back. *)
Inductive outcome (A : Type) :=
  | Value (a : A)
  | Throws (e : exn).
Arguments Value {A} a.
Arguments Throws {A} e.

Definition call {W A} (o : W -> outcome A * W) : gen W A :=
  fun w =>
    match o w with
    | (Value a, w1) => ([], Ok a, w1)
    | (Throws e, w1) => ([], Exc e, w1)
    end.

(** The chunks of a trace, in emission order. *)
Definition chunks_of (evs : list event) : list string :=
  omap (fun e => match e with EYield c => Some c | _ => None end) evs.

(** The chunk classification of the protocol. *)
Definition is_progress (chunk : string) : bool := startswith chunk "STREAM_CHUNK:".
Definition is_payload (chunk : string) : bool := negb (is_progress chunk).

Definition payload_chunks (cs : list string) : list string := filter (fun c => is_payload c = true) cs.

(** ** Agents and their collaborators *)

Inductive agent_class :=
  CodeGenAgent | DocAgent | FixAgent | PlannerAgent | QaAgent | TestAgent.

#[global] Instance agent_class_eq_dec : EqDecision agent_class.
Proof. solve_decision. Defined.

(** An agent instance ([AgentBase]): its class, its [name], its [config] and
    whether it holds a websocket manager. *)
Record AgentBase := Agent {
  cls : agent_class;
  name : string;
  config : gmap string string;
  websocket_manager : bool
}.

(** One rule violation, [{'rule_name': ..., 'message': ...}]. *)
Record violation := Violation { rule_name : string; message : string }.

(** The methods of [AgentBase] and the Python runtime services the engine
    calls.  Their code is outside the engine; each call may depend on and
    change the world, and may raise. *)
Record collaborators (W : Type) := Collaborators {
  (* AgentBase.__init__, run by every agent constructor *)
  agent_init : agent_class -> string -> gmap string string -> W -> outcome unit * W;
  (* self._construct_prompt(template_name, **template_data) *)
  construct_prompt : AgentBase -> string -> list (string * pyval) -> W -> outcome string * W;
  (* self._execute_llm_workflow(prompt, task, context): the chunks streamed,
     and the exception that ends the stream if there is one *)
  execute_llm : AgentBase -> string -> string -> pydict -> W -> (list string * option exn) * W;
  (* self._enforce_agent_rules(output, task, context) *)
  enforce_agent_rules : AgentBase -> string -> string -> pydict -> W -> outcome (list violation) * W;
  (* self._read_gdrive_file(file_id, description, task, context) *)
  read_gdrive_file : AgentBase -> pyval -> string -> string -> pydict -> W -> outcome pyval * W;
  (* self._write_gdrive_file(filename, content, parent_id) *)
  write_gdrive_file : AgentBase -> pyval -> string -> pyval -> W -> outcome pyval * W;
  (* self._update_gdrive_file(file_id, content, description) *)
  update_gdrive_file : AgentBase -> pyval -> string -> string -> W -> outcome pyval * W;
  (* str(context), and str() of a workflow *)
  repr_context : pydict -> string;
  repr_workflow : list (gmap string string) -> string;
  (* await <cls>.run(task, context).  Every [run] is written as an async
     generator and decorated with record_telemetry(<cls>, "run"), whose module
     is not part of the sources; what [await] makes of the object the
     decorated call returns is therefore left open: [Throws e] when that
     object is the async generator itself, which is what agent_self_correct
     and the test harness iterate and which Python refuses to await with the
     TypeError [e]; [Value tt] when the decorator makes it awaitable and the
     await gives the stream *)
  await_run : agent_class -> outcome unit
}.
Arguments agent_init {W} _.
Arguments construct_prompt {W} _.
Arguments execute_llm {W} _.
Arguments enforce_agent_rules {W} _.
Arguments read_gdrive_file {W} _.
Arguments write_gdrive_file {W} _.
Arguments update_gdrive_file {W} _.
Arguments repr_context {W} _.
Arguments repr_workflow {W} _.
Arguments await_run {W} _.

(** The type of [agent_self_correct] once its recursion depth is fixed:
    agent, original_task, current_context, error_details, error_type,
    correction_guidance. *)
Definition self_correct (W : Type) : Type :=
  AgentBase -> string -> pydict -> string -> string -> string -> gen W unit.

Section Agents.
Context {W : Type} (C : collaborators W).

(** [f"STREAM_CHUNK:{self.name}:{msg}\n"] *)
Definition stream_chunk (self : AgentBase) (msg : string) : string :=
  "STREAM_CHUNK:" +:+ name self +:+ ":" +:+ msg +:+ nl.

(** [cls(name=..., config=..., websocket_manager=..., ...)] *)
Definition new_agent (k : agent_class) (nm : string) (cfg : gmap string string)
    (ws : bool) : gen W AgentBase :=
  call (agent_init C k nm cfg) >>
  ret (Agent k nm cfg ws).

Definition _construct_prompt (self : AgentBase) (template_name : string)
    (template_data : list (string * pyval)) : gen W string :=
  call (construct_prompt C self template_name template_data).

(** [full_response = ""; async for chunk in self._execute_llm_workflow(..):
    full_response += chunk] *)
Definition buffer_llm_response (self : AgentBase) (prompt task : string)
    (context : pydict) : gen W string :=
  fun w =>
    match execute_llm C self prompt task context w with
    | (cs, None, w1) => ([], Ok (fold_left String.append cs ""), w1)
    | (cs, Some e, w1) => ([], Exc e, w1)
    end.

Definition _enforce_agent_rules (self : AgentBase) (output task : string)
    (context : pydict) : gen W (list violation) :=
  call (enforce_agent_rules C self output task context).

Definition _read_gdrive_file (self : AgentBase) (file_id : pyval)
    (description task : string) (context : pydict) : gen W pyval :=
  call (read_gdrive_file C self file_id description task context).

Definition _write_gdrive_file (self : AgentBase) (filename : pyval)
    (content : string) (parent_id : pyval) : gen W pyval :=
  emit (EWrite filename content parent_id) >>
  call (write_gdrive_file C self filename content parent_id).

Definition _update_gdrive_file (self : AgentBase) (file_id : pyval)
    (content description : string) : gen W pyval :=
  emit (EUpdate file_id content) >>
  call (update_gdrive_file C self file_id content description).

(** [d[k]], raising [KeyError] *)
Definition subscript (d : pydict) (k : string) : gen W pyval :=
  match d !! k with
  | Some v => ret v
  | None => raise (Exn KeyError ("'" +:+ k +:+ "'"))
  end.

(** [self.config.get(key, dflt)] *)
Definition config_get (self : AgentBase) (key dflt : string) : string :=
  default dflt (config self !! key).

(** ["; ".join([f"{v['rule_name']}: {v['message']}" for v in rule_violations])] *)
Definition violation_details (rule_violations : list violation) : string :=
  join "; " (map (fun v => rule_name v +:+ ": " +:+ message v) rule_violations).

(** [not full_response.strip() or "[ERROR]" in full_response] *)
Definition invalid_response (full_response : string) : bool :=
  blank full_response || str_in "[ERROR]" full_response.

Definition is_nil {A} (l : list A) : bool :=
  match l with [] => true | _ => false end.

(** *** codegen_agent.py *)

Definition CodeGenAgent_body (self : AgentBase) (task : string) (context : pydict)
    : gen W unit :=
  let template_name := config_get self "codegen_template" "base_codegen_prompt.txt" in
  let template_data :=
    [("task", VStr task);
     ("current_context", dict_get_or context "current_context" (VStr ""));
     ("requirements", dict_get_or context "requirements" (VStr ""));
     ("language", dict_get_or context "language" (VStr "Python"));
     ("file_to_modify", dict_get_or context "file_to_modify" (VStr ""))] in
  let* prompt := _construct_prompt self template_name template_data in
  yield (stream_chunk self ("[" +:+ name self +:+ "] Generating code...")) >>
  let* full_response := buffer_llm_response self prompt task context in
  yield (stream_chunk self ("[" +:+ name self +:+ "] Validating response...")) >>
  if invalid_response full_response
  then raise (Exn ValueError "LLM response was empty or contained an error.")
  else
    let* rule_violations := _enforce_agent_rules self full_response task context in
    if negb (is_nil rule_violations)
    then raise (Exn ValueError ("Agent-specific rules violated: "
                                +:+ violation_details rule_violations))
    else
      yield (stream_chunk self ("[" +:+ name self
                                +:+ "] Validation passed. Streaming now...")) >>
      yield full_response >>
      let success_msg := "[SUCCESS] [" +:+ name self +:+ "] Task completed successfully." in
      yield (stream_chunk self success_msg).

Definition CodeGenAgent_run (agent_self_correct : self_correct W)
    (self : AgentBase) (task : string) (context : pydict) : gen W unit :=
  let log_message := "[" +:+ name self +:+ "] Starting code generation task: " +:+ task in
  yield (stream_chunk self log_message) >>
  try_except (CodeGenAgent_body self task context)
    (fun e =>
       let error_message :=
         "[" +:+ name self +:+ "] Self-correction triggered due to error: " +:+ exn_msg e in
       yield (stream_chunk self error_message) >>
       agent_self_correct self task context (exn_msg e) "agent_execution_error"
         "The agent failed during code generation or validation. Analyze the error and context to provide a fix.").

(** *** fix_agent.py *)

Definition FixAgent_prepare_and_construct_prompt (self : AgentBase) (task : string)
    (context : pydict) (operation_type : pyval) : gen W (string * pydict) :=
  let* t :=
    if str_eq operation_type "fix_and_create" then
      let gdrive_file_id := dict_get context "gdrive_file_id" in
      if negb (truthy gdrive_file_id)
      then raise (Exn ValueError "Missing 'gdrive_file_id' in context for create operation.")
      else
        let* r := _read_gdrive_file self gdrive_file_id "code file" task context in
        let gdrive_content := py_or r (VStr "") in
        let* bug_report_content :=
          if truthy (dict_get context "bug_report_file_id") then
            let* bug_id := subscript context "bug_report_file_id" in
            let* r := _read_gdrive_file self bug_id "bug report" task context in
            ret (py_or r (VStr ""))
          else ret (VStr "") in
        let template_name := config_get self "create_template" "fix_agent_create.txt" in
        let template_data :=
          [("task", VStr task); ("code_to_fix", gdrive_content);
           ("bug_report", bug_report_content)] in
        let output_filename := dict_get_or context "output_filename" (VStr "fixed_code.py") in
        let parent_folder_id := dict_get context "parent_folder_id" in
        if negb (truthy parent_folder_id)
        then raise (Exn ValueError "Missing 'parent_folder_id' in context for saving output.")
        else
          ret (template_name, template_data,
               <["filename" := output_filename]> (<["parent_id" := parent_folder_id]> ∅))
    else if str_eq operation_type "update_existing" then
      let existing_file_id := dict_get context "existing_file_id" in
      if negb (truthy existing_file_id)
      then raise (Exn ValueError "Missing 'existing_file_id' for update operation.")
      else
        let* r := _read_gdrive_file self existing_file_id "existing code file" task context in
        let gdrive_content := py_or r (VStr "") in
        let error_description :=
          dict_get_or context "error_description"
            (VStr "No specific error description provided.") in
        let patch_instructions := dict_get_or context "patch_instructions" (VStr "") in
        let template_name := config_get self "update_template" "fix_agent_update.txt" in
        let template_data :=
          [("task", VStr task); ("existing_code", gdrive_content);
           ("error_description", error_description);
           ("patch_instructions", patch_instructions)] in
        ret (template_name, template_data, <["file_id" := existing_file_id]> ∅)
    else raise (Exn ValueError ("Unknown operation type: " +:+ py_str operation_type)) in
  let '(template_name, template_data, file_op_details) := t in
  let* prompt := _construct_prompt self template_name template_data in
  ret (prompt, file_op_details).

Definition FixAgent_body (self : AgentBase) (task : string) (context : pydict)
    : gen W unit :=
  let operation_type := dict_get_or context "operation_type" (VStr "fix_and_create") in
  yield (stream_chunk self ("[" +:+ name self +:+ "] Preparing data for operation: "
                            +:+ py_str operation_type +:+ "...")) >>
  let* pf := FixAgent_prepare_and_construct_prompt self task context operation_type in
  let '(prompt, file_op_details) := pf in
  yield (stream_chunk self ("[" +:+ name self +:+ "] Generating fixed code...")) >>
  let* full_response := buffer_llm_response self prompt task context in
  yield (stream_chunk self ("[" +:+ name self +:+ "] Validating response...")) >>
  if invalid_response full_response
  then raise (Exn ValueError "LLM response was empty or contained an error.")
  else
    let* rule_violations := _enforce_agent_rules self full_response task context in
    if negb (is_nil rule_violations)
    then raise (Exn ValueError ("Agent-specific rules violated: "
                                +:+ violation_details rule_violations))
    else
      yield (stream_chunk self ("[" +:+ name self
                                +:+ "] Validation passed. Saving to Google Drive...")) >>
      let* file_id :=
        if str_eq operation_type "fix_and_create" then
          let* filename := subscript file_op_details "filename" in
          let* parent_id := subscript file_op_details "parent_id" in
          _write_gdrive_file self filename full_response parent_id
        else
          let* fid := subscript file_op_details "file_id" in
          let* success := _update_gdrive_file self fid full_response "fixed code" in
          if truthy success then subscript file_op_details "file_id" else ret VNone in
      if negb (truthy file_id)
      then raise (Exn IOError "Failed to save the fixed code to Google Drive.")
      else
        yield full_response >>
        let success_msg :=
          "[SUCCESS] [" +:+ name self
          +:+ "] Task completed. Fixed code saved to GDrive file ID: " +:+ py_str file_id in
        yield (stream_chunk self success_msg).

Definition FixAgent_run (agent_self_correct : self_correct W)
    (self : AgentBase) (task : string) (context : pydict) : gen W unit :=
  let log_message := "[" +:+ name self +:+ "] Starting code fixing task: " +:+ task in
  yield (stream_chunk self log_message) >>
  try_except (FixAgent_body self task context)
    (fun e =>
       let error_message :=
         "[" +:+ name self +:+ "] Self-correction triggered due to error: " +:+ exn_msg e in
       yield (stream_chunk self error_message) >>
       agent_self_correct self task context (exn_msg e) "agent_execution_error"
         "The agent failed during code fixing or validation. Analyze the error and context to provide a fix.").

(** *** planner_agent.py *)

Definition PlannerAgent_body (self : AgentBase) (task : string) (context : pydict)
    : gen W unit :=
  yield (stream_chunk self ("[" +:+ name self +:+ "] Constructing prompt...")) >>
  let template_name := config_get self "template" "planner_template.txt" in
  let template_data :=
    [("task", VStr task);
     ("context_summary", VStr (repr_context C context));
     ("planning_level", dict_get_or context "level" (VStr "high-level"))] in
  let* prompt := _construct_prompt self template_name template_data in
  yield (stream_chunk self ("[" +:+ name self +:+ "] Generating plan...")) >>
  let* full_response := buffer_llm_response self prompt task context in
  yield (stream_chunk self ("[" +:+ name self +:+ "] Validating plan...")) >>
  if invalid_response full_response
  then raise (Exn ValueError "LLM response was empty or contained an error.")
  else
    let* rule_violations := _enforce_agent_rules self full_response task context in
    if negb (is_nil rule_violations)
    then raise (Exn ValueError ("Agent-specific rules violated: "
                                +:+ violation_details rule_violations))
    else
      yield (stream_chunk self ("[" +:+ name self
                                +:+ "] Validation passed. Saving plan to Google Drive...")) >>
      let output_filename := dict_get_or context "output_filename" (VStr "plan.md") in
      let parent_folder_id := dict_get context "parent_folder_id" in
      if negb (truthy parent_folder_id)
      then raise (Exn ValueError "Missing 'parent_folder_id' in context for saving output.")
      else
        let* file_id := _write_gdrive_file self output_filename full_response parent_folder_id in
        if negb (truthy file_id)
        then raise (Exn IOError "Failed to save the plan to Google Drive.")
        else
          yield full_response >>
          let success_msg :=
            "[SUCCESS] [" +:+ name self +:+ "] Plan saved to GDrive file ID: "
            +:+ py_str file_id in
          yield (stream_chunk self success_msg).

Definition PlannerAgent_run (agent_self_correct : self_correct W)
    (self : AgentBase) (task : string) (context : pydict) : gen W unit :=
  let log_message := "[" +:+ name self +:+ "] Starting planning task: " +:+ task in
  yield (stream_chunk self log_message) >>
  try_except (PlannerAgent_body self task context)
    (fun e =>
       let error_message :=
         "[" +:+ name self +:+ "] Self-correction triggered due to error: " +:+ exn_msg e in
       yield (stream_chunk self error_message) >>
       agent_self_correct self task context (exn_msg e) "agent_execution_error"
         "The agent failed during planning or validation. Analyze the error and context to create a valid plan.").

(** *** doc_agent.py *)

Definition DocAgent_prepare_and_construct_prompt (self : AgentBase) (task : string)
    (context : pydict) (operation_type : pyval) : gen W (string * pydict) :=
  let* t :=
    if str_eq operation_type "generate_new" then
      let gdrive_file_id := dict_get context "gdrive_file_id" in
      if negb (truthy gdrive_file_id)
      then raise (Exn ValueError "Missing 'gdrive_file_id' in context for generate operation.")
      else
        let* r := _read_gdrive_file self gdrive_file_id "code file" task context in
        let gdrive_content := py_or r (VStr "") in
        let* existing_docs_content :=
          if truthy (dict_get context "existing_docs_file_id") then
            let* docs_id := subscript context "existing_docs_file_id" in
            let* r := _read_gdrive_file self docs_id "existing documentation" task context in
            ret (py_or r (VStr ""))
          else ret (VStr "") in
        let template_name := config_get self "generate_template" "doc_agent_generate.txt" in
        let template_data :=
          [("task", VStr task); ("code_to_document", gdrive_content);
           ("existing_documentation", existing_docs_content)] in
        let output_filename := dict_get_or context "output_filename" (VStr "documentation.md") in
        let parent_folder_id := dict_get context "parent_folder_id" in
        if negb (truthy parent_folder_id)
        then raise (Exn ValueError "Missing 'parent_folder_id' in context for saving output.")
        else
          ret (template_name, template_data,
               <["filename" := output_filename]> (<["parent_id" := parent_folder_id]> ∅))
    else if str_eq operation_type "update_existing" then
      let existing_docs_file_id := dict_get context "existing_docs_file_id" in
      if negb (truthy existing_docs_file_id)
      then raise (Exn ValueError "Missing 'existing_docs_file_id' for update operation.")
      else
        let* r := _read_gdrive_file self existing_docs_file_id "existing documentation"
                    task context in
        let existing_docs_content := py_or r (VStr "") in
        let* source_code_content :=
          if truthy (dict_get context "source_code_file_id") then
            let* src_id := subscript context "source_code_file_id" in
            let* r := _read_gdrive_file self src_id "source code" task context in
            ret (py_or r (VStr ""))
          else ret (VStr "") in
        let update_instructions :=
          dict_get_or context "update_instructions"
            (VStr "Update and improve the existing documentation.") in
        let template_name := config_get self "update_template" "doc_agent_update.txt" in
        let template_data :=
          [("task", VStr task); ("existing_documentation", existing_docs_content);
           ("source_code", source_code_content);
           ("update_instructions", update_instructions)] in
        ret (template_name, template_data, <["file_id" := existing_docs_file_id]> ∅)
    else raise (Exn ValueError ("Unknown operation type: " +:+ py_str operation_type)) in
  let '(template_name, template_data, file_op_details) := t in
  let* prompt := _construct_prompt self template_name template_data in
  ret (prompt, file_op_details).

Definition DocAgent_body (self : AgentBase) (task : string) (context : pydict)
    : gen W unit :=
  let operation_type := dict_get_or context "operation_type" (VStr "generate_new") in
  yield (stream_chunk self ("[" +:+ name self +:+ "] Preparing data for operation: "
                            +:+ py_str operation_type +:+ "...")) >>
  let* pf := DocAgent_prepare_and_construct_prompt self task context operation_type in
  let '(prompt, file_operation_details) := pf in
  yield (stream_chunk self ("[" +:+ name self +:+ "] Generating documentation...")) >>
  let* full_response := buffer_llm_response self prompt task context in
  yield (stream_chunk self ("[" +:+ name self +:+ "] Validating response...")) >>
  if invalid_response full_response
  then raise (Exn ValueError "LLM response was empty or contained an error.")
  else
    let* rule_violations := _enforce_agent_rules self full_response task context in
    if negb (is_nil rule_violations)
    then raise (Exn ValueError ("Agent-specific rules violated: "
                                +:+ violation_details rule_violations))
    else
      yield (stream_chunk self ("[" +:+ name self
                                +:+ "] Validation passed. Saving to Google Drive...")) >>
      let* file_id :=
        if str_eq operation_type "generate_new" then
          let* filename := subscript file_operation_details "filename" in
          let* parent_id := subscript file_operation_details "parent_id" in
          _write_gdrive_file self filename full_response parent_id
        else
          let* fid := subscript file_operation_details "file_id" in
          let* success := _update_gdrive_file self fid full_response "documentation" in
          if truthy success then subscript file_operation_details "file_id" else ret VNone in
      if negb (truthy file_id)
      then raise (Exn IOError "Failed to save the generated documentation to Google Drive.")
      else
        yield full_response >>
        let success_msg :=
          "[SUCCESS] [" +:+ name self
          +:+ "] Task completed. Documentation saved to GDrive file ID: "
          +:+ py_str file_id in
        yield (stream_chunk self success_msg).

Definition DocAgent_run (agent_self_correct : self_correct W)
    (self : AgentBase) (task : string) (context : pydict) : gen W unit :=
  let log_message := "[" +:+ name self +:+ "] Starting documentation task: " +:+ task in
  yield (stream_chunk self log_message) >>
  try_except (DocAgent_body self task context)
    (fun e =>
       let error_message :=
         "[" +:+ name self +:+ "] Self-correction triggered due to error: " +:+ exn_msg e in
       yield (stream_chunk self error_message) >>
       agent_self_correct self task context (exn_msg e) "agent_execution_error"
         "The agent failed during documentation generation or validation. Analyze the error and context to provide a fix.").

(** *** qa_agent.py *)

Definition QaAgent_prepare_and_construct_prompt (self : AgentBase) (task : string)
    (context : pydict) (operation_type : pyval) : gen W (string * option pydict) :=
  let template_data := [("task", VStr task)] in
  let* t :=
    if str_eq operation_type "answer_with_context" then
      let gdrive_file_id := dict_get context "gdrive_file_id" in
      if negb (truthy gdrive_file_id)
      then raise (Exn ValueError "Missing 'gdrive_file_id' in context.")
      else
        let* r := _read_gdrive_file self gdrive_file_id "code file" task context in
        ret (template_data ++ [("code_to_analyze", py_or r (VStr ""))],
             config_get self "answer_with_context_template"
               "qa_agent_answer_with_context.txt")
    else if str_eq operation_type "answer_without_context" then
      ret (template_data,
           config_get self "answer_without_context_template"
             "qa_agent_answer_without_context.txt")
    else if str_eq operation_type "generate_qa_pairs" then
      let gdrive_file_id := dict_get context "gdrive_file_id" in
      if negb (truthy gdrive_file_id)
      then raise (Exn ValueError "Missing 'gdrive_file_id' for generating QA pairs.")
      else
        let* r := _read_gdrive_file self gdrive_file_id "code file" task context in
        ret (template_data ++ [("code_to_analyze", py_or r (VStr ""))],
             config_get self "generate_qa_pairs_template" "qa_agent_generate_qa_pairs.txt")
    else if str_eq operation_type "review_requirements" then
      let req_id := dict_get context "requirements_file_id" in
      let test_id := dict_get context "test_results_file_id" in
      let* requirements :=
        if truthy req_id then
          let* r := _read_gdrive_file self req_id "requirements file" task context in
          ret (py_or r (VStr ""))
        else ret (VStr "") in
      let* test_results :=
        if truthy test_id then
          let* r := _read_gdrive_file self test_id "test results file" task context in
          ret (py_or r (VStr ""))
        else ret (VStr "") in
      ret (template_data ++ [("requirements", requirements); ("test_results", test_results)],
           config_get self "review_requirements_template"
             "qa_agent_review_requirements.txt")
    else if str_eq operation_type "generate_qa_report" then
      let gdrive_file_id := dict_get context "gdrive_file_id" in
      if negb (truthy gdrive_file_id)
      then raise (Exn ValueError "Missing 'gdrive_file_id' for generating QA report.")
      else
        let* r := _read_gdrive_file self gdrive_file_id "code file" task context in
        ret (template_data ++ [("code_to_analyze", py_or r (VStr ""))],
             config_get self "generate_qa_report_template" "qa_agent_generate_qa_report.txt")
    else raise (Exn ValueError ("Unknown operation type: " +:+ py_str operation_type)) in
  let '(template_data, template_name) := t in
  let* file_op_details :=
    if negb (str_eq operation_type "answer_without_context") then
      let output_filename :=
        dict_get_or context "output_filename"
          (VStr (py_str operation_type +:+ "_output.md")) in
      let parent_folder_id := dict_get context "parent_folder_id" in
      if negb (truthy parent_folder_id)
      then raise (Exn ValueError "Missing 'parent_folder_id' in context for saving output.")
      else ret (Some (<["filename" := output_filename]>
                        (<["parent_id" := parent_folder_id]> (∅ : pydict))))
    else ret None in
  let* prompt := _construct_prompt self template_name template_data in
  ret (prompt, file_op_details).

Definition QaAgent_body (self : AgentBase) (task : string) (context : pydict)
    : gen W unit :=
  let operation_type := dict_get_or context "operation_type" (VStr "answer_with_context") in
  yield (stream_chunk self ("[" +:+ name self +:+ "] Preparing data for operation: "
                            +:+ py_str operation_type +:+ "...")) >>
  let* pf := QaAgent_prepare_and_construct_prompt self task context operation_type in
  let '(prompt, file_op_details) := pf in
  yield (stream_chunk self ("[" +:+ name self +:+ "] Generating QA response...")) >>
  let* full_response := buffer_llm_response self prompt task context in
  yield (stream_chunk self ("[" +:+ name self +:+ "] Validating response...")) >>
  if invalid_response full_response
  then raise (Exn ValueError "LLM response was empty or contained an error.")
  else
    let* rule_violations := _enforce_agent_rules self full_response task context in
    if negb (is_nil rule_violations)
    then raise (Exn ValueError ("Agent-specific rules violated: "
                                +:+ violation_details rule_violations))
    else
      let* success_msg :=
        match file_op_details with
        | Some d =>
            if dict_truthy d then
              yield (stream_chunk self ("[" +:+ name self
                                        +:+ "] Validation passed. Saving to Google Drive...")) >>
              let* filename := subscript d "filename" in
              let* parent_id := subscript d "parent_id" in
              let* file_id := _write_gdrive_file self filename full_response parent_id in
              if negb (truthy file_id)
              then raise (Exn IOError "Failed to save the QA output to Google Drive.")
              else ret ("[SUCCESS] [" +:+ name self
                        +:+ "] Task completed. Output saved to GDrive file ID: "
                        +:+ py_str file_id)
            else ret ("[SUCCESS] [" +:+ name self +:+ "] Task completed successfully.")
        | None => ret ("[SUCCESS] [" +:+ name self +:+ "] Task completed successfully.")
        end in
      yield full_response >>
      yield (stream_chunk self success_msg).

Definition QaAgent_run (agent_self_correct : self_correct W)
    (self : AgentBase) (task : string) (context : pydict) : gen W unit :=
  let log_message := "[" +:+ name self +:+ "] Starting QA task: " +:+ task in
  yield (stream_chunk self log_message) >>
  try_except (QaAgent_body self task context)
    (fun e =>
       let error_message :=
         "[" +:+ name self +:+ "] Self-correction triggered due to error: " +:+ exn_msg e in
       yield (stream_chunk self error_message) >>
       agent_self_correct self task context (exn_msg e) "agent_execution_error"
         "The agent failed during QA processing or validation. Analyze the error and context to provide a correct response.").

(** *** test_agent.py *)

Definition TestAgent_prepare_and_construct_prompt (self : AgentBase) (task : string)
    (context : pydict) : gen W (string * pydict) :=
  let gdrive_file_id := dict_get context "gdrive_file_id" in
  if negb (truthy gdrive_file_id)
  then raise (Exn ValueError "Missing 'gdrive_file_id' in context.")
  else
    let* gdrive_content := _read_gdrive_file self gdrive_file_id "code file" task context in
    if negb (truthy gdrive_content)
    then raise (Exn ValueError ("Failed to read or empty content from GDrive file: "
                                +:+ py_str gdrive_file_id))
    else
      let template_name := config_get self "generate_template" "test_agent_generate.txt" in
      let template_data :=
        [("task", VStr task); ("code_to_test", gdrive_content);
         ("test_framework", dict_get_or context "framework" (VStr "pytest"))] in
      let* prompt := _construct_prompt self template_name template_data in
      let output_filename := dict_get_or context "output_filename" (VStr "test_generated.py") in
      let parent_folder_id := dict_get context "parent_folder_id" in
      if negb (truthy parent_folder_id)
      then raise (Exn ValueError "Missing 'parent_folder_id' in context for saving output.")
      else
        ret (prompt,
             <["filename" := output_filename]> (<["parent_id" := parent_folder_id]> ∅)).

Definition _format_test_results (context : pydict) : string :=
  let test_results := dict_get_or context "test_results" (VStr "") in
  let test_summary := dict_get_or context "test_summary" (VStr "") in
  let timestamp := dict_get_or context "timestamp" (VStr "Unknown") in
  let test_framework := dict_get_or context "framework" (VStr "pytest") in
  "# Test Execution Results" +:+ nl +:+ nl
  +:+ "## Summary" +:+ nl
  +:+ "- **Timestamp**: " +:+ py_str timestamp +:+ nl
  +:+ "- **Framework**: " +:+ py_str test_framework +:+ nl
  +:+ "- **Test Suite**: " +:+ py_str (dict_get_or context "test_suite" (VStr "Unknown"))
  +:+ nl +:+ nl
  +:+ "## Test Summary" +:+ nl
  +:+ py_str test_summary +:+ nl +:+ nl
  +:+ "## Detailed Results" +:+ nl
  +:+ "```" +:+ nl
  +:+ py_str test_results +:+ nl
  +:+ "```" +:+ nl +:+ nl
  +:+ "## Recommendations" +:+ nl
  +:+ py_str (dict_get_or context "recommendations" (VStr "No specific recommendations."))
  +:+ nl +:+ nl
  +:+ "---" +:+ nl
  +:+ "Generated by TestAgent - Gemini-Agent System" +:+ nl.

Definition TestAgent_body (agent_self_correct : self_correct W) (self : AgentBase)
    (task : string) (context : pydict) (operation_type : pyval) : gen W unit :=
  if str_eq operation_type "generate_tests" then
    let* pf := TestAgent_prepare_and_construct_prompt self task context in
    let '(prompt, file_op_details) := pf in
    let* full_response := buffer_llm_response self prompt task context in
    if invalid_response full_response then
      let error_msg := "[" +:+ name self +:+ "] LLM workflow failed or returned empty response." in
      yield error_msg >>
      agent_self_correct self task context error_msg "llm_response_error"
        "The LLM failed to generate a valid response. Please analyze the prompt and try again."
    else
      let* rule_violations := _enforce_agent_rules self full_response task context in
      if negb (is_nil rule_violations) then
        let details := violation_details rule_violations in
        let error_msg :=
          "[RULE_VIOLATION] [" +:+ name self +:+ "] Agent-specific rules violated: "
          +:+ details in
        yield error_msg >>
        agent_self_correct self task context error_msg "rule_violation"
          ("The output violated rules: " +:+ details
           +:+ ". Please regenerate the output to comply.")
      else
        let* filename := subscript file_op_details "filename" in
        let* parent_id := subscript file_op_details "parent_id" in
        let* file_id := _write_gdrive_file self filename full_response parent_id in
        yield full_response >>
        if truthy file_id
        then yield (nl +:+ "[SUCCESS] Output saved to GDrive file ID: " +:+ py_str file_id)
        else ret tt
  else if str_eq operation_type "write_test_results" then
    let formatted_results := _format_test_results context in
    let output_filename := dict_get_or context "output_filename" (VStr "test_results.md") in
    let parent_folder_id := dict_get context "parent_folder_id" in
    if negb (truthy parent_folder_id)
    then raise (Exn ValueError "Missing 'parent_folder_id' in context for saving output.")
    else
      let* file_id := _write_gdrive_file self output_filename formatted_results
                        parent_folder_id in
      if truthy file_id
      then yield (nl +:+ "[SUCCESS] Test results saved to GDrive file ID: " +:+ py_str file_id)
      else yield (nl +:+ "[ERROR] Failed to save test results to GDrive.")
  else raise (Exn ValueError ("Unknown operation type: " +:+ py_str operation_type)).

Definition TestAgent_run (agent_self_correct : self_correct W)
    (self : AgentBase) (task : string) (context : pydict) : gen W unit :=
  let operation_type := dict_get_or context "operation_type" (VStr "generate_tests") in
  (if websocket_manager self
   then emit (ESend (stream_chunk self ("[" +:+ name self +:+ "] Starting operation: "
                                        +:+ py_str operation_type +:+ "...")))
   else ret tt) >>
  try_except (TestAgent_body agent_self_correct self task context operation_type)
    (fun e =>
       match exn_cls e with
       | ValueError | KeyError =>
           let error_message :=
             "[ERROR] [" +:+ name self +:+ "] Validation error: " +:+ exn_msg e in
           yield error_message >>
           agent_self_correct self task context (exn_msg e) "validation_error"
             "A data validation or key error occurred. Check the context data and the agent's logic."
       | _ =>
           let error_message :=
             "[ERROR] [" +:+ name self +:+ "] Unhandled exception in run: " +:+ exn_msg e in
           yield error_message >>
           agent_self_correct self task context (exn_msg e) "unhandled_exception"
             "An unexpected error occurred. Analyze the stack trace and context to find the root cause."
       end).

(** *** error_handling.py: agent_self_correct

    [agent_self_correct] runs a fresh [FixAgent], whose own failure handler
    calls [agent_self_correct] again.  [fuel] is the number of nested Fix
    lifecycles the model unfolds; the code carries no such number. *)

Definition fix_task_of (agent : AgentBase) (original_task : string)
    (current_context : pydict) (error_details error_type correction_guidance : string)
    : string :=
  let fix_task :=
    "The '" +:+ name agent +:+ "' agent failed on the task: '" +:+ original_task
    +:+ "'." +:+ nl
    +:+ "Error Type: " +:+ error_type +:+ nl
    +:+ "Error Details: " +:+ error_details +:+ nl
    +:+ "Original Context: " +:+ repr_context C current_context +:+ nl in
  let fix_task :=
    if negb (String.eqb correction_guidance "")
    then fix_task +:+ "Correction Guidance: " +:+ correction_guidance +:+ nl
    else fix_task in
  fix_task +:+ "Please analyze the error and provide a corrected response or solution.".

Fixpoint agent_self_correct (fuel : nat) (agent : AgentBase) (original_task : string)
    (current_context : pydict) (error_details error_type correction_guidance : string)
    {struct fuel} : gen W unit :=
  try_except
    (let log_message :=
       "Initiating self-correction for " +:+ name agent +:+ " due to " +:+ error_type
       +:+ ". Error: " +:+ error_details in
     yield (stream_chunk agent ("[INFO] " +:+ log_message)) >>
     let fix_task :=
       fix_task_of agent original_task current_context error_details error_type
         correction_guidance in
     let* fix_agent :=
       new_agent FixAgent (name agent) (config agent) (websocket_manager agent) in
     match fuel with
     | O => diverge
     | S fuel' => FixAgent_run (agent_self_correct fuel') fix_agent fix_task current_context
     end >>
     yield (stream_chunk agent ("[INFO] Self-correction attempt for " +:+ name agent
                                +:+ " completed.")))
    (fun e =>
       let error_message :=
         "A critical error occurred during the self-correction process: " +:+ exn_msg e in
       yield (stream_chunk agent ("[ERROR] " +:+ error_message))).

(** [agent.run(task, context)], dispatched on the class of the instance. *)
Definition agent_run (fuel : nat) (agent : AgentBase) (task : string) (context : pydict)
    : gen W unit :=
  match cls agent with
  | CodeGenAgent => CodeGenAgent_run (agent_self_correct fuel) agent task context
  | DocAgent => DocAgent_run (agent_self_correct fuel) agent task context
  | FixAgent => FixAgent_run (agent_self_correct fuel) agent task context
  | PlannerAgent => PlannerAgent_run (agent_self_correct fuel) agent task context
  | QaAgent => QaAgent_run (agent_self_correct fuel) agent task context
  | TestAgent => TestAgent_run (agent_self_correct fuel) agent task context
  end.

(** *** The recursion limit of the interpreter

    Every nested correction adds frames to the Python stack, and the
    interpreter refuses the call that would exceed its limit.
    [agent_self_correct_within] is [agent_self_correct] under such a limit:
    [depth] is the number of nested Fix lifecycles the interpreter lets
    start, and [at_limit] is what happens in place of the one it refuses
    (CPython raises RecursionError there).  [agent_self_correct] is the
    instance in which nothing ever takes that place. *)
Fixpoint agent_self_correct_within (at_limit : gen W unit) (depth : nat)
    (agent : AgentBase) (original_task : string) (current_context : pydict)
    (error_details error_type correction_guidance : string) {struct depth} : gen W unit :=
  try_except
    (let log_message :=
       "Initiating self-correction for " +:+ name agent +:+ " due to " +:+ error_type
       +:+ ". Error: " +:+ error_details in
     yield (stream_chunk agent ("[INFO] " +:+ log_message)) >>
     let fix_task :=
       fix_task_of agent original_task current_context error_details error_type
         correction_guidance in
     let* fix_agent :=
       new_agent FixAgent (name agent) (config agent) (websocket_manager agent) in
     match depth with
     | O => at_limit
     | S depth' =>
         FixAgent_run (agent_self_correct_within at_limit depth') fix_agent fix_task
           current_context
     end >>
     yield (stream_chunk agent ("[INFO] Self-correction attempt for " +:+ name agent
                                +:+ " completed.")))
    (fun e =>
       let error_message :=
         "A critical error occurred during the self-correction process: " +:+ exn_msg e in
       yield (stream_chunk agent ("[ERROR] " +:+ error_message))).

(** [agent.run(task, context)] under the same limit. *)
Definition agent_run_within (at_limit : gen W unit) (depth : nat) (agent : AgentBase)
    (task : string) (context : pydict) : gen W unit :=
  match cls agent with
  | CodeGenAgent =>
      CodeGenAgent_run (agent_self_correct_within at_limit depth) agent task context
  | DocAgent => DocAgent_run (agent_self_correct_within at_limit depth) agent task context
  | FixAgent => FixAgent_run (agent_self_correct_within at_limit depth) agent task context
  | PlannerAgent =>
      PlannerAgent_run (agent_self_correct_within at_limit depth) agent task context
  | QaAgent => QaAgent_run (agent_self_correct_within at_limit depth) agent task context
  | TestAgent => TestAgent_run (agent_self_correct_within at_limit depth) agent task context
  end.
End Agents.

(** ** orchestrator.py *)

(** Dictionaries are objects: the orchestrator holds a reference to its agent
    registry, and the heap maps references to the registries they denote. *)
Definition loc := nat.

Record Orchestrator := {
  context : pydict;     (* self.context *)
  agents : loc          (* self.agents: a reference to the registry *)
}.

Abbreviation registry := (gmap string AgentBase).
Abbreviation heap := (gmap loc (gmap string AgentBase)).

(** A workflow step, [{name, agent, task}] with string values; a key that is
    not there reads as [None]. *)
Abbreviation task_def := (gmap string string).

Inductive ipc_response :=
  | IpcResult (result : string)     (* {"result": result} *)
  | IpcError (error : string).      (* {"error": str(e)} *)

Definition agent_class_map : gmap string agent_class :=
  list_to_map
    [("codegen", CodeGenAgent); ("doc", DocAgent); ("fix", FixAgent);
     ("planner", PlannerAgent); ("qa", QaAgent); ("test", TestAgent)].

(** The registry a reference denotes. *)
Definition deref (h : heap) (l : loc) : registry := default ∅ (h !! l).

(** Truth of an optional string: [None] and [""] are false. *)
Definition opt_truthy (o : option string) : bool :=
  match o with
  | Some s => negb (String.eqb s "")
  | None => false
  end.

Section Orchestration.
Context {W : Type} (C : collaborators W).

(** [await self.websocket_manager.send_message_to_client(msg)]: the message
    is recorded as handed to the websocket manager, whose module is not part
    of the sources. *)
Definition send_message_to_client (msg : string) : gen W unit := emit (ESend msg).

(** The loop of [_load_agents] over [agent_configs.items()]. *)
Fixpoint load_loop (h : heap) (self : Orchestrator)
    (items : list (string * gmap string string)) : gen W heap :=
  match items with
  | [] => ret h
  | (agent_name, cfg) :: rest =>
      let* h1 :=
        match agent_class_map !! agent_name with
        | Some agent_class =>
            try_except
              (let* a := new_agent C agent_class agent_name cfg true in
               ret (<[agents self := <[agent_name := a]> (deref h (agents self))]> h))
              (fun e => ret h)
        | None => ret h
        end in
      load_loop h1 self rest
  end.

(** [agent_configs] is [self.config_manager.get().llm_configurations]. *)
Definition _load_agents (h : heap) (self : Orchestrator)
    (agent_configs : list (string * gmap string string)) : gen W heap :=
  if is_nil agent_configs then ret h
  else load_loop (<[agents self := ∅]> h) self agent_configs.   (* self.agents.clear() *)

Definition reload_config (h : heap) (self : Orchestrator)
    (agent_configs : list (string * gmap string string)) : gen W heap :=
  _load_agents h self agent_configs.

(** [Orchestrator.__init__]: [self.context = {}], [self.agents = {}] (a new
    dictionary object), then the initial load. *)
Definition Orchestrator_init (h : heap)
    (agent_configs : list (string * gmap string string)) : gen W (Orchestrator * heap) :=
  let l := fresh (dom h) in
  let self := {| context := ∅; agents := l |} in
  let* h1 := _load_agents (<[l := ∅]> h) self agent_configs in
  ret (self, h1).

Definition _get_agent (h : heap) (self : Orchestrator) (agent_type : string)
    : option AgentBase :=
  deref h (agents self) !! agent_type.

Definition update_context (self : Orchestrator) (new_context_data : pydict) : Orchestrator :=
  {| context := new_context_data ∪ context self; agents := agents self |}.

(** [run_result = await agent.run(task, self.context)]: the await raises, or
    gives the stream of the agent. *)
Definition await_agent_run (agent : AgentBase) (task : string) (context : pydict)
    : gen W unit :=
  call (fun w => (await_run C (cls agent), w)).

(** [run_result = await agent.run(..); async for chunk in run_result: yield
    str(chunk)], inside [try ... except Exception]. *)
Definition _execute_task (fuel : nat) (self : Orchestrator) (agent : AgentBase)
    (task : string) : gen W unit :=
  try_except
    (await_agent_run agent task (context self) >>
     agent_run C fuel agent task (context self))
    (fun e =>
       yield ("[ERROR] Unhandled exception in agent '" +:+ name agent +:+ "': "
              +:+ exn_msg e)).

(** The body of the [async for] of [run_workflow]: the chunk goes to the
    client, and to [final_output] when it is not a progress chunk. *)
Definition forward (e : event) : event :=
  match e with
  | EYield chunk => ESend chunk
  | _ => e
  end.

Definition accumulate (final_output chunk : string) : string :=
  if negb (startswith chunk "STREAM_CHUNK:") then final_output +:+ chunk
  else final_output.

Definition forward_and_collect (stream : gen W unit) : gen W string :=
  fun w =>
    match stream w with
    | (evs, Ok _, w1) => (map forward evs, Ok (fold_left accumulate (chunks_of evs) ""), w1)
    | (evs, Exc e, w1) => (map forward evs, Exc e, w1)
    | (evs, Div, w1) => (map forward evs, Div, w1)
    end.

(** One iteration of the [for i, task_def in enumerate(workflow)] loop. *)
Definition workflow_step (fuel : nat) (h : heap) (self : Orchestrator) (i : nat)
    (td : task_def) : gen W Orchestrator :=
  let task_name := default ("Task " +:+ pretty (i + 1)) (td !! "name") in
  let agent_type := td !! "agent" in
  let task_description := td !! "task" in
  if negb (opt_truthy agent_type) then
    send_message_to_client ("[ERROR] Skipping invalid task '" +:+ task_name
                            +:+ "': missing agent type.") >>
    ret self
  else if negb (opt_truthy task_description) then
    send_message_to_client ("[ERROR] Skipping invalid task '" +:+ task_name
                            +:+ "': missing task description.") >>
    ret self
  else
    let agent_type := default "" agent_type in
    let task_description := default "" task_description in
    match _get_agent h self agent_type with
    | None =>
        send_message_to_client ("[ERROR] Agent '" +:+ agent_type
                                +:+ "' not found for task '" +:+ task_name +:+ "'.") >>
        ret self
    | Some agent =>
        send_message_to_client ("[INFO] Executing task '" +:+ task_name
                                +:+ "' with agent '" +:+ agent_type +:+ "'.") >>
        let* final_output :=
          forward_and_collect (_execute_task fuel self agent task_description) in
        ret (update_context self {[ agent_type +:+ "_output" := VStr final_output ]})
    end.

Fixpoint workflow_loop (fuel : nat) (h : heap) (self : Orchestrator) (i : nat)
    (workflow : list task_def) : gen W Orchestrator :=
  match workflow with
  | [] => ret self
  | td :: rest =>
      let* self1 := workflow_step fuel h self i td in
      workflow_loop fuel h self1 (S i) rest
  end.

Definition initial_context (workflow : list task_def) : pydict :=
  <["initial_workflow" := VOther (repr_workflow C workflow) (negb (is_nil workflow))]>
    (<["outputs" := VOther "{}" false]> ∅).

Definition run_workflow (fuel : nat) (h : heap) (self : Orchestrator)
    (workflow : list task_def) : gen W Orchestrator :=
  let self := {| context := initial_context workflow; agents := agents self |} in
  send_message_to_client "[INFO] Starting workflow execution..." >>
  let* self := workflow_loop fuel h self 0 workflow in
  send_message_to_client "[INFO] Workflow execution complete." >>
  ret self.

(** [output_chunks = []; async for chunk in run_result: output_chunks.append(chunk)] *)
Definition collect_chunks (stream : gen W unit) : gen W (list string) :=
  fun w =>
    match stream w with
    | (evs, Ok _, w1) =>
        (filter (fun e => chunks_of [e] = []) evs, Ok (chunks_of evs), w1)
    | (evs, Exc e, w1) => (filter (fun e => chunks_of [e] = []) evs, Exc e, w1)
    | (evs, Div, w1) => (filter (fun e => chunks_of [e] = []) evs, Div, w1)
    end.

Definition handle_ipc (fuel : nat) (h : heap) (self : Orchestrator)
    (agent_type task : string) : gen W string :=
  match _get_agent h self agent_type with
  | None => ret ("[ERROR] Agent '" +:+ agent_type +:+ "' not found for IPC task.")
  | Some agent =>
      try_except
        (await_agent_run agent task (context self) >>
         let* output_chunks := collect_chunks (agent_run C fuel agent task (context self)) in
         ret (join "" (filter (fun c => negb (startswith c "STREAM_CHUNK:") = true)
                         output_chunks)))
        (fun e =>
           ret ("[ERROR] Unhandled exception in IPC for agent '" +:+ name agent
                +:+ "': " +:+ exn_msg e))
  end.

(** *** backend_server.py: the [/ipc] endpoint

    [orchestrator] is the module-level orchestrator, [None] before start-up;
    [data] is what [await request.json()] gives, or the exception it raises. *)
Definition ipc_handler (fuel : nat) (h : heap) (orchestrator : option Orchestrator)
    (data : outcome (gmap string string)) : gen W ipc_response :=
  try_except
    (match orchestrator with
     | None => raise (Exn OtherException "")          (* assert orchestrator is not None *)
     | Some orch =>
         let* data := call (fun w => (data, w)) in
         let agent := default "codegen" (data !! "agent") in
         let task := default "" (data !! "task") in
         let* result := handle_ipc fuel h orch agent task in
         ret (IpcResult result)
     end)
    (fun e => ret (IpcError (exn_msg e))).
End Orchestration.

(** ** Runs that share one orchestrator

    [run_workflow] and [handle_ipc] are coroutines on the same instance: at
    each [await] another run may be scheduled.  A schedule lists the pieces
    in the order in which they execute: the start of a workflow (the
    assignment to [self.context] and the first message), one iteration of
    its loop, its last message, or a whole IPC call. *)
Inductive op :=
  | WorkflowStart (workflow : list (gmap string string))
  | WorkflowStep (i : nat) (td : gmap string string)
  | WorkflowEnd
  | IpcCall (agent_type task : string).

Section Schedules.
Context {W : Type} (C : collaborators W).

(** One piece: the orchestrator it leaves, and the value an IPC call
    returns. *)
Definition run_op (fuel : nat) (h : heap) (self : Orchestrator) (o : op)
    : gen W (Orchestrator * option string) :=
  match o with
  | WorkflowStart workflow =>
      send_message_to_client "[INFO] Starting workflow execution..." >>
      ret ({| context := initial_context C workflow; agents := agents self |}, None)
  | WorkflowStep i td =>
      let* self1 := workflow_step C fuel h self i td in
      ret (self1, None)
  | WorkflowEnd =>
      send_message_to_client "[INFO] Workflow execution complete." >>
      ret (self, None)
  | IpcCall agent_type task =>
      let* r := handle_ipc C fuel h self agent_type task in
      ret (self, Some r)
  end.

(** A schedule: the orchestrator it leaves and the IPC results, in order. *)
Fixpoint run_ops (fuel : nat) (h : heap) (self : Orchestrator) (ops : list op)
    : gen W (Orchestrator * list string) :=
  match ops with
  | [] => ret (self, [])
  | o :: rest =>
      let* x := run_op fuel h self o in
      let* y := run_ops fuel h x.1 rest in
      ret (y.1, match x.2 with Some r => r :: y.2 | None => y.2 end)
  end.


(** The [try] block of [run], for the five agent classes that report their
    progress as tagged chunks. *)
Definition lifecycle (agent : AgentBase) (task : string) (ctx : pydict)
    : option (gen W unit) :=
  match cls agent with
  | CodeGenAgent => Some (CodeGenAgent_body C agent task ctx)
  | DocAgent => Some (DocAgent_body C agent task ctx)
  | FixAgent => Some (FixAgent_body C agent task ctx)
  | PlannerAgent => Some (PlannerAgent_body C agent task ctx)
  | QaAgent => Some (QaAgent_body C agent task ctx)
  | TestAgent => None
  end.

(** The [try] block of [run] for the six classes; the one of the test agent
    calls the coordinator [sc] itself when the response does not pass. *)
Definition try_block (sc : self_correct W) (agent : AgentBase) (task : string)
    (ctx : pydict) : gen W unit :=
  match cls agent with
  | CodeGenAgent => CodeGenAgent_body C agent task ctx
  | DocAgent => DocAgent_body C agent task ctx
  | FixAgent => FixAgent_body C agent task ctx
  | PlannerAgent => PlannerAgent_body C agent task ctx
  | QaAgent => QaAgent_body C agent task ctx
  | TestAgent =>
      TestAgent_body C sc agent task ctx
        (dict_get_or ctx "operation_type" (VStr "generate_tests"))
  end.
End Schedules.

(** ** Concrete collaborators used in the examples *)

(** The TypeError of CPython for [await] on an async generator, and its
    RecursionError. *)
Definition not_awaitable : exn :=
  Exn OtherException "object async_generator can't be used in 'await' expression".
Definition RecursionError : exn :=
  Exn OtherException "maximum recursion depth exceeded".

(** A world without state: templates render to their name, the LLM streams
    what [llm] says for the task and the context, the rule engine reports
    nothing, Google Drive reads ["code"] and stores under ["file-1"], and
    [run] is the async generator it is written as. *)
Definition simple_world (llm : string -> pydict -> list string) : collaborators unit := {|
  agent_init := fun _ _ _ w => (Value tt, w);
  construct_prompt := fun _ template_name _ w => (Value template_name, w);
  execute_llm := fun _ _ task ctx w => ((llm task ctx, None), w);
  enforce_agent_rules := fun _ _ _ _ w => (Value [], w);
  read_gdrive_file := fun _ _ _ _ _ w => (Value (VStr "code"), w);
  write_gdrive_file := fun _ _ _ _ w => (Value (VStr "file-1"), w);
  update_gdrive_file := fun _ _ _ _ w => (Value (VOther "True" true), w);
  repr_context := fun _ => "{}";
  repr_workflow := fun _ => "[]";
  await_run := fun _ => Throws not_awaitable
|}.

(** The LLM repeats the task. *)
Definition echo_world : collaborators unit := simple_world (fun task _ => [task]).

(** The LLM answers nothing. *)
Definition silent_world : collaborators unit := simple_world (fun _ _ => []).

(** The LLM repeats the task followed by what the context holds under
    ["codegen_output"]. *)
Definition context_world : collaborators unit :=
  simple_world (fun task ctx => [task; py_str (dict_get_or ctx "codegen_output" (VStr ""))]).

Definition agent_of (k : agent_class) (nm : string) : AgentBase :=
  {| cls := k; name := nm; config := ∅; websocket_manager := true |}.

(** An orchestrator whose registry, at reference [0], holds the six agents. *)
Definition full_registry : gmap string AgentBase :=
  list_to_map
    [("codegen", agent_of CodeGenAgent "codegen"); ("doc", agent_of DocAgent "doc");
     ("fix", agent_of FixAgent "fix"); ("planner", agent_of PlannerAgent "planner");
     ("qa", agent_of QaAgent "qa"); ("test", agent_of TestAgent "test")].

Definition heap0 : gmap loc (gmap string AgentBase) := {[ 0 := full_registry ]}.
Definition orch0 : Orchestrator := {| context := ∅; agents := 0 |}.

(** A workflow step [{agent, task}]. *)
Definition step_of (agent_type task : string) : gmap string string :=
  <["agent" := agent_type]> (<["task" := task]> ∅).

(** ** Vocabulary of the statements *)

Section Vocabulary.
Context {W : Type}.

(** The computation never raises. *)
Definition no_exc {A} (m : gen W A) : Prop := forall w e, result (m w) <> Exc e.

(** The computation always ends: it returns or it raises. *)
Definition no_div {A} (m : gen W A) : Prop := forall w, result (m w) <> Div.

(** The computation produces no event. *)
Definition silent {A} (m : gen W A) : Prop := forall w, events (m w) = [].

(** The stream has at least one chunk, unless the computation raised. *)
Definition yields_or_raises {A} (m : gen W A) : Prop :=
  forall w, chunks_of (events (m w)) <> [] \/ exists e, result (m w) = Exc e.

(** [m2] behaves as [m1] wherever [m1] ends. *)
Definition extends {A} (m1 m2 : gen W A) : Prop :=
  forall w, result (m1 w) <> Div -> m2 w = m1 w.

(** Every event of the trace satisfies [Q]. *)
Definition all_events {A} (Q : event -> Prop) (m : gen W A) : Prop :=
  forall w, Forall Q (events (m w)).

(** Whenever the computation returns, its trace and its value satisfy [Q]. *)
Definition returns {A} (m : gen W A) (Q : list event -> A -> Prop) : Prop :=
  forall w evs a w1, m w = (evs, Ok a, w1) -> Q evs a.
End Vocabulary.

(** The message of the exception a Fix lifecycle raises on a context without
    a source file, and the guidance its handler passes on. *)
Definition missing_id : string :=
  "Missing 'gdrive_file_id' in context for create operation.".
Definition fix_guidance : string :=
  "The agent failed during code fixing or validation. Analyze the error and context to provide a fix.".

(** The contents handed to the artifact store, in order. *)
Definition stored_contents (evs : list event) : list string :=
  omap (fun e => match e with
                 | EWrite _ content _ => Some content
                 | EUpdate _ content => Some content
                 | _ => None
                 end) evs.

(** A trace that carries the response [full] and nothing else: its payload
    chunks are [full] alone (none when [full] itself reads as a progress
    chunk), and whatever went to the artifact store is [full]. *)
Definition carries (full : string) (evs : list event) : Prop :=
  payload_chunks (chunks_of evs) = (if is_progress full then [] else [full])
  /\ Forall (eq full) (stored_contents evs).

(** What the lifecycle lets through: a progress chunk, or a payload chunk or
    stored content that passes the validation of the LLM response. *)
Definition validated_event (e : event) : Prop :=
  match e with
  | EYield c => is_progress c = true \/ invalid_response c = false
  | EWrite _ c _ => invalid_response c = false
  | EUpdate _ c => invalid_response c = false
  | ESend _ => True
  end.

(** A run with one more event in front. *)
Definition prepend {W A} (e : event) (x : list event * res A * W) : list event * res A * W :=
  (e :: events x, result x, world x).

(** A step that [run_workflow] does not execute: no agent type, no task
    description, or an agent type the registry does not hold. *)
Definition bad_step (h : gmap loc (gmap string AgentBase)) (self : Orchestrator)
    (td : gmap string string) : bool :=
  negb (opt_truthy (td !! "agent"))
  || negb (opt_truthy (td !! "task"))
  || negb (bool_decide (is_Some (deref h (agents self) !! default "" (td !! "agent")))).

Definition workflow_complete : string := "[INFO] Workflow execution complete.".

(** The chunk [_execute_task] yields, and the text [handle_ipc] returns, for
    the exception [e]. *)
Definition task_error (agent : AgentBase) (e : exn) : string :=
  "[ERROR] Unhandled exception in agent '" +:+ name agent +:+ "': " +:+ exn_msg e.
Definition ipc_error (agent : AgentBase) (e : exn) : string :=
  "[ERROR] Unhandled exception in IPC for agent '" +:+ name agent +:+ "': " +:+ exn_msg e.

(** What an executed step of agent type [agent_type] stores, and what an IPC
    call for it returns, when the await on [run] raises [err]. *)
Definition stored_error (err : agent_class -> exn) (h : gmap loc (gmap string AgentBase))
    (self : Orchestrator) (agent_type : string) : option pyval :=
  (fun agent => VStr (task_error agent (err (cls agent)))) <$> _get_agent h self agent_type.

Definition ipc_value (err : agent_class -> exn) (h : gmap loc (gmap string AgentBase))
    (self : Orchestrator) (agent_type : string) : string :=
  match _get_agent h self agent_type with
  | None => "[ERROR] Agent '" +:+ agent_type +:+ "' not found for IPC task."
  | Some agent => ipc_error agent (err (cls agent))
  end.

(** The values the IPC calls of a schedule return, in order. *)
Definition ipc_values (err : agent_class -> exn) (h : gmap loc (gmap string AgentBase))
    (self : Orchestrator) (ops : list op) : list string :=
  omap (fun o => match o with
                 | IpcCall agent_type _ => Some (ipc_value err h self agent_type)
                 | _ => None
                 end) ops.

(** The piece is a step that [run_workflow] executes with agent type
    [agent_type]; the piece is the start of a workflow; the piece is an IPC
    call. *)
Definition executes (h : gmap loc (gmap string AgentBase)) (self : Orchestrator)
    (agent_type : string) (o : op) : bool :=
  match o with
  | WorkflowStep _ td =>
      bool_decide (td !! "agent" = Some agent_type) && negb (bad_step h self td)
  | _ => false
  end.

Definition is_start (o : op) : bool :=
  match o with WorkflowStart _ => true | _ => false end.

Definition is_ipc (o : op) : bool :=
  match o with IpcCall _ _ => true | _ => false end.

(** ** More vocabulary: all the ways a computation may end *)

Section Outcomes.
Context {W : Type}.

(** Whatever way the computation ends, its trace and its result satisfy [Q]. *)
Definition always {A} (m : gen W A) (Q : list event -> res A -> Prop) : Prop :=
  forall w, Q (events (m w)) (result (m w)).
End Outcomes.

(** The result is a normal return. *)
Definition is_Ok {A} (r : res A) : bool :=
  match r with Ok _ => true | _ => false end.

(** The messages sent to the client, in order. *)
Definition sent_messages (evs : list event) : list string :=
  omap (fun e => match e with ESend m => Some m | _ => None end) evs.

(** What the configuration says the registry must hold under [nm]: the agent
    of the class registered for that name, when its constructor accepts the
    configuration ([good]). *)
Definition configured_agent (good : agent_class -> string -> gmap string string -> bool)
    (agent_configs : list (string * gmap string string)) (nm : string) : option AgentBase :=
  match (list_to_map agent_configs : gmap string (gmap string string)) !! nm with
  | Some cfg =>
      match agent_class_map !! nm with
      | Some k => if good k nm cfg then Some (Agent k nm cfg true) else None
      | None => None
      end
  | None => None
  end.

(** A world in which the documentation agent cannot be constructed. *)
Definition picky_world : collaborators unit := {|
  agent_init := fun k _ _ w =>
    (match k with
     | DocAgent => Throws (Exn OtherException "documentation agent unavailable")
     | _ => Value tt
     end, w);
  construct_prompt := fun _ template_name _ w => (Value template_name, w);
  execute_llm := fun _ _ task _ w => (([task], None), w);
  enforce_agent_rules := fun _ _ _ _ w => (Value [], w);
  read_gdrive_file := fun _ _ _ _ _ w => (Value (VStr "code"), w);
  write_gdrive_file := fun _ _ _ _ w => (Value (VStr "file-1"), w);
  update_gdrive_file := fun _ _ _ _ w => (Value (VOther "True" true), w);
  repr_context := fun _ => "{}";
  repr_workflow := fun _ => "[]";
  await_run := fun _ => Throws not_awaitable
|}.

(** A world in which no agent can be constructed. *)
Definition broken_world : collaborators unit := {|
  agent_init := fun _ _ _ w => (Throws (Exn OtherException "no rule engine"), w);
  construct_prompt := fun _ template_name _ w => (Value template_name, w);
  execute_llm := fun _ _ task _ w => (([task], None), w);
  enforce_agent_rules := fun _ _ _ _ w => (Value [], w);
  read_gdrive_file := fun _ _ _ _ _ w => (Value (VStr "code"), w);
  write_gdrive_file := fun _ _ _ _ w => (Value (VStr "file-1"), w);
  update_gdrive_file := fun _ _ _ _ w => (Value (VOther "True" true), w);
  repr_context := fun _ => "{}";
  repr_workflow := fun _ => "[]";
  await_run := fun _ => Throws not_awaitable
|}.

(** A context with what the file operations ask for. *)
Definition drive_context : pydict :=
  <["gdrive_file_id" := VStr "file"]> (<["parent_folder_id" := VStr "folder"]> ∅).

(** The last character of a string. *)
Fixpoint str_last (s : string) : option ascii :=
  match s with
  | EmptyString => None
  | String a rest =>
      match rest with
      | EmptyString => Some a
      | String _ _ => str_last rest
      end
  end.

(** A context that names no operation, no source file and no folder. *)
Definition file_free (ctx : pydict) : Prop :=
  ctx !! "operation_type" = None
  /\ ctx !! "gdrive_file_id" = None
  /\ ctx !! "parent_folder_id" = None.

(** ** error_handling.py: the error handler and the retry decorator

    Clock readings ([datetime.now()], [time.time()]) are left out: the
    [timestamp] of an [ErrorContext] and the entries ["last_update"] and
    ["last_error_time"] of the state dictionary are not modelled. *)

(** A Python [int] stored in a dictionary typed [Any]. *)
Definition py_int (n : Z) : pyval := VOther (pretty n) (negb (n =? 0)%Z).

(** What [func] may raise: an exception without an [error_type] attribute, or
    an [AsyncApplicationError(message, error_type, context)]. *)
Inductive raised :=
  | Raised (e : exn)
  | AsyncApplicationError (message : string) (error_type : string) (context : pydict).

(** [str(error)] *)
Definition error_str (e : raised) : string :=
  match e with
  | Raised e => exn_msg e
  | AsyncApplicationError message _ _ => message
  end.

(** [getattr(error, 'error_type', 'E999')] *)
Definition error_type_of (e : raised) : string :=
  match e with
  | Raised _ => "E999"
  | AsyncApplicationError _ error_type _ => error_type
  end.

Record ErrorContext := {
  error_type : string;
  error_message : string;
  stack_trace : option string;
  context_data : option pydict;
  severity : string;
  resolution_hint : option string
}.

Record StreamingErrorHandler := {
  _state : pydict;
  _error_queue : list ErrorContext;
  _error_cache : list ErrorContext
}.

Definition _max_cache_size : nat := 1000.

(** [StreamingErrorHandler.__init__] *)
Definition StreamingErrorHandler_init : StreamingErrorHandler :=
  {| _state := ∅; _error_queue := []; _error_cache := [] |}.

(** [self._state.update(new_state)] *)
Definition update_state (state new_state : pydict) : pydict := new_state ∪ state.

(** The [ErrorContext] built for an error and the context given with it. *)
Definition error_context_of (error : raised) (context : option pydict) : ErrorContext :=
  {| error_type := error_type_of error;
     error_message := error_str error;
     stack_trace := None;
     context_data := Some (default ∅ context);
     severity := "error";
     resolution_hint := None |}.

Definition handle_error_async (self : StreamingErrorHandler) (error : option raised)
    (context : option pydict) : ErrorContext * StreamingErrorHandler :=
  let error := default (AsyncApplicationError "Unknown error" "E999" ∅) error in
  let error_context := error_context_of error context in
  let queue := _error_queue self ++ [error_context] in
  let cache := _error_cache self ++ [error_context] in
  let cache := if (_max_cache_size <? length cache)%nat then tail cache else cache in
  (error_context,
   {| _state := update_state (_state self)
                  (<["total_errors" := py_int (Z.of_nat (length cache))]>
                     {[ "last_error" := VStr (error_message error_context) ]});
      _error_queue := queue;
      _error_cache := cache |}).

(** [l[start:]] *)
Definition slice_from {A} (start : Z) (l : list A) : list A :=
  drop (Z.to_nat (if (start <? 0)%Z then Z.max (Z.of_nat (length l) + start) 0 else start)) l.

Definition get_recent_errors (self : StreamingErrorHandler) (limit : Z) : list ErrorContext :=
  if negb (is_nil (_error_cache self)) then slice_from (- limit) (_error_cache self) else [].

Definition clear_errors (self : StreamingErrorHandler) : StreamingErrorHandler :=
  {| _state := update_state (_state self)
                 (<["total_errors" := py_int 0]> {[ "last_error" := VNone ]});
     _error_queue := _error_queue self;
     _error_cache := [] |}.

(** What the wrapper does besides handling errors: calls of the decorated
    function and [asyncio.sleep(seconds)]. *)
Inductive retry_event :=
  | RCall
  | RSleep (seconds : Z).

Inductive attempt_result (A : Type) :=
  | Returned (a : A)
  | Failed (e : raised).
Arguments Returned {A} a.
Arguments Failed {A} e.

Section Decorator.
Context {W A : Type}.
(** [self.max_retries], [func.__name__], [str(args)], [str(kwargs)] and the
    decorated function applied to its arguments. *)
Variable max_retries : Z.
Variable func_name args kwargs : string.
Variable func : W -> attempt_result A * W.

Definition retry_context (attempt : Z) : pydict :=
  <["function" := VStr func_name]>
    (<["attempt" := py_int (attempt + 1)]>
       (<["max_retries" := py_int max_retries]>
          (<["args" := VStr args]> {[ "kwargs" := VStr kwargs ]}))).

(** The body of [for attempt in range(self.max_retries + 1)], and what
    follows the loop. *)
Fixpoint wrapper_loop (attempts : list Z) (last_error : option raised)
    (w : W) (error_handler : StreamingErrorHandler)
    : list retry_event * attempt_result A * (W * StreamingErrorHandler) :=
  match attempts with
  | [] =>
      ([],
       Failed (default (Raised (Exn OtherException "Unknown error occurred after max retries"))
                 last_error),
       (w, error_handler))
  | attempt :: rest =>
      match func w with
      | (Returned result, w1) => ([RCall], Returned result, (w1, error_handler))
      | (Failed e, w1) =>
          let context := retry_context attempt in
          let error_handler := (handle_error_async error_handler (Some e) (Some context)).2 in
          if (attempt =? max_retries - 1)%Z then
            ([RCall],
             Failed (AsyncApplicationError
                       ("Max retries (" +:+ pretty max_retries +:+ ") exceeded for "
                        +:+ func_name +:+ ": " +:+ error_str e)
                       "E999" context),
             (w1, error_handler))
          else
            let '(evs, r, s) := wrapper_loop rest (Some e) w1 error_handler in
            (RCall :: RSleep (2 ^ attempt) :: evs, r, s)
      end
  end.

Definition wrapper (w : W) (error_handler : StreamingErrorHandler)
    : list retry_event * attempt_result A * (W * StreamingErrorHandler) :=
  wrapper_loop (seqZ 0 (max_retries + 1)) None w error_handler.
End Decorator.

(** Handling a series of errors, one after the other. *)
Definition handle_errors (self : StreamingErrorHandler)
    (errors : list (raised * option pydict)) : StreamingErrorHandler :=
  fold_left (fun h ec => (handle_error_async h (Some ec.1) ec.2).2) errors self.

Definition calls (evs : list retry_event) : nat :=
  length (omap (fun e => match e with RCall => Some tt | RSleep _ => None end) evs).

Definition sleeps (evs : list retry_event) : list Z :=
  omap (fun e => match e with RSleep s => Some s | RCall => None end) evs.

(** ** error_handling.py: the error message system *)

Definition ERROR_CODES : gmap string string :=
  <["E001" := "Invalid input"]>
    (<["E002" := "Config validation failed"]>
       (<["E003" := "LLM call failed or timed out"]>
          (<["E004" := "File operation error"]>
             (<["E005" := "Agent self-correction attempt failed"]>
                {[ "E999" := "Unknown error" ]})))).

Definition get_error_message (code : string) (detail : pyval) : string :=
  let message := default (ERROR_CODES !!! "E999") (ERROR_CODES !! code) in
  if truthy detail
  then "[" +:+ code +:+ "] " +:+ message +:+ ": " +:+ py_str detail
  else "[" +:+ code +:+ "] " +:+ message.

(** [template.format] with the keyword arguments [kw], for templates made of
    text and [{name}] fields; [field] is the name being read inside braces. *)
Fixpoint str_format (template : string) (field : option string) (kw : pydict)
    : string + exn :=
  match template with
  | EmptyString => inl ""
  | String c rest =>
      match field with
      | None =>
          if Ascii.eqb c "{" then str_format rest (Some "") kw
          else match str_format rest None kw with
               | inl s => inl (String c s)
               | inr e => inr e
               end
      | Some name =>
          if Ascii.eqb c "}" then
            match kw !! name with
            | None => inr (Exn KeyError ("'" +:+ name +:+ "'"))
            | Some v =>
                match str_format rest None kw with
                | inl s => inl (py_str v +:+ s)
                | inr e => inr e
                end
            end
          else str_format rest (Some (name +:+ String c "")) kw
      end
  end.

Definition _error_templates : gmap string string :=
  <["E001" := "Invalid input: {details}"]>
    (<["E002" := "Configuration validation failed: {details}"]>
       (<["E003" := "LLM call failed or timed out: {details}"]>
          (<["E004" := "File operation error: {details}"]>
             (<["E005" := "Agent self-correction attempt failed: {details}"]>
                {[ "E999" := "Unknown error: {details}" ]})))).

Definition format_error_streaming {W} (error_type : string) (context : pydict)
    : gen W unit :=
  let template := default (_error_templates !!! "E999") (_error_templates !! error_type) in
  match str_format template None context with
  | inr e => raise e
  | inl formatted_message =>
      yield formatted_message >>
      (if truthy (dict_get context "details")
       then yield ("Details: " +:+ py_str (dict_get context "details"))
       else ret tt) >>
      (if truthy (dict_get context "resolution_hint")
       then yield ("Resolution: " +:+ py_str (dict_get context "resolution_hint"))
       else ret tt)
  end.

(** ** backend_server.py: the websocket protocol and the configuration merge *)

(** [s.split(sep, maxsplit)] for a separator of one character. *)
Fixpoint str_split (sep : ascii) (maxsplit : nat) (s : string) : list string :=
  match maxsplit with
  | O => [s]
  | S n =>
      match s with
      | EmptyString => [""]
      | String c rest =>
          if Ascii.eqb c sep then "" :: str_split sep n rest
          else match str_split sep (S n) rest with
               | part :: parts => String c part :: parts
               | [] => [String c ""]
               end
      end
  end.

(** [c in s] for a character. *)
Fixpoint has_char (c : ascii) (s : string) : bool :=
  match s with
  | EmptyString => false
  | String a rest => Ascii.eqb a c || has_char c rest
  end.

(** The step of the workflow the endpoint builds from a message. *)
Definition websocket_task (workflow_name initial_task : string) : task_def :=
  <["agent" := workflow_name]>
    (<["task" := initial_task]> {[ "name" := "WebSocket Task: " +:+ workflow_name ]}).

(** What the endpoint does on one message received. *)
Inductive reaction :=
  | StartWorkflow (workflow : list task_def)     (* asyncio.create_task(run_workflow(..)) *)
  | SendText (text : string)                     (* await websocket.send_text(..) *)
  | NoReaction.

(** The body of the receive loop of [websocket_endpoint]. *)
Definition websocket_endpoint_step (data : string) : reaction :=
  if startswith data "START_WORKFLOW:" then
    match str_split ":" 2 data with
    | [_; workflow_name; initial_task] =>
        StartWorkflow [websocket_task workflow_name initial_task]
    | _ => SendText "[ERROR] Invalid START_WORKFLOW format."
    end
  else if startswith data "PING" then SendText "PONG"
  else NoReaction.

(** JSON values as [deep_merge] sees them: dictionaries, with their items in
    insertion order, and everything else (known by its text). *)
Inductive json :=
  | JAtom (text : string)
  | JDict (items : dict)
with dict :=
  | DNil
  | DCons (k : string) (v : json) (rest : dict).

(** [d.get(k)] *)
Fixpoint dict_lookup (d : dict) (k : string) : option json :=
  match d with
  | DNil => None
  | DCons k' v d' => if String.eqb k k' then Some v else dict_lookup d' k
  end.

(** [d[k] = v] *)
Fixpoint dict_set (d : dict) (k : string) (v : json) : dict :=
  match d with
  | DNil => DCons k v DNil
  | DCons k' v' d' =>
      if String.eqb k k' then DCons k' v d' else DCons k' v' (dict_set d' k v)
  end.

(** [list(d.keys())] *)
Fixpoint dict_keys (d : dict) : list string :=
  match d with
  | DNil => []
  | DCons k _ d' => k :: dict_keys d'
  end.

Fixpoint deep_merge (d u : dict) {struct u} : dict :=
  match u with
  | DNil => d
  | DCons k v u' =>
      let d1 :=
        match v, dict_lookup d k with
        | JDict vi, Some (JDict di) => dict_set d k (JDict (deep_merge di vi))
        | _, _ => dict_set d k v
        end in
      deep_merge d1 u'
  end.


(** Dictionaries as Python has them: no key twice, at any depth. *)
Fixpoint json_wf (v : json) : Prop :=
  match v with
  | JAtom _ => True
  | JDict d => dict_wf d
  end
with dict_wf (d : dict) : Prop :=
  match d with
  | DNil => True
  | DCons k v rest => (k ∉ dict_keys rest) /\ json_wf v /\ dict_wf rest
  end.

(** * Properties *)

(** ** Reading the three components of a run *)

Section GenLemmas.
Context {W : Type}.

Lemma run_eta {A} (x : list event * res A * W) : x = (events x, result x, world x).
Proof. by destruct x as [[??]?]. Qed.

Lemma bind_Ok {A B} (m : gen W A) (k : A -> gen W B) w evs a w1 :
  m w = (evs, Ok a, w1) ->
  bind m k w = (evs ++ events (k a w1), result (k a w1), world (k a w1)).
Proof. unfold bind. intros ->. by destruct (k a w1) as [[??]?]. Qed.

Lemma bind_Exc {A B} (m : gen W A) (k : A -> gen W B) w evs e w1 :
  m w = (evs, Exc e, w1) -> bind m k w = (evs, Exc e, w1).
Proof. unfold bind. by intros ->. Qed.

Lemma bind_Div {A B} (m : gen W A) (k : A -> gen W B) w evs w1 :
  m w = (evs, Div, w1) -> bind m k w = (evs, Div, w1).
Proof. unfold bind. by intros ->. Qed.

Lemma try_Exc {A} (m : gen W A) h w evs e w1 :
  m w = (evs, Exc e, w1) ->
  try_except m h w = (evs ++ events (h e w1), result (h e w1), world (h e w1)).
Proof. unfold try_except. intros ->. by destruct (h e w1) as [[??]?]. Qed.

Lemma try_Ok {A} (m : gen W A) h w evs a w1 :
  m w = (evs, Ok a, w1) -> try_except m h w = (evs, Ok a, w1).
Proof. unfold try_except. by intros ->. Qed.

Lemma try_Div {A} (m : gen W A) h w evs w1 :
  m w = (evs, Div, w1) -> try_except m h w = (evs, Div, w1).
Proof. unfold try_except. by intros ->. Qed.

Lemma yield_bind {B} c (k : unit -> gen W B) w :
  bind (yield c) k w = (EYield c :: events (k tt w), result (k tt w), world (k tt w)).
Proof. unfold bind, yield, emit. by destruct (k tt w) as [[??]?]. Qed.

Lemma emit_bind {B} ev (k : unit -> gen W B) w :
  bind (emit ev) k w = (ev :: events (k tt w), result (k tt w), world (k tt w)).
Proof. unfold bind, emit. by destruct (k tt w) as [[??]?]. Qed.

(** *** Computations that never raise *)

Lemma no_exc_ret {A} (a : A) : no_exc (@ret W A a).
Proof. by intros w e. Qed.

Lemma no_exc_emit ev : no_exc (@emit W ev).
Proof. by intros w e. Qed.

Lemma no_exc_yield c : no_exc (@yield W c).
Proof. by intros w e. Qed.

Lemma no_exc_diverge {A} : no_exc (@diverge W A).
Proof. by intros w e. Qed.

Lemma no_exc_bind {A B} (m : gen W A) (k : A -> gen W B) :
  no_exc m -> (forall a, no_exc (k a)) -> no_exc (bind m k).
Proof.
  intros Hm Hk w e. unfold bind.
  destruct (m w) as [[evs r] w1] eqn:E.
  destruct r as [a|e'|].
  - specialize (Hk a w1 e). destruct (k a w1) as [[??]?]. exact Hk.
  - specialize (Hm w e'). rewrite E in Hm. by destruct Hm.
  - done.
Qed.

Lemma no_exc_try {A} (m : gen W A) h :
  (forall e, no_exc (h e)) -> no_exc (try_except m h).
Proof.
  intros Hh w e. unfold try_except.
  destruct (m w) as [[evs r] w1] eqn:E.
  destruct r as [a|e'|]; try done.
  specialize (Hh e' w1 e). destruct (h e' w1) as [[??]?]. exact Hh.
Qed.
End GenLemmas.

Lemma stream_chunk_is_progress self msg : is_progress (stream_chunk self msg) = true.
Proof.
  unfold is_progress, startswith, stream_chunk. simpl.
  by destruct (name self +:+ ":" +:+ msg +:+ nl).
Qed.

Section NeverRaises.
Context {W : Type} (C : collaborators W).

(** The coordinator catches everything it raises itself. *)
Lemma agent_self_correct_no_exc fuel agent task ctx d t g :
  no_exc (agent_self_correct C fuel agent task ctx d t g).
Proof.
  destruct fuel; simpl; apply no_exc_try; intros e; apply no_exc_yield.
Qed.

Lemma agent_run_no_exc fuel agent task ctx : no_exc (agent_run C fuel agent task ctx).
Proof.
  unfold agent_run.
  destruct (cls agent);
    unfold CodeGenAgent_run, DocAgent_run, FixAgent_run, PlannerAgent_run,
      QaAgent_run, TestAgent_run.
  1-5: apply no_exc_bind; [apply no_exc_yield|intros _];
       apply no_exc_try; intros e;
       (apply no_exc_bind; [apply no_exc_yield|intros _]);
       apply agent_self_correct_no_exc.
  apply no_exc_bind.
  - destruct (websocket_manager agent); [apply no_exc_emit|apply no_exc_ret].
  - intros _. apply no_exc_try. intros e.
    destruct (exn_cls e);
      (apply no_exc_bind; [apply no_exc_yield|intros _]);
      apply agent_self_correct_no_exc.
Qed.
End NeverRaises.

(** ** The IPC call *)

Section Ipc.
Context {W : Type} (C : collaborators W).

Lemma ipc_handler_no_exc fuel h orchestrator data :
  no_exc (ipc_handler C fuel h orchestrator data).
Proof.
  unfold ipc_handler. apply no_exc_try. intros e. apply no_exc_ret.
Qed.

Lemma handle_ipc_no_exc fuel h self agent_type task :
  no_exc (handle_ipc C fuel h self agent_type task).
Proof.
  unfold handle_ipc. destruct (_get_agent h self agent_type).
  - apply no_exc_try. intros e. apply no_exc_ret.
  - apply no_exc_ret.
Qed.

(** C10. An agent type that the registry does not hold makes [handle_ipc]
    return the text "[ERROR] Agent '<agentType>' not found for IPC task." as
    its ordinary result, without raising; the HTTP handler wraps it as
    [{"result": ...}], not as [{"error": ...}]. *)
Theorem handle_ipc_unknown_agent_is_a_result fuel h self agent_type task data w :
  _get_agent h self agent_type = None ->
  data !! "agent" = Some agent_type ->
  data !! "task" = Some task ->
  handle_ipc C fuel h self agent_type task w
    = ([], Ok ("[ERROR] Agent '" +:+ agent_type +:+ "' not found for IPC task."), w)
  /\ ipc_handler C fuel h (Some self) (Value data) w
    = ([], Ok (IpcResult ("[ERROR] Agent '" +:+ agent_type
                          +:+ "' not found for IPC task.")), w).
Proof.
  intros Hnone Ha Ht.
  assert (Hh : handle_ipc C fuel h self agent_type task w
    = ([], Ok ("[ERROR] Agent '" +:+ agent_type +:+ "' not found for IPC task."), w)).
  { unfold handle_ipc. by rewrite Hnone. }
  split; [exact Hh|].
  unfold ipc_handler, try_except, bind, call.
  rewrite Ha, Ht. simpl. by rewrite Hh.
Qed.
End Ipc.

Lemma handle_ipc_unknown_agent_witness :
  handle_ipc echo_world 0 heap0 orch0 "plan" "A" tt
    = ([], Ok "[ERROR] Agent 'plan' not found for IPC task.", tt)
  /\ ipc_handler echo_world 0 heap0 (Some orch0) (Value (step_of "plan" "A")) tt
    = ([], Ok (IpcResult "[ERROR] Agent 'plan' not found for IPC task."), tt).
Proof.
  apply (handle_ipc_unknown_agent_is_a_result echo_world 0 heap0 orch0 "plan" "A"
           (step_of "plan" "A") tt); vm_compute; reflexivity.
Defined.

Section IpcPayload.
Context {W : Type} (C : collaborators W).

Lemma collect_chunks_Ok (stream : gen W unit) w :
  result (stream w) = Ok tt ->
  result (collect_chunks stream w) = Ok (chunks_of (events (stream w))).
Proof.
  unfold collect_chunks. destruct (stream w) as [[evs r] w1].
  unfold result, events. simpl. by intros ->.
Qed.

Lemma await_agent_run_Throws agent task ctx e w :
  await_run C (cls agent) = Throws e ->
  await_agent_run C agent task ctx w = ([], Exc e, w).
Proof. intros H. unfold await_agent_run, call. by rewrite H. Qed.

Lemma await_agent_run_Value agent task ctx w :
  await_run C (cls agent) = Value tt ->
  await_agent_run C agent task ctx w = ([], Ok tt, w).
Proof. intros H. unfold await_agent_run, call. by rewrite H. Qed.

(** Were the decorated [run] awaitable, [handle_ipc] would return the payload
    of every stream that ends. *)
Lemma handle_ipc_awaitable fuel h self agent_type task agent w :
  _get_agent h self agent_type = Some agent ->
  await_run C (cls agent) = Value tt ->
  result (agent_run C fuel agent task (context self) w) = Ok tt ->
  result (handle_ipc C fuel h self agent_type task w)
    = Ok (String.concat ""
            (payload_chunks (chunks_of (events (agent_run C fuel agent task (context self) w))))).
Proof.
  intros Hag Haw Hok. unfold handle_ipc. rewrite Hag.
  pose proof (collect_chunks_Ok _ _ Hok) as Hc.
  unfold try_except. rewrite (bind_Ok _ _ _ _ _ _ (await_agent_run_Value _ _ _ _ Haw)).
  unfold bind, result, events, world. cbn [fst snd].
  destruct (collect_chunks _ w) as [[evs r] w1].
  unfold result in Hc. simpl in Hc. subst r. reflexivity.
Qed.

Lemma handle_ipc_Throws fuel h self agent_type task agent e w :
  _get_agent h self agent_type = Some agent ->
  await_run C (cls agent) = Throws e ->
  handle_ipc C fuel h self agent_type task w = ([], Ok (ipc_error agent e), w).
Proof.
  intros Hag Haw. unfold handle_ipc. rewrite Hag.
  by rewrite (try_Exc _ _ _ _ _ _
                (bind_Exc _ _ _ _ _ _ (await_agent_run_Throws agent task _ e w Haw))).
Qed.

(** C9 (what the code does).  [handle_ipc] awaits [agent.run(..)] before it
    iterates it.  When that object is the async generator [run] is written as,
    the await raises, no chunk of the agent is ever collected, and what
    [handle_ipc] returns for every registered agent and every task is the text
    "[ERROR] Unhandled exception in IPC for agent '<name>': <e>", which the
    HTTP handler hands over as [{"result": ...}]: the error is returned as
    data, but the payload of the agent's stream is not. *)
Theorem handle_ipc_returns_the_await_error fuel h self agent_type task agent e w :
  _get_agent h self agent_type = Some agent ->
  await_run C (cls agent) = Throws e ->
  handle_ipc C fuel h self agent_type task w = ([], Ok (ipc_error agent e), w)
  /\ ipc_handler C fuel h (Some self) (Value (step_of agent_type task)) w
     = ([], Ok (IpcResult (ipc_error agent e)), w)
  /\ is_payload (ipc_error agent e) = true
  /\ (forall fuel' h' orchestrator data w' e',
        result (ipc_handler C fuel' h' orchestrator data w') <> Exc e').
Proof.
  intros Hag Haw.
  pose proof (handle_ipc_Throws fuel h self agent_type task agent e w Hag Haw) as Hh.
  split; [exact Hh|]. split; [|split].
  - unfold ipc_handler, try_except, bind, call. simpl.
    replace (default "codegen" (step_of agent_type task !! "agent")) with agent_type
      by (unfold step_of; by simplify_map_eq).
    replace (default "" (step_of agent_type task !! "task")) with task
      by (unfold step_of; by simplify_map_eq).
    by rewrite Hh.
  - reflexivity.
  - intros. apply ipc_handler_no_exc.
Qed.
End IpcPayload.

Lemma handle_ipc_returns_the_await_error_witness :
  handle_ipc echo_world 3 heap0 orch0 "codegen" "print(1)" tt
    = ([], Ok "[ERROR] Unhandled exception in IPC for agent 'codegen': object async_generator can't be used in 'await' expression", tt)
  /\ payload_chunks
       (chunks_of (events (agent_run echo_world 3 (agent_of CodeGenAgent "codegen")
                             "print(1)" (context orch0) tt)))
     = ["print(1)"].
Proof.
  split; [|by vm_compute].
  apply (handle_ipc_returns_the_await_error echo_world 3 heap0 orch0 "codegen" "print(1)"
           (agent_of CodeGenAgent "codegen") not_awaitable tt); reflexivity.
Defined.

(** ** Self-correction re-enters itself *)

Section Recursion.
Context {W : Type} (C : collaborators W).

(** Constructing an agent never fails. *)
Hypothesis init_ok : forall k nm cfg w, (agent_init C k nm cfg w).1 = Value tt.

Variable ctx : pydict.
Hypothesis no_operation_type : ctx !! "operation_type" = None.
Hypothesis no_gdrive_file_id : ctx !! "gdrive_file_id" = None.

Lemma new_agent_ok k nm cfg ws w :
  new_agent C k nm cfg ws w = ([], Ok (Agent k nm cfg ws), (agent_init C k nm cfg w).2).
Proof.
  unfold new_agent, bind, call, ret.
  pose proof (init_ok k nm cfg w) as H.
  destruct (agent_init C k nm cfg w) as [o w1]. simpl in H. by subst o.
Qed.

(** Under the default operation type, a context without a source file
    identifier stops the Fix lifecycle before the LLM is called. *)
Lemma FixAgent_body_missing_id self task w :
  FixAgent_body C self task ctx w
    = ([EYield (stream_chunk self ("[" +:+ name self
          +:+ "] Preparing data for operation: fix_and_create..."))],
       Exc (Exn ValueError missing_id), w).
Proof.
  unfold FixAgent_body, FixAgent_prepare_and_construct_prompt, dict_get_or, dict_get.
  rewrite no_operation_type, no_gdrive_file_id. reflexivity.
Qed.

Lemma FixAgent_run_missing_id (sc : self_correct W) self task w :
  FixAgent_run C sc self task ctx w
    = (EYield (stream_chunk self ("[" +:+ name self +:+ "] Starting code fixing task: "
                                  +:+ task))
       :: EYield (stream_chunk self ("[" +:+ name self
                    +:+ "] Preparing data for operation: fix_and_create..."))
       :: EYield (stream_chunk self ("[" +:+ name self
                    +:+ "] Self-correction triggered due to error: " +:+ missing_id))
       :: events (sc self task ctx missing_id "agent_execution_error" fix_guidance w),
       result (sc self task ctx missing_id "agent_execution_error" fix_guidance w),
       world (sc self task ctx missing_id "agent_execution_error" fix_guidance w)).
Proof.
  unfold FixAgent_run, bind, yield, emit, try_except.
  rewrite FixAgent_body_missing_id. cbn [exn_msg]. unfold fix_guidance.
  by destruct (sc _ _ _ _ _ _ _) as [[??]?].
Qed.

(** The first chunk of the coordinator, then the Fix agent it constructs. *)
Lemma agent_self_correct_S fuel agent task d t g w :
  let w1 := (agent_init C FixAgent (name agent) (config agent) w).2 in
  let fix_agent := Agent FixAgent (name agent) (config agent) (websocket_manager agent) in
  let fix_task := fix_task_of C agent task ctx d t g in
  let inner :=
    agent_self_correct C fuel fix_agent fix_task ctx missing_id "agent_execution_error"
      fix_guidance w1 in
  result inner = Div ->
  agent_self_correct C (S fuel) agent task ctx d t g w
    = (EYield (stream_chunk agent ("[INFO] Initiating self-correction for " +:+ name agent
                 +:+ " due to " +:+ t +:+ ". Error: " +:+ d))
       :: EYield (stream_chunk fix_agent ("[" +:+ name agent
                    +:+ "] Starting code fixing task: " +:+ fix_task))
       :: EYield (stream_chunk fix_agent ("[" +:+ name agent
                    +:+ "] Preparing data for operation: fix_and_create..."))
       :: EYield (stream_chunk fix_agent ("[" +:+ name agent
                    +:+ "] Self-correction triggered due to error: " +:+ missing_id))
       :: events inner, Div, world inner).
Proof.
  intros w1 fix_agent fix_task inner Hdiv.
  cbn [agent_self_correct]. unfold try_except.
  rewrite yield_bind.
  rewrite (bind_Ok _ _ _ _ _ _ (new_agent_ok _ _ _ _ w)).
  fold w1 fix_agent fix_task.
  rewrite (bind_Div _ _ _ _ _
             (eq_trans (FixAgent_run_missing_id _ fix_agent fix_task w1)
                       (f_equal (fun r => (_, r, _)) Hdiv))).
  reflexivity.
Qed.

Lemma agent_self_correct_O agent task d t g w :
  agent_self_correct C 0 agent task ctx d t g w
    = ([EYield (stream_chunk agent ("[INFO] Initiating self-correction for " +:+ name agent
                  +:+ " due to " +:+ t +:+ ". Error: " +:+ d))],
       Div, (agent_init C FixAgent (name agent) (config agent) w).2).
Proof.
  cbn [agent_self_correct]. unfold try_except.
  rewrite yield_bind.
  rewrite (bind_Ok _ _ _ _ _ _ (new_agent_ok _ _ _ _ w)).
  reflexivity.
Qed.

Lemma agent_self_correct_Div fuel : forall agent task d t g w,
  result (agent_self_correct C fuel agent task ctx d t g w) = Div.
Proof.
  induction fuel as [|fuel IH]; intros.
  - by rewrite agent_self_correct_O.
  - rewrite agent_self_correct_S; [done|apply IH].
Qed.

Lemma agent_self_correct_length fuel : forall agent task d t g w,
  length (chunks_of (events (agent_self_correct C fuel agent task ctx d t g w)))
    = 1 + 4 * fuel.
Proof.
  induction fuel as [|fuel IH]; intros.
  - by rewrite agent_self_correct_O.
  - rewrite agent_self_correct_S by apply agent_self_correct_Div.
    unfold events at 1. cbn [fst snd chunks_of omap list_omap length].
    change (omap _ ?l) with (chunks_of l). rewrite IH. lia.
Qed.

(** C7. When the Fix agent's own lifecycle fails (here: the default
    operation on a context without a source file identifier),
    [agent_self_correct] runs [FixAgent.run], whose handler calls
    [agent_self_correct] again with the corrective task as the new task; the
    chain has no end: however far the recursion is unfolded, the correction
    has not returned and its stream has grown by four more chunks. *)
Theorem self_correction_has_no_depth_bound fuel agent task d t g w :
  let w1 := (agent_init C FixAgent (name agent) (config agent) w).2 in
  let fix_agent := Agent FixAgent (name agent) (config agent) (websocket_manager agent) in
  let fix_task := fix_task_of C agent task ctx d t g in
  let inner :=
    agent_self_correct C fuel fix_agent fix_task ctx missing_id "agent_execution_error"
      fix_guidance w1 in
  agent_self_correct C (S fuel) agent task ctx d t g w
    = (EYield (stream_chunk agent ("[INFO] Initiating self-correction for " +:+ name agent
                 +:+ " due to " +:+ t +:+ ". Error: " +:+ d))
       :: EYield (stream_chunk fix_agent ("[" +:+ name agent
                    +:+ "] Starting code fixing task: " +:+ fix_task))
       :: EYield (stream_chunk fix_agent ("[" +:+ name agent
                    +:+ "] Preparing data for operation: fix_and_create..."))
       :: EYield (stream_chunk fix_agent ("[" +:+ name agent
                    +:+ "] Self-correction triggered due to error: " +:+ missing_id))
       :: events inner, Div, world inner)
  /\ result (agent_self_correct C fuel agent task ctx d t g w) = Div
  /\ length (chunks_of (events (agent_self_correct C fuel agent task ctx d t g w)))
     = 1 + 4 * fuel.
Proof.
  intros. split; [|split].
  - apply agent_self_correct_S, agent_self_correct_Div.
  - apply agent_self_correct_Div.
  - apply agent_self_correct_length.
Qed.
End Recursion.

Lemma self_correction_has_no_depth_bound_witness :
  result (agent_self_correct silent_world 7 (agent_of CodeGenAgent "codegen") "write a parser"
            ∅ "LLM response was empty or contained an error." "agent_execution_error" "" tt)
    = Div
  /\ length (chunks_of (events
       (agent_self_correct silent_world 7 (agent_of CodeGenAgent "codegen") "write a parser"
          ∅ "LLM response was empty or contained an error." "agent_execution_error" "" tt)))
     = 29.
Proof.
  refine (proj2 (self_correction_has_no_depth_bound silent_world _ ∅ _ _ 7
                   (agent_of CodeGenAgent "codegen") "write a parser"
                   "LLM response was empty or contained an error." "agent_execution_error"
                   "" tt)); intros; reflexivity.
Defined.

(** ** Termination, chunks and unfolding depth *)

Section Combinators.
Context {W : Type} (C : collaborators W).

Lemma chunks_of_app evs1 evs2 : chunks_of (evs1 ++ evs2) = chunks_of evs1 ++ chunks_of evs2.
Proof. apply omap_app. Qed.

Lemma no_div_ret {A} (a : A) : no_div (@ret W A a).
Proof. by intros w. Qed.

Lemma no_div_emit ev : no_div (@emit W ev).
Proof. by intros w. Qed.

Lemma no_div_yield c : no_div (@yield W c).
Proof. by intros w. Qed.

Lemma no_div_raise {A} e : no_div (@raise W A e).
Proof. by intros w. Qed.

Lemma no_div_call {A} (o : W -> outcome A * W) : no_div (call o).
Proof. intros w. unfold call. by destruct (o w) as [[?|?] ?]. Qed.

Lemma no_div_subscript d k : no_div (@subscript W d k).
Proof. unfold subscript. destruct (d !! k); [apply no_div_ret|apply no_div_raise]. Qed.

Lemma no_div_buffer self prompt task ctx : no_div (buffer_llm_response C self prompt task ctx).
Proof.
  intros w. unfold buffer_llm_response.
  by destruct (execute_llm C self prompt task ctx w) as [[? [?|]] ?].
Qed.

Lemma no_div_bind {A B} (m : gen W A) (k : A -> gen W B) :
  no_div m -> (forall a, no_div (k a)) -> no_div (bind m k).
Proof.
  intros Hm Hk w. unfold bind.
  destruct (m w) as [[evs r] w1] eqn:E.
  destruct r as [a|e'|].
  - specialize (Hk a w1). destruct (k a w1) as [[??]?]. exact Hk.
  - done.
  - specialize (Hm w). rewrite E in Hm. by destruct Hm.
Qed.

Lemma yor_raise {A} e : yields_or_raises (@raise W A e).
Proof. intros w. right. by exists e. Qed.

Lemma yor_yield c : yields_or_raises (@yield W c).
Proof. intros w. by left. Qed.

Lemma yor_yield_bind {B} c (k : unit -> gen W B) : yields_or_raises (bind (yield c) k).
Proof. intros w. left. by rewrite yield_bind. Qed.

Lemma yor_bind {A B} (m : gen W A) (k : A -> gen W B) :
  no_div m -> (forall a, yields_or_raises (k a)) -> yields_or_raises (bind m k).
Proof.
  intros Hm Hk w. unfold bind.
  destruct (m w) as [[evs r] w1] eqn:E.
  destruct r as [a|e'|].
  - specialize (Hk a w1). destruct (k a w1) as [[evs2 r2] w2].
    unfold events, result in *. simpl in *.
    destruct Hk as [Hk|Hk]; [left|by right].
    rewrite chunks_of_app. intros Hnil. apply app_eq_nil in Hnil. by destruct Hnil.
  - right. by exists e'.
  - specialize (Hm w). rewrite E in Hm. by destruct Hm.
Qed.

Lemma extends_refl {A} (m : gen W A) : extends m m.
Proof. by intros w _. Qed.

Lemma extends_diverge {A} (m : gen W A) : extends diverge m.
Proof. by intros w H. Qed.

Lemma extends_bind {A B} (m : gen W A) (k1 k2 : A -> gen W B) :
  (forall a, extends (k1 a) (k2 a)) -> extends (bind m k1) (bind m k2).
Proof.
  intros Hk w. unfold bind.
  destruct (m w) as [[evs r] w1].
  destruct r as [a|e|]; try done.
  specialize (Hk a w1). destruct (k1 a w1) as [[evs1 r1] w1'].
  unfold result in *. simpl in *. intros Hr. by rewrite (Hk Hr).
Qed.

Lemma extends_bind_l {A B} (m1 m2 : gen W A) (k : A -> gen W B) :
  extends m1 m2 -> extends (bind m1 k) (bind m2 k).
Proof.
  intros Hm w. unfold bind. specialize (Hm w).
  destruct (m1 w) as [[evs r] w1].
  unfold result in *. simpl in *.
  destruct r as [a|e|].
  - intros _. by rewrite Hm.
  - intros _. by rewrite Hm.
  - done.
Qed.

Lemma extends_try {A} (m1 m2 : gen W A) (h1 h2 : exn -> gen W A) :
  extends m1 m2 -> (forall e, extends (h1 e) (h2 e)) ->
  extends (try_except m1 h1) (try_except m2 h2).
Proof.
  intros Hm Hh w. unfold try_except. specialize (Hm w).
  destruct (m1 w) as [[evs r] w1].
  unfold result in *. simpl in *.
  destruct r as [a|e|].
  - intros _. by rewrite Hm.
  - rewrite Hm by done. specialize (Hh e w1).
    destruct (h1 e w1) as [[evs1 r1] w1']. simpl in *.
    intros Hr. by rewrite (Hh Hr).
  - done.
Qed.
End Combinators.

Ltac solve_no_div :=
  repeat first
    [ apply no_div_ret | apply no_div_emit | apply no_div_yield | apply no_div_raise
    | apply no_div_call | apply no_div_subscript | apply no_div_buffer
    | apply no_div_bind; [|intros]
    | match goal with
      | |- no_div (match ?x with _ => _ end) => destruct x
      end ].

Ltac solve_extends :=
  repeat first
    [ match goal with |- extends ?a ?b => constr_eq a b; apply extends_refl end
    | apply extends_bind; intros
    | apply extends_try; [|intros]
    | match goal with
      | H : forall a t c d y g, extends _ _ |- extends _ _ => apply H
      | |- extends (match ?x with _ => _ end) _ => destruct x
      end ].

Section LifecycleNeverThrows.
Context {W : Type} (C : collaborators W).

Lemma TestAgent_prepare_no_div self task ctx :
  no_div (TestAgent_prepare_and_construct_prompt C self task ctx).
Proof.
  unfold TestAgent_prepare_and_construct_prompt, _read_gdrive_file, _construct_prompt.
  solve_no_div.
Qed.

Lemma write_gdrive_no_div self f c p : no_div (_write_gdrive_file C self f c p).
Proof. unfold _write_gdrive_file. solve_no_div. Qed.

Lemma TestAgent_body_yields sc self task ctx op :
  yields_or_raises (TestAgent_body C sc self task ctx op).
Proof.
  unfold TestAgent_body.
  destruct (str_eq op "generate_tests").
  - apply yor_bind; [apply TestAgent_prepare_no_div|]. intros [prompt details].
    apply yor_bind; [apply no_div_buffer|]. intros full.
    destruct (invalid_response full); [apply yor_yield_bind|].
    apply yor_bind; [unfold _enforce_agent_rules; apply no_div_call|]. intros vs.
    destruct (negb (is_nil vs)); [apply yor_yield_bind|].
    apply yor_bind; [apply no_div_subscript|]. intros f.
    apply yor_bind; [apply no_div_subscript|]. intros p.
    apply yor_bind; [apply write_gdrive_no_div|]. intros fid.
    apply yor_yield_bind.
  - destruct (str_eq op "write_test_results"); [|apply yor_raise].
    destruct (negb _); [apply yor_raise|].
    apply yor_bind; [apply write_gdrive_no_div|]. intros fid.
    destruct (truthy fid); apply yor_yield.
Qed.

(** Every agent stream has a first chunk. *)
Lemma agent_run_yields fuel agent task ctx w :
  chunks_of (events (agent_run C fuel agent task ctx w)) <> [].
Proof.
  unfold agent_run.
  destruct (cls agent);
    unfold CodeGenAgent_run, DocAgent_run, FixAgent_run, PlannerAgent_run,
      QaAgent_run, TestAgent_run; try (by rewrite yield_bind).
  set (op := dict_get_or ctx "operation_type" (VStr "generate_tests")).
  set (pre := if websocket_manager agent then _ else _).
  assert (Hpre : exists evs, chunks_of evs = [] /\ forall B (k : unit -> gen W B) w',
             bind pre k w' = (evs ++ events (k tt w'), result (k tt w'), world (k tt w'))).
  { subst pre. destruct (websocket_manager agent).
    - exists [ESend (stream_chunk agent ("[" +:+ name agent +:+ "] Starting operation: "
                                         +:+ py_str op +:+ "..."))].
      split; [done|]. intros. by rewrite emit_bind.
    - exists []. split; [done|]. intros. unfold bind, ret.
      by destruct (k tt w') as [[??]?]. }
  destruct Hpre as (evs0 & Hevs0 & Hbind). rewrite Hbind.
  unfold events at 1. simpl. rewrite chunks_of_app, Hevs0. simpl.
  pose proof (TestAgent_body_yields (agent_self_correct C fuel) agent task ctx op w) as Hb.
  unfold try_except.
  destruct (TestAgent_body C _ agent task ctx op w) as [[evs r] w1].
  unfold events, result in Hb. simpl in Hb.
  destruct r as [a|e|].
  - destruct Hb as [Hb|[e He]]; [exact Hb|done].
  - destruct (exn_cls e); rewrite yield_bind; unfold events; simpl;
      rewrite chunks_of_app; intros Hnil; apply app_eq_nil in Hnil;
      by destruct Hnil.
  - destruct Hb as [Hb|[e He]]; [exact Hb|done].
Qed.

(** Unfolding the recursion further changes nothing once the correction
    has ended. *)
Lemma agent_self_correct_extends fuel : forall fuel' agent task ctx d t g,
  fuel <= fuel' ->
  extends (agent_self_correct C fuel agent task ctx d t g)
          (agent_self_correct C fuel' agent task ctx d t g).
Proof.
  induction fuel as [|fuel IH]; intros fuel' agent task ctx d t g Hle.
  - destruct fuel' as [|fuel']; [apply extends_refl|].
    cbn [agent_self_correct].
    apply extends_try; [|intros; apply extends_refl].
    apply extends_bind; intros _. apply extends_bind; intros fa.
    apply extends_bind_l, extends_diverge.
  - destruct fuel' as [|fuel']; [lia|].
    cbn [agent_self_correct].
    apply extends_try; [|intros; apply extends_refl].
    apply extends_bind; intros _. apply extends_bind; intros fa.
    apply extends_bind_l. unfold FixAgent_run.
    apply extends_bind; intros _.
    apply extends_try; [apply extends_refl|]. intros e.
    apply extends_bind; intros _. apply IH. lia.
Qed.

Lemma agent_run_extends fuel fuel' agent task ctx :
  fuel <= fuel' ->
  extends (agent_run C fuel agent task ctx) (agent_run C fuel' agent task ctx).
Proof.
  intros Hle.
  pose proof (fun a t c d y g => agent_self_correct_extends fuel fuel' a t c d y g Hle)
    as Hsc.
  unfold agent_run.
  destruct (cls agent);
    unfold CodeGenAgent_run, DocAgent_run, FixAgent_run, PlannerAgent_run,
      QaAgent_run, TestAgent_run, TestAgent_body;
    solve_extends.
Qed.

End LifecycleNeverThrows.

(** ** The workflow loop *)

Section Workflow.
Context {W : Type} (C : collaborators W).

Lemma send_bind {B} msg (k : unit -> gen W B) w :
  bind (send_message_to_client msg) k w = prepend (ESend msg) (k tt w).
Proof. unfold send_message_to_client. by rewrite emit_bind. Qed.

Lemma bind_ret_r {A} (m : gen W A) w : bind m ret w = m w.
Proof.
  unfold bind, ret. destruct (m w) as [[evs r] w1].
  destruct r; by rewrite ?app_nil_r.
Qed.

Lemma bind_assoc {A B D} (m : gen W A) (k1 : A -> gen W B) (k2 : B -> gen W D) w :
  bind (bind m k1) k2 w = bind m (fun a => bind (k1 a) k2) w.
Proof.
  unfold bind. destruct (m w) as [[evs r] w1].
  destruct r as [a|e|]; try done.
  destruct (k1 a w1) as [[evs1 r1] w2].
  destruct r1 as [b|e|]; try done.
  destruct (k2 b w2) as [[evs2 r2] w3]. by rewrite app_assoc.
Qed.

Lemma bind_ext {A B} (m : gen W A) (k1 k2 : A -> gen W B) w :
  (forall a w1, k1 a w1 = k2 a w1) -> bind m k1 w = bind m k2 w.
Proof.
  intros Hk. unfold bind. destruct (m w) as [[evs r] w1].
  destruct r as [a|e|]; try done. by rewrite Hk.
Qed.

Lemma bind_prepend {A B} ev (x : list event * res A * W) (k : A -> gen W B) w m :
  m w = prepend ev x ->
  bind m k w = prepend ev (bind (fun _ => x) k w).
Proof.
  unfold bind, prepend. intros ->. destruct x as [[evs r] w1].
  unfold events, result, world. simpl.
  destruct r as [a|e|]; try done. by destruct (k a w1) as [[??]?].
Qed.

Lemma workflow_loop_cons fuel h self i td rest w ev :
  workflow_step C fuel h self i td w = ([ev], Ok self, w) ->
  workflow_loop C fuel h self i (td :: rest) w
    = prepend ev (workflow_loop C fuel h self (S i) rest w).
Proof.
  intros Hstep. cbn [workflow_loop].
  rewrite (bind_Ok _ _ _ _ _ _ Hstep). reflexivity.
Qed.

Lemma workflow_step_missing_agent fuel h self i td w :
  opt_truthy (td !! "agent") = false ->
  workflow_step C fuel h self i td w
    = ([ESend ("[ERROR] Skipping invalid task '"
               +:+ default ("Task " +:+ pretty (i + 1)) (td !! "name")
               +:+ "': missing agent type.")], Ok self, w).
Proof. intros H. unfold workflow_step. by rewrite H. Qed.

Lemma workflow_step_missing_task fuel h self i td w :
  opt_truthy (td !! "agent") = true ->
  opt_truthy (td !! "task") = false ->
  workflow_step C fuel h self i td w
    = ([ESend ("[ERROR] Skipping invalid task '"
               +:+ default ("Task " +:+ pretty (i + 1)) (td !! "name")
               +:+ "': missing task description.")], Ok self, w).
Proof. intros H1 H2. unfold workflow_step. by rewrite H1, H2. Qed.

Lemma workflow_step_unknown_agent fuel h self i td w :
  opt_truthy (td !! "agent") = true ->
  opt_truthy (td !! "task") = true ->
  _get_agent h self (default "" (td !! "agent")) = None ->
  workflow_step C fuel h self i td w
    = ([ESend ("[ERROR] Agent '" +:+ default "" (td !! "agent")
               +:+ "' not found for task '"
               +:+ default ("Task " +:+ pretty (i + 1)) (td !! "name") +:+ "'.")],
       Ok self, w).
Proof. intros H1 H2 H3. unfold workflow_step. by rewrite H1, H2, H3. Qed.

Lemma bad_step_skipped fuel h self i td w :
  bad_step h self td = true ->
  exists msg, workflow_step C fuel h self i td w = ([ESend msg], Ok self, w).
Proof.
  unfold bad_step. intros Hbad.
  destruct (opt_truthy (td !! "agent")) eqn:Ha.
  - destruct (opt_truthy (td !! "task")) eqn:Ht.
    + simpl in Hbad. apply negb_true_iff, bool_decide_eq_false in Hbad.
      eexists. apply workflow_step_unknown_agent; [done..|].
      unfold _get_agent. by apply eq_None_not_Some.
    + eexists. by apply workflow_step_missing_task.
  - eexists. by apply workflow_step_missing_agent.
Qed.

(** The steps are run in order: a workflow is its first steps followed, in
    the state they leave, by the others. *)
Lemma workflow_loop_app fuel h pre : forall self i post w,
  workflow_loop C fuel h self i (pre ++ post) w
    = bind (workflow_loop C fuel h self i pre)
           (fun self1 => workflow_loop C fuel h self1 (i + length pre) post) w.
Proof.
  induction pre as [|td pre IH]; intros self i post w.
  - simpl. unfold bind, ret. rewrite Nat.add_0_r.
    by destruct (workflow_loop C fuel h self i post w) as [[??]?].
  - cbn [app workflow_loop length]. rewrite bind_assoc.
    apply bind_ext. intros self1 w1. rewrite IH.
    by replace (i + S (length pre)) with (S i + length pre) by lia.
Qed.

Lemma forward_and_collect_no_exc (stream : gen W unit) :
  no_exc stream -> no_exc (forward_and_collect stream).
Proof.
  intros Hs w e. specialize (Hs w). unfold forward_and_collect.
  destruct (stream w) as [[evs r] w1]. unfold result in *. simpl in *.
  destruct r as [a|e'|]; try done. by destruct (Hs e').
Qed.

Lemma workflow_step_no_exc fuel h self i td : no_exc (workflow_step C fuel h self i td).
Proof.
  unfold workflow_step.
  repeat match goal with
         | |- no_exc (if ?b then _ else _) => destruct b
         | |- no_exc (match ?x with _ => _ end) => destruct x
         | |- no_exc (bind _ _) => apply no_exc_bind; [|intros]
         | |- no_exc (send_message_to_client _) => apply no_exc_emit
         | |- no_exc (ret _) => apply no_exc_ret
         end.
  apply forward_and_collect_no_exc. unfold _execute_task.
  apply no_exc_try. intros e. apply no_exc_yield.
Qed.

Lemma workflow_loop_no_exc fuel h wf : forall self i,
  no_exc (workflow_loop C fuel h self i wf).
Proof.
  induction wf as [|td wf IH]; intros self i; cbn [workflow_loop].
  - apply no_exc_ret.
  - apply no_exc_bind; [apply workflow_step_no_exc|]. intros self1. apply IH.
Qed.

Lemma run_workflow_no_exc fuel h self wf : no_exc (run_workflow C fuel h self wf).
Proof.
  unfold run_workflow.
  apply no_exc_bind; [apply no_exc_emit|intros _].
  apply no_exc_bind; [apply workflow_loop_no_exc|intros self1].
  apply no_exc_bind; [apply no_exc_emit|intros _]. apply no_exc_ret.
Qed.

Lemma run_workflow_unfold fuel h self wf w :
  let self0 := {| context := initial_context C wf; agents := agents self |} in
  run_workflow C fuel h self wf w
    = match workflow_loop C fuel h self0 0 wf w with
      | (evs, Ok self1, w1) =>
          (ESend "[INFO] Starting workflow execution..." :: evs ++ [ESend workflow_complete],
           Ok self1, w1)
      | (evs, Exc e, w1) => (ESend "[INFO] Starting workflow execution..." :: evs, Exc e, w1)
      | (evs, Div, w1) => (ESend "[INFO] Starting workflow execution..." :: evs, Div, w1)
      end.
Proof.
  intros self0. unfold run_workflow. rewrite send_bind. fold self0.
  unfold prepend, bind, events, result, world.
  destruct (workflow_loop C fuel h self0 0 wf w) as [[evs r] w1].
  by destruct r.
Qed.

Lemma all_bad_loop_ends fuel h wf : forall self i w,
  Forall (fun td => bad_step h self td = true) wf ->
  result (workflow_loop C fuel h self i wf w) = Ok self.
Proof.
  induction wf as [|td wf IH]; intros self i w Hall; [done|].
  apply Forall_cons in Hall as [Hbad Hall].
  destruct (bad_step_skipped fuel h self i td w Hbad) as [msg Hstep].
  rewrite (workflow_loop_cons _ _ _ _ _ _ _ _ Hstep).
  unfold prepend, result at 1. simpl. by apply IH.
Qed.

End Workflow.

(** ** Every run ends *)

Section LifecycleEnds.
Context {W : Type} (C : collaborators W).

Lemma no_div_try {A} (m : gen W A) h :
  no_div m -> (forall e, no_div (h e)) -> no_div (try_except m h).
Proof.
  intros Hm Hh w. unfold try_except. specialize (Hm w).
  destruct (m w) as [[evs r] w1].
  destruct r as [a|e|]; try done.
  specialize (Hh e w1). by destruct (h e w1) as [[??]?].
Qed.

Lemma update_gdrive_no_div self f c d : no_div (_update_gdrive_file C self f c d).
Proof. unfold _update_gdrive_file. solve_no_div. Qed.

Lemma CodeGenAgent_body_no_div self task ctx : no_div (CodeGenAgent_body C self task ctx).
Proof.
  unfold CodeGenAgent_body, _construct_prompt, _enforce_agent_rules. solve_no_div.
Qed.

Lemma FixAgent_body_no_div self task ctx : no_div (FixAgent_body C self task ctx).
Proof.
  unfold FixAgent_body, FixAgent_prepare_and_construct_prompt, _construct_prompt,
    _enforce_agent_rules, _read_gdrive_file.
  solve_no_div; try apply write_gdrive_no_div; try apply update_gdrive_no_div.
Qed.

Lemma DocAgent_body_no_div self task ctx : no_div (DocAgent_body C self task ctx).
Proof.
  unfold DocAgent_body, DocAgent_prepare_and_construct_prompt, _construct_prompt,
    _enforce_agent_rules, _read_gdrive_file.
  solve_no_div; try apply write_gdrive_no_div; try apply update_gdrive_no_div.
Qed.

Lemma PlannerAgent_body_no_div self task ctx : no_div (PlannerAgent_body C self task ctx).
Proof.
  unfold PlannerAgent_body, _construct_prompt, _enforce_agent_rules.
  solve_no_div; try apply write_gdrive_no_div.
Qed.

Lemma QaAgent_body_no_div self task ctx : no_div (QaAgent_body C self task ctx).
Proof.
  unfold QaAgent_body, QaAgent_prepare_and_construct_prompt, _construct_prompt,
    _enforce_agent_rules, _read_gdrive_file.
  solve_no_div; try apply write_gdrive_no_div.
Qed.

Lemma TestAgent_body_no_div sc self task ctx op :
  (forall a t c d y g, no_div (sc a t c d y g)) ->
  no_div (TestAgent_body C sc self task ctx op).
Proof.
  intros Hsc.
  unfold TestAgent_body, TestAgent_prepare_and_construct_prompt, _construct_prompt,
    _enforce_agent_rules, _read_gdrive_file.
  solve_no_div; try apply Hsc.
Qed.

(** Under a recursion limit the coordinator always returns, and its stream
    starts with the chunk that announces the correction. *)
Lemma agent_self_correct_within_returns at_limit :
  no_div at_limit ->
  forall depth agent task ctx d t g w,
    exists sub w1,
      agent_self_correct_within C at_limit depth agent task ctx d t g w
      = (EYield (stream_chunk agent
                   ("[INFO] " +:+ "Initiating self-correction for " +:+ name agent
                    +:+ " due to " +:+ t +:+ ". Error: " +:+ d)) :: sub,
         Ok tt, w1).
Proof.
  intros Hlim.
  assert (Hnd : forall depth agent task ctx d t g,
             no_div (agent_self_correct_within C at_limit depth agent task ctx d t g)).
  { induction depth as [|depth IH]; intros; cbn [agent_self_correct_within];
      apply no_div_try; try (intros; apply no_div_yield);
      (apply no_div_bind; [apply no_div_yield|intros _]);
      (apply no_div_bind; [unfold new_agent; solve_no_div|intros fa]);
      (apply no_div_bind; [|intros; apply no_div_yield]).
    - exact Hlim.
    - unfold FixAgent_run. apply no_div_bind; [apply no_div_yield|intros _].
      apply no_div_try; [apply FixAgent_body_no_div|]. intros e.
      apply no_div_bind; [apply no_div_yield|intros _]. apply IH. }
  intros depth agent task ctx d t g w.
  pose proof (Hnd depth agent task ctx d t g w) as Hd.
  assert (Hne : forall e, result (agent_self_correct_within C at_limit depth agent task ctx
                                    d t g w) <> Exc e).
  { intros e. destruct depth; cbn [agent_self_correct_within];
      apply no_exc_try; intros e'; apply no_exc_yield. }
  assert (Hev : exists sub,
             events (agent_self_correct_within C at_limit depth agent task ctx d t g w)
             = EYield (stream_chunk agent
                         ("[INFO] " +:+ "Initiating self-correction for " +:+ name agent
                          +:+ " due to " +:+ t +:+ ". Error: " +:+ d)) :: sub).
  { destruct depth; cbn [agent_self_correct_within]; unfold try_except;
      rewrite yield_bind; cbn [events result world fst snd].
    all: set (rest := bind _ _ w); destruct rest as [[evs r] w1]; cbn [events result world fst snd];
      destruct r as [a|e|]; [by eexists| |by eexists];
      unfold yield, emit; cbn; by eexists. }
  destruct Hev as [sub Hev].
  destruct (agent_self_correct_within C at_limit depth agent task ctx d t g w)
    as [[evs r] w1].
  unfold events, result in *. cbn [fst snd] in *. subst evs.
  destruct r as [[]|e|]; [by exists sub, w1|by destruct (Hne e)|done].
Qed.

Lemma try_block_no_div sc agent task ctx :
  (forall a t c d y g, no_div (sc a t c d y g)) ->
  no_div (try_block C sc agent task ctx).
Proof.
  intros Hsc. unfold try_block. destruct (cls agent).
  - apply CodeGenAgent_body_no_div.
  - apply DocAgent_body_no_div.
  - apply FixAgent_body_no_div.
  - apply PlannerAgent_body_no_div.
  - apply QaAgent_body_no_div.
  - by apply TestAgent_body_no_div.
Qed.

(** A [run] of the common shape: the opening, the [try] block and, when it
    raised, the chunk of the handler followed by the coordinator. *)
Lemma guarded_run_shape (opening : gen W unit) (body : gen W unit)
    (handler : exn -> string * string * string) (sc : self_correct W)
    agent task ctx pre w :
  (forall w', opening w' = (pre, Ok tt, w')) ->
  no_div body ->
  (forall a t c d y g w', exists sub w1,
      sc a t c d y g w' = (sub, Ok tt, w1) /\ chunks_of sub <> []) ->
  exists evs w1,
    (opening >>
     try_except body
       (fun e => yield (handler e).1.1 >>
                 sc agent task ctx (exn_msg e) (handler e).1.2 (handler e).2)) w
    = (evs, Ok tt, w1)
    /\ match body w with
       | (bevs, Ok _, wb) => evs = pre ++ bevs /\ w1 = wb
       | (bevs, Exc e, wb) =>
           exists trigger ty g sub,
             sc agent task ctx (exn_msg e) ty g wb = (sub, Ok tt, w1)
             /\ chunks_of sub <> []
             /\ evs = pre ++ bevs ++ EYield trigger :: sub
       | (_, Div, _) => False
       end.
Proof.
  intros Hop Hbody Hsc.
  rewrite (bind_Ok _ _ _ _ _ _ (Hop w)).
  specialize (Hbody w).
  destruct (body w) as [[bevs r] wb] eqn:Eb. unfold result in Hbody. cbn [fst snd] in Hbody.
  destruct r as [[]|e|]; [| |done].
  - rewrite (try_Ok _ _ _ _ _ _ Eb). cbn [events result world fst snd].
    by exists (pre ++ bevs), wb.
  - rewrite (try_Exc _ _ _ _ _ _ Eb), yield_bind. cbn [events result world fst snd].
    destruct (Hsc agent task ctx (exn_msg e) (handler e).1.2 (handler e).2 wb)
      as (sub & w1 & Esc & Hsub).
    rewrite Esc. cbn [events result world fst snd].
    exists (pre ++ bevs ++ EYield (handler e).1.1 :: sub), w1. split; [done|].
    by exists (handler e).1.1, (handler e).1.2, (handler e).2, sub.
Qed.

Lemma try_ext {A} (m : gen W A) (h1 h2 : exn -> gen W A) w :
  (forall e w1, h1 e w1 = h2 e w1) -> try_except m h1 w = try_except m h2 w.
Proof.
  intros Hh. unfold try_except. destruct (m w) as [[evs r] w1].
  destruct r as [a|e|]; try done. by rewrite Hh.
Qed.

(** C2. Whatever fails inside the [try] block of [run] (prompt construction,
    the LLM call, validation, rule enforcement, persistence), and for every
    agent class, [run] returns normally and its stream is not empty: it is
    the opening, the events of the [try] block and, when that block raised,
    the chunk that announces the error followed by the whole stream of the
    coordinator, which has itself returned.  The recursion of the coordinator
    is cut by the interpreter: this holds for every depth at which it refuses
    a call and for whatever happens in place of that call, as long as that
    ends (CPython raises RecursionError there). *)
Theorem run_never_raises (at_limit : gen W unit) depth agent task ctx w :
  no_div at_limit ->
  let sc := agent_self_correct_within C at_limit depth in
  exists evs w1,
    agent_run_within C at_limit depth agent task ctx w = (evs, Ok tt, w1)
    /\ chunks_of evs <> []
    /\ exists opening,
         length opening <= 1
         /\ match try_block C sc agent task ctx w with
            | (body, Ok _, wb) => evs = opening ++ body /\ w1 = wb
            | (body, Exc e, wb) =>
                exists trigger ty g sub,
                  sc agent task ctx (exn_msg e) ty g wb = (sub, Ok tt, w1)
                  /\ chunks_of sub <> []
                  /\ evs = opening ++ body ++ EYield trigger :: sub
            | (_, Div, _) => False
            end.
Proof.
  intros Hlim sc.
  assert (Hsc : forall a t c d y g w', exists sub w1,
             sc a t c d y g w' = (sub, Ok tt, w1) /\ chunks_of sub <> []).
  { intros. destruct (agent_self_correct_within_returns at_limit Hlim depth a t c d y g w')
      as (sub & w1 & E).
    eexists _, w1. split; [exact E|done]. }
  assert (Hnd : forall a t c d y g, no_div (sc a t c d y g)).
  { intros a t c d y g w'. destruct (Hsc a t c d y g w') as (sub & w1 & E & _).
    by rewrite E. }
  pose proof (try_block_no_div sc agent task ctx Hnd) as Hbody.
  unfold agent_run_within, try_block in *. fold sc.
  destruct (cls agent).
  1-5: unfold CodeGenAgent_run, DocAgent_run, FixAgent_run, PlannerAgent_run, QaAgent_run;
       match goal with
       | |- context [yield ?c0 >>
                     try_except ?body (fun e => yield (@?c1 e) >> ?s ?a ?t ?c _ ?ty ?g)] =>
           destruct (guarded_run_shape (yield c0) body (fun e => (c1 e, ty, g)) s
                       a t c [EYield c0] w (fun w' => eq_refl) Hbody Hsc)
             as (evs & w1 & E & Hshape)
       end;
       exists evs, w1; (split; [exact E|]);
       (split; [|eexists; split; [|exact Hshape]; simpl; lia]);
       rewrite yield_bind in E; by injection E as <-.
  unfold TestAgent_run.
  set (op := dict_get_or ctx "operation_type" (VStr "generate_tests")) in *.
  set (opening := if websocket_manager agent then _ else _).
  set (pre := if websocket_manager agent
              then [ESend (stream_chunk agent ("[" +:+ name agent +:+ "] Starting operation: "
                                               +:+ py_str op +:+ "..."))]
              else []).
  assert (Hop : forall w', opening w' = (pre, Ok tt, w')).
  { intros w'. subst opening pre. by destruct (websocket_manager agent). }
  set (handler := fun e : exn =>
         match exn_cls e with
         | ValueError | KeyError =>
             ("[ERROR] [" +:+ name agent +:+ "] Validation error: " +:+ exn_msg e,
              "validation_error",
              "A data validation or key error occurred. Check the context data and the agent's logic.")
         | _ =>
             ("[ERROR] [" +:+ name agent +:+ "] Unhandled exception in run: " +:+ exn_msg e,
              "unhandled_exception",
              "An unexpected error occurred. Analyze the stack trace and context to find the root cause.")
         end).
  destruct (guarded_run_shape opening (TestAgent_body C sc agent task ctx op) handler sc
              agent task ctx pre w Hop Hbody Hsc) as (evs & w1 & E & Hshape).
  exists evs, w1. split; [|split].
  - rewrite <- E. rewrite !(bind_Ok _ _ _ _ _ _ (Hop w)).
    erewrite try_ext; [reflexivity|]. intros e w'. subst handler. cbv beta.
    by destruct (exn_cls e).
  - pose proof (TestAgent_body_yields C sc agent task ctx op w) as Hy.
    destruct (TestAgent_body C sc agent task ctx op w) as [[bevs r] wb].
    unfold events, result in Hy. cbn [fst snd] in Hy.
    destruct r as [[]|e|]; [| |done].
    + destruct Hshape as [-> _]. rewrite chunks_of_app.
      destruct Hy as [Hy|[e He]]; [|done].
      intros Hnil. apply app_eq_nil in Hnil. by destruct Hnil.
    + destruct Hshape as (? & ? & ? & ? & _ & _ & ->).
      rewrite !chunks_of_app. intros Hnil. apply app_eq_nil in Hnil as [_ Hnil].
      apply app_eq_nil in Hnil as [_ Hnil]. done.
  - exists pre. split; [|exact Hshape]. subst pre. destruct (websocket_manager agent); simpl; lia.
Qed.

Lemma FixAgent_run_ext (sc1 sc2 : self_correct W) self task ctx w :
  (forall a t c d y g w', sc1 a t c d y g w' = sc2 a t c d y g w') ->
  FixAgent_run C sc1 self task ctx w = FixAgent_run C sc2 self task ctx w.
Proof.
  intros Hsc. unfold FixAgent_run. apply bind_ext. intros _ w1.
  apply try_ext. intros e w2. apply bind_ext. intros _ w3. apply Hsc.
Qed.

(** [agent_self_correct] is the coordinator under a limit at which nothing
    happens any more. *)
Lemma agent_self_correct_unlimited fuel : forall agent task ctx d t g w,
  agent_self_correct C fuel agent task ctx d t g w
  = agent_self_correct_within C diverge fuel agent task ctx d t g w.
Proof.
  induction fuel as [|fuel IH]; intros; [reflexivity|].
  cbn [agent_self_correct agent_self_correct_within]. unfold try_except.
  match goal with
  | |- match ?m1 w with _ => _ end = match ?m2 w with _ => _ end =>
      assert (Hm : m1 w = m2 w); [|by rewrite Hm]
  end.
  apply bind_ext. intros _ w1. apply bind_ext. intros fa w2.
  unfold bind. by rewrite (FixAgent_run_ext _ _ _ _ _ _ IH).
Qed.
End LifecycleEnds.

Lemma run_never_raises_witness :
  result (try_block silent_world
            (agent_self_correct_within silent_world (raise RecursionError) 2)
            (agent_of CodeGenAgent "codegen") "write a parser" ∅ tt)
    = Exc (Exn ValueError "LLM response was empty or contained an error.")
  /\ exists evs w1,
       agent_run_within silent_world (raise RecursionError) 2
         (agent_of CodeGenAgent "codegen") "write a parser" ∅ tt = (evs, Ok tt, w1)
       /\ chunks_of evs <> [].
Proof.
  split; [reflexivity|].
  destruct (run_never_raises silent_world (raise RecursionError) 2
              (agent_of CodeGenAgent "codegen") "write a parser" ∅ tt)
    as (evs & w1 & E & Hne & _).
  - by intros w.
  - by exists evs, w1.
Defined.

(** The same run in full: two nested corrections, the refusal of the third,
    and the return of every level. *)
Lemma codegen_run_at_the_recursion_limit :
  let run := agent_run_within silent_world (raise RecursionError) 2
               (agent_of CodeGenAgent "codegen") "write a parser" ∅ tt in
  result run = Ok tt
  /\ length (chunks_of (events run)) = 16
  /\ last (chunks_of (events run))
     = Some (stream_chunk (agent_of CodeGenAgent "codegen")
               "[INFO] Self-correction attempt for codegen completed.")
  /\ In (stream_chunk (agent_of FixAgent "codegen")
           "[ERROR] A critical error occurred during the self-correction process: maximum recursion depth exceeded")
        (chunks_of (events run)).
Proof.
  vm_compute. repeat split. tauto.
Qed.


Section WorkflowSteps.
Context {W : Type} (C : collaborators W).

(** A step with an agent type that resolves and a task description: the
    stream of the agent goes to the client chunk by chunk, and its payload
    is stored in the context when the stream ends. *)
Lemma workflow_step_executed fuel h self i td agent_type task agent w :
  td !! "agent" = Some agent_type -> opt_truthy (Some agent_type) = true ->
  td !! "task" = Some task -> opt_truthy (Some task) = true ->
  _get_agent h self agent_type = Some agent ->
  let r := _execute_task C fuel self agent task w in
  workflow_step C fuel h self i td w
    = (ESend ("[INFO] Executing task '"
              +:+ default ("Task " +:+ pretty (i + 1)) (td !! "name")
              +:+ "' with agent '" +:+ agent_type +:+ "'.")
         :: map forward (events r),
       match result r with
       | Ok _ => Ok (update_context self
                       {[ agent_type +:+ "_output"
                          := VStr (fold_left accumulate (chunks_of (events r)) "") ]})
       | Exc e => Exc e
       | Div => Div
       end,
       world r).
Proof.
  intros Ha Hat Ht Htt Hag r. unfold workflow_step.
  rewrite Ha, Ht, Hat, Htt. cbn [negb from_option id]. rewrite Hag.
  rewrite send_bind. unfold prepend, bind, forward_and_collect. fold r.
  destruct r as [[evs res] w1]. unfold events, result, world. simpl.
  destruct res; by rewrite ?app_nil_r.
Qed.

End WorkflowSteps.

(** ** The context after a workflow *)

Lemma str_app_nil_r s : s +:+ "" = s.
Proof.
  induction s as [|a s IH]; [done|].
  change (String a (s +:+ "") = String a s). by rewrite IH.
Qed.

Lemma str_app_assoc s1 s2 s3 : (s1 +:+ s2) +:+ s3 = s1 +:+ s2 +:+ s3.
Proof.
  induction s1 as [|a s1 IH]; [done|].
  change (String a ((s1 +:+ s2) +:+ s3) = String a (s1 +:+ s2 +:+ s3)). by rewrite IH.
Qed.

Lemma str_to_list_app s1 s2 :
  list_ascii_of_string (s1 +:+ s2) = list_ascii_of_string s1 ++ list_ascii_of_string s2.
Proof.
  induction s1 as [|a s1 IH]; [done|].
  change (a :: list_ascii_of_string (s1 +:+ s2)
          = a :: (list_ascii_of_string s1 ++ list_ascii_of_string s2)).
  by rewrite IH.
Qed.

Lemma str_app_inv_tail s1 s2 x : s1 +:+ x = s2 +:+ x -> s1 = s2.
Proof.
  intros H. apply (f_equal list_ascii_of_string) in H.
  rewrite !str_to_list_app in H. apply app_inv_tail in H.
  apply (f_equal string_of_list_ascii) in H.
  by rewrite !string_of_list_ascii_of_string in H.
Qed.

Lemma concat_cons c l : String.concat "" (c :: l) = c +:+ String.concat "" l.
Proof. destruct l; [symmetry; apply str_app_nil_r|reflexivity]. Qed.

(** The loop [final_output += chunk] over the payload chunks builds their
    concatenation. *)
Lemma fold_accumulate cs : forall acc,
  fold_left accumulate cs acc = acc +:+ String.concat "" (payload_chunks cs).
Proof.
  induction cs as [|c cs IH]; intros acc.
  - simpl. by rewrite str_app_nil_r.
  - cbn [fold_left]. rewrite IH. unfold payload_chunks. rewrite filter_cons.
    unfold accumulate, is_payload, is_progress.
    destruct (startswith c "STREAM_CHUNK:"); simpl negb.
    + rewrite decide_False by done. done.
    + rewrite decide_True by done. by rewrite concat_cons, str_app_assoc.
Qed.

Section ContextMerge.
Context {W : Type} (C : collaborators W).

(** A step of another agent type leaves the entry alone. *)
Lemma workflow_step_other_key fuel h self i td agent_type w self1 :
  td !! "agent" <> Some agent_type ->
  result (workflow_step C fuel h self i td w) = Ok self1 ->
  context self1 !! (agent_type +:+ "_output") = context self !! (agent_type +:+ "_output").
Proof.
  intros Hne. unfold workflow_step.
  destruct (opt_truthy (td !! "agent")) eqn:Ha; cbn [negb].
  2:{ rewrite send_bind. unfold prepend, result. simpl. by intros [= <-]. }
  destruct (opt_truthy (td !! "task")) eqn:Ht; cbn [negb].
  2:{ rewrite send_bind. unfold prepend, result. simpl. by intros [= <-]. }
  destruct (_get_agent h self _) as [agent|].
  2:{ rewrite send_bind. unfold prepend, result. simpl. by intros [= <-]. }
  rewrite send_bind. unfold prepend, bind, forward_and_collect.
  destruct (_execute_task C fuel self agent _ w) as [[evs r] w1].
  unfold result. simpl. destruct r as [[]|e|]; simpl; try done.
  intros [= <-]. unfold update_context. cbn [context].
  rewrite lookup_union_r; [done|].
  apply lookup_singleton_ne. intros Heq. apply str_app_inv_tail in Heq.
  destruct (td !! "agent") as [a|]; [|done]. simpl in Heq. by subst a.
Qed.

Lemma workflow_loop_other_key fuel h agent_type post : forall self i w self1,
  Forall (fun td => td !! "agent" <> Some agent_type) post ->
  result (workflow_loop C fuel h self i post w) = Ok self1 ->
  context self1 !! (agent_type +:+ "_output") = context self !! (agent_type +:+ "_output").
Proof.
  induction post as [|td post IH]; intros self i w self1 Hall.
  - unfold result. simpl. by intros [= <-].
  - apply Forall_cons in Hall as [Hne Hall]. cbn [workflow_loop]. unfold bind.
    pose proof (workflow_step_other_key fuel h self i td agent_type w) as Hstep.
    destruct (workflow_step C fuel h self i td w) as [[evs r] w1].
    destruct r as [self'|e|]; try done.
    specialize (Hstep self' Hne eq_refl).
    pose proof (IH self' (S i) w1) as IH'.
    destruct (workflow_loop C fuel h self' (S i) post w1) as [[evs2 r2] w2].
    unfold result in *. simpl in *. intros ->.
    rewrite <- Hstep. by apply IH'.
Qed.

(** Whatever the await on [run] does: when [run_workflow] has completed, the
    context entry ["<agentType>_output"] is the concatenation, in order, of the
    payload chunks of the last executed step of that agent type: the step ran
    in the state [self1], [w1] left by the steps [pre] before it, and no step
    of [post] names the same agent type. *)
Lemma context_holds_last_payload fuel h self pre td post agent_type task agent
    w evs1 self1 w1 selfN :
  workflow_loop C fuel h {| context := initial_context C (pre ++ td :: post);
                            agents := agents self |} 0 pre w = (evs1, Ok self1, w1) ->
  td !! "agent" = Some agent_type -> opt_truthy (Some agent_type) = true ->
  td !! "task" = Some task -> opt_truthy (Some task) = true ->
  _get_agent h self1 agent_type = Some agent ->
  Forall (fun td' => td' !! "agent" <> Some agent_type) post ->
  result (run_workflow C fuel h self (pre ++ td :: post) w) = Ok selfN ->
  context selfN !! (agent_type +:+ "_output")
    = Some (VStr (String.concat ""
                    (payload_chunks
                       (chunks_of (events (_execute_task C fuel self1 agent task w1)))))).
Proof.
  intros Hpre Ha Hat Ht Htt Hag Hpost Hrun.
  rewrite run_workflow_unfold in Hrun. cbv zeta in Hrun.
  rewrite workflow_loop_app in Hrun.
  rewrite (bind_Ok _ _ _ _ _ _ Hpre) in Hrun.
  cbn [workflow_loop] in Hrun.
  pose proof (workflow_step_executed C fuel h self1 (0 + length pre) td agent_type task
                agent w1 Ha Hat Ht Htt Hag) as Hstep.
  cbv zeta in Hstep.
  set (r := _execute_task C fuel self1 agent task w1) in *.
  unfold bind at 1 in Hrun. rewrite Hstep in Hrun.
  destruct (result r) as [[]|e|] eqn:Hr.
  2,3: by (unfold result in Hrun; simpl in Hrun).
  set (self2 := update_context self1 _) in Hrun.
  pose proof (workflow_loop_other_key fuel h agent_type post self2
                (S (0 + length pre)) (world r)) as Hrest.
  destruct (workflow_loop C fuel h self2 _ post (world r)) as [[evs3 r3] w3].
  unfold result in Hrun, Hrest. simpl in Hrun, Hrest.
  destruct r3 as [self3|e|]; try done.
  injection Hrun as ->.
  rewrite (Hrest _ Hpost eq_refl). subst self2. unfold update_context. cbn [context].
  rewrite lookup_union_l', lookup_singleton_eq; [|by rewrite lookup_singleton_eq].
  by rewrite fold_accumulate.
Qed.
End ContextMerge.

(** ** Reloading the agents *)

Section Reload.
Context {W : Type} (C : collaborators W).

Lemma deref_insert (h : heap) l r : deref (<[l := r]> h) l = r.
Proof. unfold deref. by rewrite lookup_insert_eq. Qed.

Lemma load_entry_total (h : heap) self agent_name cfg k w :
  exists h1 w1,
    try_except
      (let* a := new_agent C k agent_name cfg true in
       ret (<[agents self := <[agent_name := a]> (deref h (agents self))]> h))
      (fun _ => ret h) w = ([], Ok h1, w1)
    /\ (h1 = h \/
        h1 = <[agents self := <[agent_name := Agent k agent_name cfg true]>
                                (deref h (agents self))]> h).
Proof.
  unfold try_except, new_agent, bind, call, ret.
  destruct (agent_init C k agent_name cfg w) as [[[]|e] w1]; simpl; eauto.
Qed.

Lemma load_loop_spec self items : forall (h : heap) w,
  exists h1 w1,
    load_loop C h self items w = ([], Ok h1, w1)
    /\ (forall l, l <> agents self -> h1 !! l = h !! l)
    /\ (forall nm a, deref h1 (agents self) !! nm = Some a ->
          deref h (agents self) !! nm = Some a
          \/ exists cfg k, In (nm, cfg) items /\ agent_class_map !! nm = Some k
                           /\ a = Agent k nm cfg true).
Proof.
  induction items as [|[agent_name cfg] items IH]; intros h w.
  - exists h, w. by eauto.
  - cbn [load_loop].
    assert (Hstep : exists h' w',
      (match agent_class_map !! agent_name with
       | Some agent_class =>
           try_except
             (let* a := new_agent C agent_class agent_name cfg true in
              ret (<[agents self := <[agent_name := a]> (deref h (agents self))]> h))
             (fun _ => ret h)
       | None => ret h
       end) w = ([], Ok h', w')
      /\ (h' = h \/ exists k, agent_class_map !! agent_name = Some k /\
            h' = <[agents self := <[agent_name := Agent k agent_name cfg true]>
                                    (deref h (agents self))]> h)).
    { destruct (agent_class_map !! agent_name) as [k|].
      - destruct (load_entry_total h self agent_name cfg k w) as (h' & w' & E & Hcase).
        exists h', w'. split; [exact E|].
        destruct Hcase as [->| ->]; [by left|right; by exists k].
      - exists h, w. split; [done|]. by left. }
    destruct Hstep as (h' & w' & Estep & Hh').
    destruct (IH h' w') as (h1 & w1 & Eloop & Hframe & Hsound).
    exists h1, w1. split; [|split].
    + rewrite (bind_Ok _ _ _ _ _ _ Estep). rewrite Eloop. reflexivity.
    + intros l Hl. rewrite (Hframe l Hl).
      destruct Hh' as [->|(k & _ & ->)]; [done|]. by rewrite lookup_insert_ne.
    + intros nm a Hnm. destruct (Hsound nm a Hnm) as [Hold|(cfg' & k & Hin & Hk & ->)].
      * destruct Hh' as [->|(k & Hk & ->)]; [by left|].
        rewrite deref_insert in Hold.
        destruct (decide (agent_name = nm)) as [->|Hne].
        -- rewrite lookup_insert_eq in Hold. injection Hold as <-.
           right. exists cfg, k. split; [by left|done].
        -- rewrite lookup_insert_ne in Hold by done. by left.
      * right. exists cfg', k. split; [by right|done].
Qed.

End Reload.

(** A run that looked the planner up before the reload and holds the same
    reference afterwards no longer finds it. *)
Lemma reload_is_seen_through_the_old_reference :
  let snapshot := agents orch0 in
  deref heap0 snapshot !! "planner" = Some (agent_of PlannerAgent "planner")
  /\ exists h1,
       result (reload_config echo_world heap0 orch0 [("codegen", ∅)] tt) = Ok h1
       /\ deref h1 snapshot !! "planner" = None
       /\ h1 !! snapshot <> heap0 !! snapshot.
Proof.
  split; [by vm_compute|].
  eexists. split; [vm_compute; reflexivity|]. split; [by vm_compute|].
  vm_compute. discriminate.
Qed.

(** ** What reaches the payload stream and the store *)

Section TraceRules.
Context {W : Type} (C : collaborators W).

Lemma all_ret {A} Q (a : A) : all_events Q (@ret W A a).
Proof. intros w. constructor. Qed.

Lemma all_raise {A} Q e : all_events Q (@raise W A e).
Proof. intros w. constructor. Qed.

Lemma all_diverge {A} Q : all_events Q (@diverge W A).
Proof. intros w. constructor. Qed.

Lemma all_call {A} Q (o : W -> outcome A * W) : all_events Q (call o).
Proof. intros w. unfold call. destruct (o w) as [[?|?] ?]; constructor. Qed.

Lemma all_subscript Q d k : all_events Q (@subscript W d k).
Proof. unfold subscript. destruct (d !! k); [apply all_ret|apply all_raise]. Qed.

Lemma all_buffer Q self prompt task ctx :
  all_events Q (buffer_llm_response C self prompt task ctx).
Proof.
  intros w. unfold buffer_llm_response.
  destruct (execute_llm C self prompt task ctx w) as [[? [?|]] ?]; constructor.
Qed.

Lemma all_emit (Q : event -> Prop) ev : Q ev -> all_events Q (@emit W ev).
Proof. intros H w. by repeat constructor. Qed.

Lemma all_yield (Q : event -> Prop) c : Q (EYield c) -> all_events Q (@yield W c).
Proof. apply all_emit. Qed.

Lemma all_bind {A B} Q (m : gen W A) (k : A -> gen W B) :
  all_events Q m -> (forall a, all_events Q (k a)) -> all_events Q (bind m k).
Proof.
  intros Hm Hk w. unfold bind. specialize (Hm w).
  destruct (m w) as [[evs r] w1]. unfold events in *. simpl in *.
  destruct r as [a|e|]; try done.
  specialize (Hk a w1). destruct (k a w1) as [[evs2 r2] w2]. simpl in *.
  by apply Forall_app.
Qed.

Lemma all_try {A} Q (m : gen W A) h :
  all_events Q m -> (forall e, all_events Q (h e)) -> all_events Q (try_except m h).
Proof.
  intros Hm Hh w. unfold try_except. specialize (Hm w).
  destruct (m w) as [[evs r] w1]. unfold events in *. simpl in *.
  destruct r as [a|e|]; try done.
  specialize (Hh e w1). destruct (h e w1) as [[evs2 r2] w2]. simpl in *.
  by apply Forall_app.
Qed.

Lemma returns_ret {A} (Q : list event -> A -> Prop) a : Q [] a -> returns (@ret W A a) Q.
Proof. intros H w evs a' w1 [= <- <- _]. exact H. Qed.

Lemma returns_raise {A} (Q : list event -> A -> Prop) e : returns (@raise W A e) Q.
Proof. by intros w evs a w1. Qed.

Lemma returns_emit (Q : list event -> unit -> Prop) ev : Q [ev] tt -> returns (@emit W ev) Q.
Proof. intros H w evs [] w1 [= <- _]. exact H. Qed.

Lemma returns_yield (Q : list event -> unit -> Prop) c :
  Q [EYield c] tt -> returns (@yield W c) Q.
Proof. apply returns_emit. Qed.

Lemma returns_call {A} (Q : list event -> A -> Prop) (o : W -> outcome A * W) :
  (forall a, Q [] a) -> returns (call o) Q.
Proof.
  intros H w evs a w1. unfold call. destruct (o w) as [[a'|e] w']; [|done].
  intros [= <- <- _]. apply H.
Qed.

Lemma returns_subscript (Q : list event -> pyval -> Prop) d k :
  (forall a, Q [] a) -> returns (@subscript W d k) Q.
Proof.
  intros H. unfold subscript. destruct (d !! k); [by apply returns_ret|apply returns_raise].
Qed.

Lemma returns_buffer (Q : list event -> string -> Prop) self prompt task ctx :
  (forall a, Q [] a) -> returns (buffer_llm_response C self prompt task ctx) Q.
Proof.
  intros H w evs a w1. unfold buffer_llm_response.
  destruct (execute_llm C self prompt task ctx w) as [[cs [e|]] w']; [done|].
  intros [= <- <- _]. apply H.
Qed.

Lemma returns_bind {A B} (Q : list event -> B -> Prop) (m : gen W A) (k : A -> gen W B) :
  returns m (fun evs1 a => returns (k a) (fun evs2 b => Q (evs1 ++ evs2) b)) ->
  returns (bind m k) Q.
Proof.
  intros H w evs b w2. unfold bind.
  destruct (m w) as [[evs1 r] w1] eqn:Em. destruct r as [a|e|]; try done.
  destruct (k a w1) as [[evs2 r2] w1'] eqn:Ek.
  intros [= <- -> <-]. exact (H w evs1 a w1 Em w1 evs2 b w1' Ek).
Qed.

Lemma returns_silent {A} (Q : list event -> A -> Prop) (m : gen W A) :
  silent m -> (forall a, Q [] a) -> returns m Q.
Proof.
  intros Hs H w evs a w1 E. specialize (Hs w). rewrite E in Hs.
  unfold events in Hs. simpl in Hs. subst evs. apply H.
Qed.

Lemma silent_ret {A} (a : A) : silent (@ret W A a).
Proof. by intros w. Qed.

Lemma silent_raise {A} e : silent (@raise W A e).
Proof. by intros w. Qed.

Lemma silent_call {A} (o : W -> outcome A * W) : silent (call o).
Proof. intros w. unfold call. by destruct (o w) as [[?|?] ?]. Qed.

Lemma silent_subscript d k : silent (@subscript W d k).
Proof. unfold subscript. destruct (d !! k); [apply silent_ret|apply silent_raise]. Qed.

Lemma silent_bind {A B} (m : gen W A) (k : A -> gen W B) :
  silent m -> (forall a, silent (k a)) -> silent (bind m k).
Proof.
  intros Hm Hk w. unfold bind. specialize (Hm w).
  destruct (m w) as [[evs r] w1]. unfold events in *. simpl in *. subst evs.
  destruct r as [a|e|]; try done.
  specialize (Hk a w1). by destruct (k a w1) as [[evs2 r2] w2].
Qed.

Lemma payload_chunks_cons c cs :
  payload_chunks (c :: cs)
    = if is_progress c then payload_chunks cs else c :: payload_chunks cs.
Proof.
  unfold payload_chunks. rewrite filter_cons. unfold is_payload.
  destruct (is_progress c); simpl negb; [by rewrite decide_False|by rewrite decide_True].
Qed.
End TraceRules.

Ltac solve_silent :=
  repeat first
    [ apply silent_ret | apply silent_raise | apply silent_call | apply silent_subscript
    | apply silent_bind; [|intros]
    | match goal with
      | |- silent (match ?x with _ => _ end) => destruct x
      end ].

Ltac solve_all_events :=
  repeat first
    [ apply all_ret | apply all_raise | apply all_call | apply all_subscript
    | apply all_buffer | apply all_diverge
    | apply all_bind; [|intros]
    | apply all_try; [|intros]
    | apply all_yield; left; apply stream_chunk_is_progress
    | apply all_yield; right; assumption
    | apply all_emit; assumption
    | match goal with
      | H : forall a t c d y g, all_events _ _ |- all_events _ _ => apply H
      | |- all_events _ (match ?x with _ => _ end) => destruct x eqn:?
      end ].

Section Buffering.
Context {W : Type} (C : collaborators W).

Lemma FixAgent_run_validated (sc : self_correct W) self task ctx :
  (forall a t c d y g, all_events validated_event (sc a t c d y g)) ->
  all_events validated_event (FixAgent_run C sc self task ctx).
Proof.
  intros Hsc.
  unfold FixAgent_run, FixAgent_body, FixAgent_prepare_and_construct_prompt,
    _read_gdrive_file, _construct_prompt, _enforce_agent_rules, _write_gdrive_file,
    _update_gdrive_file.
  solve_all_events.
Qed.

Lemma agent_self_correct_validated fuel : forall agent task ctx d t g,
  all_events validated_event (agent_self_correct C fuel agent task ctx d t g).
Proof.
  induction fuel as [|fuel IH]; intros; cbn [agent_self_correct]; unfold new_agent.
  - solve_all_events.
  - apply all_try; [|intros; solve_all_events].
    apply all_bind; [solve_all_events|intros _].
    apply all_bind; [solve_all_events|intros fix_agent].
    apply all_bind; [|intros; solve_all_events].
    apply FixAgent_run_validated. intros. apply IH.
Qed.

(** The five agents that tag their progress let a payload chunk through,
    and hand a content to the artifact store, only when it is a buffered
    response that has passed the validation; this holds for the corrections
    nested in their streams as well. *)
Lemma tagged_agents_buffer_and_validate fuel agent task ctx w :
  cls agent <> TestAgent ->
  Forall validated_event (events (agent_run C fuel agent task ctx w)).
Proof.
  intros Hcls.
  pose proof (agent_self_correct_validated fuel) as Hsc.
  unfold agent_run. destruct (cls agent); try done.
  - revert w. change (all_events validated_event
                        (CodeGenAgent_run C (agent_self_correct C fuel) agent task ctx)).
    unfold CodeGenAgent_run, CodeGenAgent_body, _construct_prompt, _enforce_agent_rules.
    solve_all_events.
  - revert w. change (all_events validated_event
                        (DocAgent_run C (agent_self_correct C fuel) agent task ctx)).
    unfold DocAgent_run, DocAgent_body, DocAgent_prepare_and_construct_prompt,
      _read_gdrive_file, _construct_prompt, _enforce_agent_rules, _write_gdrive_file,
      _update_gdrive_file.
    solve_all_events.
  - revert w. change (all_events validated_event
                        (FixAgent_run C (agent_self_correct C fuel) agent task ctx)).
    by apply FixAgent_run_validated.
  - revert w. change (all_events validated_event
                        (PlannerAgent_run C (agent_self_correct C fuel) agent task ctx)).
    unfold PlannerAgent_run, PlannerAgent_body,
      _construct_prompt, _enforce_agent_rules, _write_gdrive_file.
    solve_all_events.
  - revert w. change (all_events validated_event
                        (QaAgent_run C (agent_self_correct C fuel) agent task ctx)).
    unfold QaAgent_run, QaAgent_body, QaAgent_prepare_and_construct_prompt,
      _read_gdrive_file, _construct_prompt, _enforce_agent_rules, _write_gdrive_file.
    solve_all_events.
Qed.
End Buffering.

(** ** The payload of a successful run *)

Create HintDb silent_db.

Ltac step_returns :=
  first
    [ apply returns_silent; [solve [auto with silent_db]|intros]
    | apply returns_raise
    | apply returns_bind
    | apply returns_yield
    | apply returns_emit
    | apply returns_ret
    | apply returns_call; intros
    | apply returns_subscript; intros
    | apply returns_buffer; intros
    | match goal with
      | |- returns (match ?x with _ => _ end) _ => destruct x eqn:?
      end ].

#[local] Arguments stream_chunk : simpl never.
#[local] Arguments payload_chunks : simpl never.

Ltac returns_leaf :=
  eexists; split; [eassumption|]; split;
  [ simpl; rewrite ?payload_chunks_cons, ?stream_chunk_is_progress;
    match goal with |- context [is_progress ?a] => by destruct (is_progress a) end
  | simpl; repeat constructor ].

Section SuccessfulRun.
Context {W : Type} (C : collaborators W).

Lemma FixAgent_prepare_silent self task ctx op :
  silent (FixAgent_prepare_and_construct_prompt C self task ctx op).
Proof.
  unfold FixAgent_prepare_and_construct_prompt, _read_gdrive_file, _construct_prompt.
  solve_silent.
Qed.

Lemma DocAgent_prepare_silent self task ctx op :
  silent (DocAgent_prepare_and_construct_prompt C self task ctx op).
Proof.
  unfold DocAgent_prepare_and_construct_prompt, _read_gdrive_file, _construct_prompt.
  solve_silent.
Qed.

Lemma QaAgent_prepare_silent self task ctx op :
  silent (QaAgent_prepare_and_construct_prompt C self task ctx op).
Proof.
  unfold QaAgent_prepare_and_construct_prompt, _read_gdrive_file, _construct_prompt.
  solve_silent.
Qed.

Hint Resolve FixAgent_prepare_silent DocAgent_prepare_silent QaAgent_prepare_silent
  : silent_db.

Lemma CodeGenAgent_body_returns self task ctx :
  returns (CodeGenAgent_body C self task ctx)
    (fun evs _ => exists full, invalid_response full = false /\ carries full evs).
Proof.
  unfold CodeGenAgent_body, _construct_prompt, _enforce_agent_rules.
  repeat (step_returns; cbv beta). returns_leaf.
Qed.

Lemma FixAgent_body_returns self task ctx :
  returns (FixAgent_body C self task ctx)
    (fun evs _ => exists full, invalid_response full = false /\ carries full evs).
Proof.
  unfold FixAgent_body, _enforce_agent_rules, _write_gdrive_file, _update_gdrive_file.
  repeat (step_returns; cbv beta); returns_leaf.
Qed.

Lemma DocAgent_body_returns self task ctx :
  returns (DocAgent_body C self task ctx)
    (fun evs _ => exists full, invalid_response full = false /\ carries full evs).
Proof.
  unfold DocAgent_body, _enforce_agent_rules, _write_gdrive_file, _update_gdrive_file.
  repeat (step_returns; cbv beta); returns_leaf.
Qed.

Lemma PlannerAgent_body_returns self task ctx :
  returns (PlannerAgent_body C self task ctx)
    (fun evs _ => exists full, invalid_response full = false /\ carries full evs).
Proof.
  unfold PlannerAgent_body, _construct_prompt, _enforce_agent_rules, _write_gdrive_file.
  repeat (step_returns; cbv beta); returns_leaf.
Qed.

Lemma QaAgent_body_returns self task ctx :
  returns (QaAgent_body C self task ctx)
    (fun evs _ => exists full, invalid_response full = false /\ carries full evs).
Proof.
  unfold QaAgent_body, _enforce_agent_rules, _write_gdrive_file.
  repeat (step_returns; cbv beta); returns_leaf.
Qed.

Lemma lifecycle_returns agent task ctx body :
  lifecycle C agent task ctx = Some body ->
  returns body (fun evs _ => exists full, invalid_response full = false /\ carries full evs).
Proof.
  unfold lifecycle. destruct (cls agent); intros [= <-];
    auto using CodeGenAgent_body_returns, FixAgent_body_returns, DocAgent_body_returns,
      PlannerAgent_body_returns, QaAgent_body_returns.
Qed.

(** When the [try] block completes, [run] is its first chunk followed by
    the trace of the block. *)
Lemma agent_run_of_lifecycle fuel agent task ctx body w evs w1 :
  lifecycle C agent task ctx = Some body ->
  body w = (evs, Ok tt, w1) ->
  exists msg,
    agent_run C fuel agent task ctx w = (EYield (stream_chunk agent msg) :: evs, Ok tt, w1).
Proof.
  unfold lifecycle, agent_run. intros Hl Hb.
  destruct (cls agent); try discriminate; injection Hl as <-;
    unfold CodeGenAgent_run, DocAgent_run, FixAgent_run, PlannerAgent_run, QaAgent_run;
    eexists; rewrite yield_bind, (try_Ok _ _ _ _ _ _ Hb); reflexivity.
Qed.

(** C4 (as amended). A chunk is a progress chunk exactly when it starts
    with [STREAM_CHUNK:], and a payload chunk otherwise.  When the lifecycle
    of a code generation, documentation, fix, planning or QA agent completes,
    the run returns, and there is a validated response [full] such that
    every content handed to the artifact store in that run is [full] and the
    payload chunks of the stream are [full] alone; when [full] does not
    itself start with [STREAM_CHUNK:], their concatenation is [full]. *)
Theorem payload_of_successful_run_is_the_artifact fuel agent task ctx body w evs w1 :
  lifecycle C agent task ctx = Some body ->
  body w = (evs, Ok tt, w1) ->
  (forall c, is_progress c = startswith c "STREAM_CHUNK:"
             /\ is_payload c = negb (is_progress c))
  /\ result (agent_run C fuel agent task ctx w) = Ok tt
  /\ exists full,
       invalid_response full = false
       /\ Forall (eq full) (stored_contents (events (agent_run C fuel agent task ctx w)))
       /\ payload_chunks (chunks_of (events (agent_run C fuel agent task ctx w)))
          = (if is_progress full then [] else [full])
       /\ (is_progress full = false ->
           String.concat ""
             (payload_chunks (chunks_of (events (agent_run C fuel agent task ctx w))))
           = full).
Proof.
  intros Hl Hb. split; [done|].
  destruct (agent_run_of_lifecycle fuel agent task ctx body w evs w1 Hl Hb) as [msg ->].
  split; [done|].
  destruct (lifecycle_returns agent task ctx body Hl w evs tt w1 Hb)
    as (full & Hvalid & Hpay & Hstore).
  exists full. split; [exact Hvalid|]. split; [exact Hstore|].
  assert (Hp : payload_chunks (chunks_of (events (EYield (stream_chunk agent msg) :: evs,
                                                  Ok tt, w1)))
               = if is_progress full then [] else [full]).
  { unfold events. simpl. by rewrite payload_chunks_cons, stream_chunk_is_progress. }
  split; [exact Hp|]. intros Hnp. rewrite Hp, Hnp. reflexivity.
Qed.
End SuccessfulRun.

Lemma payload_of_successful_run_is_the_artifact_witness :
  let ctx : pydict := <["parent_folder_id" := VStr "folder"]> ∅ in
  let run := agent_run echo_world 0 (agent_of PlannerAgent "planner") "plan the work" ctx tt in
  result run = Ok tt
  /\ exists full,
       invalid_response full = false
       /\ Forall (eq full) (stored_contents (events run))
       /\ payload_chunks (chunks_of (events run)) = (if is_progress full then [] else [full])
       /\ (is_progress full = false ->
           String.concat "" (payload_chunks (chunks_of (events run))) = full).
Proof.
  intros ctx run.
  refine (proj2 (payload_of_successful_run_is_the_artifact echo_world 0
                   (agent_of PlannerAgent "planner") "plan the work" ctx
                   (PlannerAgent_body echo_world (agent_of PlannerAgent "planner")
                      "plan the work" ctx)
                   tt _ tt eq_refl _)).
  vm_compute. reflexivity.
Defined.

(** A plan that itself starts with [STREAM_CHUNK:] is validated and saved,
    and then read as a progress chunk: the payload of the run is empty. *)
Lemma tagged_response_is_not_payload :
  let ctx : pydict := <["parent_folder_id" := VStr "folder"]> ∅ in
  let planner := agent_of PlannerAgent "planner" in
  let run := agent_run echo_world 0 planner "STREAM_CHUNK:plan" ctx tt in
  result (PlannerAgent_body echo_world planner "STREAM_CHUNK:plan" ctx tt) = Ok tt
  /\ result run = Ok tt
  /\ stored_contents (events run) = ["STREAM_CHUNK:plan"]
  /\ String.concat "" (payload_chunks (chunks_of (events run))) = ""
  /\ String.concat "" (payload_chunks (chunks_of (events run)))
     <> String.concat "" (stored_contents (events run)).
Proof.
  repeat split; vm_compute; done.
Qed.

(** ** The test agent *)

Section TestAgentChunks.
Context {W : Type} (C : collaborators W).

Lemma TestAgent_body_no_source sc self task w :
  TestAgent_body C sc self task ∅ (VStr "generate_tests") w
    = ([], Exc (Exn ValueError "Missing 'gdrive_file_id' in context."), w).
Proof. reflexivity. Qed.

Lemma TestAgent_run_no_source fuel task w :
  let agent := agent_of TestAgent "test" in
  let inner :=
    agent_self_correct C fuel agent task ∅ "Missing 'gdrive_file_id' in context."
      "validation_error"
      "A data validation or key error occurred. Check the context data and the agent's logic."
      w in
  agent_run C fuel agent task ∅ w
    = (ESend (stream_chunk agent "[test] Starting operation: generate_tests...")
       :: EYield "[ERROR] [test] Validation error: Missing 'gdrive_file_id' in context."
       :: events inner, result inner, world inner).
Proof.
  intros agent inner. subst inner agent. unfold agent_run. cbn [cls agent_of].
  unfold TestAgent_run. cbn [websocket_manager agent_of].
  change (dict_get_or ∅ "operation_type" (VStr "generate_tests"))
    with (VStr "generate_tests").
  rewrite emit_bind.
  rewrite (try_Exc _ _ _ _ _ _ (TestAgent_body_no_source _ _ task w)).
  cbn [exn_cls exn_msg]. rewrite yield_bind. reflexivity.
Qed.

(** C1, at the failing input.  On an empty context the test agent yields,
    as the first chunk of its stream and before any call of the LLM, an
    error text that carries no [STREAM_CHUNK:] prefix: a payload chunk that
    is no validated response; the same happens when the LLM answers nothing. *)
Theorem test_agent_yields_untagged_errors fuel task w :
  let agent := agent_of TestAgent "test" in
  let error_chunk :=
    "[ERROR] [test] Validation error: Missing 'gdrive_file_id' in context." in
  (exists rest, chunks_of (events (agent_run C fuel agent task ∅ w)) = error_chunk :: rest)
  /\ is_payload error_chunk = true
  /\ invalid_response error_chunk = true
  /\ ~ Forall validated_event (events (agent_run C fuel agent task ∅ w))
  /\ payload_chunks
       (chunks_of (events
          (agent_run silent_world 0 agent "write tests"
             (<["gdrive_file_id" := VStr "file"]> (<["parent_folder_id" := VStr "folder"]> ∅))
             tt)))
     = ["[test] LLM workflow failed or returned empty response."].
Proof.
  intros agent error_chunk. rewrite TestAgent_run_no_source.
  unfold events at 1 2. cbn [fst snd].
  split; [by eexists|]. split; [done|]. split; [done|]. split; [|by vm_compute].
  intros Hall. apply Forall_cons in Hall as [_ Hall].
  apply Forall_cons in Hall as [[Hbad|Hbad] _]; by vm_compute in Hbad.
Qed.
End TestAgentChunks.


(** When the test agent succeeds, the message about the saved file follows
    the tests as one more payload chunk. *)
Lemma test_agent_success_message_is_payload :
  let ctx : pydict :=
    <["gdrive_file_id" := VStr "file"]> (<["parent_folder_id" := VStr "folder"]> ∅) in
  let run := agent_run echo_world 0 (agent_of TestAgent "test") "assert f() == 1" ctx tt in
  result run = Ok tt
  /\ stored_contents (events run) = ["assert f() == 1"]
  /\ payload_chunks (chunks_of (events run))
     = ["assert f() == 1"; nl +:+ "[SUCCESS] Output saved to GDrive file ID: file-1"].
Proof. repeat split; vm_compute; reflexivity. Qed.


(** * Further properties of the engine *)

(** ** Loading the agents *)

Section LoadAgents.
Context {W : Type} (C : collaborators W).

(** Whether a constructor accepts a configuration does not depend on the
    moment it is called. *)
Variable good : agent_class -> string -> gmap string string -> bool.
Hypothesis init_good : forall k nm cfg w,
  (if good k nm cfg then (agent_init C k nm cfg w).1 = Value tt
   else exists e, (agent_init C k nm cfg w).1 = Throws e).

Lemma load_entry_result (h : heap) self agent_name cfg k w :
  exists w1,
    try_except
      (let* a := new_agent C k agent_name cfg true in
       ret (<[agents self := <[agent_name := a]> (deref h (agents self))]> h))
      (fun _ => ret h) w
    = ([], Ok (if good k agent_name cfg
               then <[agents self := <[agent_name := Agent k agent_name cfg true]>
                                       (deref h (agents self))]> h
               else h), w1).
Proof.
  unfold try_except, new_agent, bind, call, ret.
  pose proof (init_good k agent_name cfg w) as Hg.
  destruct (agent_init C k agent_name cfg w) as [o w1]. simpl in Hg.
  destruct (good k agent_name cfg).
  - subst o. by eexists.
  - destruct Hg as [e ->]. by eexists.
Qed.

Lemma load_loop_exact self items : forall (h : heap) w,
  NoDup (items.*1) ->
  exists h1 w1,
    load_loop C h self items w = ([], Ok h1, w1)
    /\ forall nm,
         deref h1 (agents self) !! nm
         = match configured_agent good items nm with
           | Some a => Some a
           | None => deref h (agents self) !! nm
           end.
Proof.
  induction items as [|[agent_name cfg] items IH]; intros h w Hnd.
  - exists h, w. split; [done|]. intros nm. unfold configured_agent. simpl.
    by rewrite lookup_empty.
  - rewrite fmap_cons in Hnd. apply NoDup_cons in Hnd as [Hnotin Hnd].
    cbn [load_loop fst] in *.
    set (step := match agent_class_map !! agent_name with
                 | Some agent_class => _
                 | None => _
                 end).
    set (h' := match agent_class_map !! agent_name with
               | Some k =>
                   if good k agent_name cfg
                   then <[agents self := <[agent_name := Agent k agent_name cfg true]>
                                           (deref h (agents self))]> h
                   else h
               | None => h
               end).
    assert (Hstep : exists w', step w = ([], Ok h', w')).
    { subst step h'. destruct (agent_class_map !! agent_name) as [k|].
      - apply load_entry_result.
      - by exists w. }
    destruct Hstep as (w' & Estep).
    destruct (IH h' w' Hnd) as (h1 & w1 & Eloop & Hlook).
    exists h1, w1. split.
    { rewrite (bind_Ok _ _ _ _ _ _ Estep). rewrite Eloop. reflexivity. }
    intros nm. rewrite Hlook. subst h'. unfold configured_agent.
    cbn [list_to_map foldr fst snd].
    destruct (decide (agent_name = nm)) as [->|Hne].
    + rewrite lookup_insert_eq.
      assert (Hnone : (list_to_map items : gmap string (gmap string string)) !! nm = None).
      { by apply not_elem_of_list_to_map_1. }
      rewrite Hnone.
      destruct (agent_class_map !! nm) as [k|]; [|done].
      destruct (good k nm cfg); [|done].
      by rewrite deref_insert, lookup_insert_eq.
    + rewrite lookup_insert_ne by done.
      destruct (list_to_map items !! nm) as [cfg'|] eqn:Hl.
      * destruct (agent_class_map !! nm) as [k'|]; [|].
        -- destruct (good k' nm cfg'); [done|].
           destruct (agent_class_map !! agent_name) as [k|]; [|done].
           destruct (good k agent_name cfg); [|done].
           by rewrite deref_insert, lookup_insert_ne.
        -- destruct (agent_class_map !! agent_name) as [k|]; [|done].
           destruct (good k agent_name cfg); [|done].
           by rewrite deref_insert, lookup_insert_ne.
      * destruct (agent_class_map !! agent_name) as [k|]; [|done].
        destruct (good k agent_name cfg); [|done].
        by rewrite deref_insert, lookup_insert_ne.
Qed.

(** X1. With a configuration that names each agent once, a reload leaves in
    the registry exactly the agents the configuration asks for: under each
    configured name that has a class, the instance of that class built from its
    configuration, unless its constructor raised; a constructor that raises, or
    a name without class, costs that entry alone, and nothing of the old
    registry survives. *)
Theorem reload_config_loads_what_is_configured (h : heap) self agent_configs w :
  NoDup (agent_configs.*1) ->
  agent_configs <> [] ->
  exists h1 w1,
    reload_config C h self agent_configs w = ([], Ok h1, w1)
    /\ forall nm,
         deref h1 (agents self) !! nm = configured_agent good agent_configs nm.
Proof.
  intros Hnd Hne. unfold reload_config, _load_agents.
  destruct agent_configs as [|item items]; [done|]. cbn [is_nil].
  destruct (load_loop_exact self (item :: items) (<[agents self := ∅]> h) w Hnd)
    as (h1 & w1 & E & Hlook).
  exists h1, w1. split; [exact E|]. intros nm. rewrite Hlook.
  destruct (configured_agent good (item :: items) nm); [done|].
  by rewrite deref_insert, lookup_empty.
Qed.

(** C8 (as amended). [reload_config] always returns, and it rebuilds the
    registry in place.  The orchestrator keeps its reference [agents self];
    with a configuration that lists agents (each name once), a lookup through
    that reference finds afterwards exactly what the configuration asks for,
    the instance of the class of that name built from its configuration
    unless its constructor raised, and nothing of what the registry held
    before; with an empty configuration nothing changes; no other object of
    the heap is touched.  So a run in flight that looks an agent up after the
    reload sees the new contents: its step for an agent type that is no
    longer configured is skipped as unknown. *)
Theorem reload_config_rewrites_the_registry (h : heap) self agent_configs w :
  NoDup (agent_configs.*1) ->
  exists h1 w1,
    reload_config C h self agent_configs w = ([], Ok h1, w1)
    /\ (agent_configs = [] -> h1 = h)
    /\ (agent_configs <> [] ->
        forall agent_type,
          _get_agent h1 self agent_type = configured_agent good agent_configs agent_type)
    /\ (forall l, l <> agents self -> h1 !! l = h !! l)
    /\ (agent_configs <> [] ->
        forall fuel i td w',
          opt_truthy (td !! "agent") = true -> opt_truthy (td !! "task") = true ->
          configured_agent good agent_configs (default "" (td !! "agent")) = None ->
          workflow_step C fuel h1 self i td w'
          = ([ESend ("[ERROR] Agent '" +:+ default "" (td !! "agent")
                     +:+ "' not found for task '"
                     +:+ default ("Task " +:+ pretty (i + 1)) (td !! "name") +:+ "'.")],
             Ok self, w')).
Proof.
  intros Hnd. unfold reload_config, _load_agents.
  destruct agent_configs as [|item items]; cbn [is_nil].
  - exists h, w. by repeat split.
  - destruct (load_loop_exact self (item :: items) (<[agents self := ∅]> h) w Hnd)
      as (h1 & w1 & E & Hlook).
    destruct (load_loop_spec C self (item :: items) (<[agents self := ∅]> h) w)
      as (h1' & w1' & E' & Hframe & _).
    rewrite E in E'. injection E' as <- <-.
    assert (Hget : forall agent_type,
               _get_agent h1 self agent_type
               = configured_agent good (item :: items) agent_type).
    { intros agent_type. unfold _get_agent. rewrite Hlook.
      destruct (configured_agent good (item :: items) agent_type); [done|].
      by rewrite deref_insert, lookup_empty. }
    exists h1, w1. split; [exact E|]. split; [done|]. split; [by intros _|]. split.
    + intros l Hl. rewrite (Hframe l Hl). by rewrite lookup_insert_ne.
    + intros _ fuel i td w' Ha Ht Hnone.
      apply workflow_step_unknown_agent; [done..|]. by rewrite Hget.
Qed.
End LoadAgents.

Lemma reload_config_loads_what_is_configured_witness :
  exists h1 w1,
    reload_config picky_world heap0 orch0 [("codegen", ∅); ("doc", ∅); ("extra", ∅)] tt
      = ([], Ok h1, w1)
    /\ deref h1 (agents orch0) !! "codegen" = Some (Agent CodeGenAgent "codegen" ∅ true)
    /\ deref h1 (agents orch0) !! "doc" = None
    /\ deref h1 (agents orch0) !! "extra" = None
    /\ deref h1 (agents orch0) !! "planner" = None.
Proof.
  destruct (reload_config_loads_what_is_configured picky_world
              (fun k _ _ => match k with DocAgent => false | _ => true end)
              (fun k _ _ _ => match k with
                              | DocAgent => ex_intro _ _ eq_refl
                              | _ => eq_refl
                              end)
              heap0 orch0 [("codegen", ∅); ("doc", ∅); ("extra", ∅)] tt)
    as (h1 & w1 & E & H).
  - compute_done.
  - discriminate.
  - exists h1, w1. split; [exact E|]. rewrite !H. by vm_compute.
Defined.

Lemma reload_config_rewrites_the_registry_witness :
  exists h1 w1,
    reload_config picky_world heap0 orch0 [("codegen", ∅); ("doc", ∅)] tt = ([], Ok h1, w1)
    /\ _get_agent h1 orch0 "codegen" = Some (Agent CodeGenAgent "codegen" ∅ true)
    /\ _get_agent h1 orch0 "doc" = None
    /\ _get_agent h1 orch0 "planner" = None
    /\ h1 !! 1 = heap0 !! 1.
Proof.
  destruct (reload_config_rewrites_the_registry picky_world
              (fun k _ _ => match k with DocAgent => false | _ => true end)
              (fun k _ _ _ => match k with
                              | DocAgent => ex_intro _ _ eq_refl
                              | _ => eq_refl
                              end)
              heap0 orch0 [("codegen", ∅); ("doc", ∅)] tt)
    as (h1 & w1 & E & _ & Hget & Hframe & _).
  - compute_done.
  - exists h1, w1. split; [exact E|].
    rewrite !Hget by discriminate. split; [by vm_compute|]. split; [by vm_compute|].
    split; [by vm_compute|]. by apply Hframe.
Defined.

(** ** The coordinator *)

Section Coordinator.
Context {W : Type} (C : collaborators W).

Lemma payload_chunks_app cs1 cs2 :
  payload_chunks (cs1 ++ cs2) = payload_chunks cs1 ++ payload_chunks cs2.
Proof. unfold payload_chunks. apply filter_app. Qed.

Lemma stored_contents_app evs1 evs2 :
  stored_contents (evs1 ++ evs2) = stored_contents evs1 ++ stored_contents evs2.
Proof. apply omap_app. Qed.

(** X2. When the Fix agent cannot be constructed, the coordinator yields its
    first chunk and one error chunk and returns: no Fix lifecycle is run, and
    nothing is tried again, however far the recursion may be unfolded. *)
Theorem coordinator_failure_is_final fuel agent task ctx d t g w e :
  (agent_init C FixAgent (name agent) (config agent) w).1 = Throws e ->
  agent_self_correct C fuel agent task ctx d t g w
    = ([EYield (stream_chunk agent ("[INFO] Initiating self-correction for " +:+ name agent
                  +:+ " due to " +:+ t +:+ ". Error: " +:+ d));
        EYield (stream_chunk agent
                  ("[ERROR] A critical error occurred during the self-correction process: "
                   +:+ exn_msg e))],
       Ok tt, (agent_init C FixAgent (name agent) (config agent) w).2).
Proof.
  intros Hinit.
  assert (Hnew : new_agent C FixAgent (name agent) (config agent) (websocket_manager agent) w
                 = ([], Exc e, (agent_init C FixAgent (name agent) (config agent) w).2)).
  { unfold new_agent, bind, call.
    destruct (agent_init C FixAgent (name agent) (config agent) w) as [o w1].
    simpl in Hinit. by subst o. }
  destruct fuel; cbn [agent_self_correct]; unfold try_except;
    rewrite yield_bind, (bind_Exc _ _ _ _ _ _ Hnew); reflexivity.
Qed.

(** X3. When the first Fix lifecycle of a correction completes, the stream of
    the coordinator is its opening chunk, the stream of the Fix agent and the
    closing chunk; the correction returns, its payload is the validated
    response of the Fix agent, and that response is what went to the store. *)
Theorem correction_ends_with_the_fix fuel agent task ctx d t g w evs w2 :
  let w1 := (agent_init C FixAgent (name agent) (config agent) w).2 in
  let fix_agent := Agent FixAgent (name agent) (config agent) (websocket_manager agent) in
  let fix_task := fix_task_of C agent task ctx d t g in
  (agent_init C FixAgent (name agent) (config agent) w).1 = Value tt ->
  FixAgent_body C fix_agent fix_task ctx w1 = (evs, Ok tt, w2) ->
  agent_self_correct C (S fuel) agent task ctx d t g w
    = (EYield (stream_chunk agent ("[INFO] Initiating self-correction for " +:+ name agent
                 +:+ " due to " +:+ t +:+ ". Error: " +:+ d))
       :: EYield (stream_chunk fix_agent ("[" +:+ name agent
                    +:+ "] Starting code fixing task: " +:+ fix_task))
       :: evs
       ++ [EYield (stream_chunk agent ("[INFO] Self-correction attempt for " +:+ name agent
                     +:+ " completed."))],
       Ok tt, w2)
  /\ exists full,
       invalid_response full = false
       /\ carries full (events (agent_self_correct C (S fuel) agent task ctx d t g w)).
Proof.
  intros w1 fix_agent fix_task Hinit Hbody.
  assert (Hnew : new_agent C FixAgent (name agent) (config agent) (websocket_manager agent) w
                 = ([], Ok fix_agent, w1)).
  { unfold new_agent, bind, call, ret. subst w1.
    destruct (agent_init C FixAgent (name agent) (config agent) w) as [o w'].
    simpl in Hinit. by subst o. }
  assert (Hrun : FixAgent_run C (agent_self_correct C fuel) fix_agent fix_task ctx w1
                 = (EYield (stream_chunk fix_agent ("[" +:+ name agent
                              +:+ "] Starting code fixing task: " +:+ fix_task)) :: evs,
                    Ok tt, w2)).
  { unfold FixAgent_run. by rewrite yield_bind, (try_Ok _ _ _ _ _ _ Hbody). }
  assert (E : agent_self_correct C (S fuel) agent task ctx d t g w
    = (EYield (stream_chunk agent ("[INFO] Initiating self-correction for " +:+ name agent
                 +:+ " due to " +:+ t +:+ ". Error: " +:+ d))
       :: EYield (stream_chunk fix_agent ("[" +:+ name agent
                    +:+ "] Starting code fixing task: " +:+ fix_task))
       :: evs
       ++ [EYield (stream_chunk agent ("[INFO] Self-correction attempt for " +:+ name agent
                     +:+ " completed."))],
       Ok tt, w2)).
  { cbn [agent_self_correct]. unfold try_except.
    rewrite yield_bind, (bind_Ok _ _ _ _ _ _ Hnew).
    fold fix_agent fix_task.
    rewrite (bind_Ok _ _ _ _ _ _ Hrun). reflexivity. }
  split; [exact E|]. rewrite E.
  destruct (FixAgent_body_returns C fix_agent fix_task ctx w1 evs tt w2 Hbody)
    as (full & Hvalid & Hpay & Hstore).
  exists full. split; [exact Hvalid|]. unfold carries, events. cbn [fst].
  split.
  - change (chunks_of (?a :: ?b :: ?l)) with
      (stream_chunk agent ("[INFO] Initiating self-correction for " +:+ name agent
                           +:+ " due to " +:+ t +:+ ". Error: " +:+ d)
       :: stream_chunk fix_agent ("[" +:+ name agent +:+ "] Starting code fixing task: "
                                  +:+ fix_task)
       :: chunks_of (evs ++ [EYield (stream_chunk agent
                                       ("[INFO] Self-correction attempt for "
                                        +:+ name agent +:+ " completed."))])).
    rewrite !payload_chunks_cons, !stream_chunk_is_progress.
    rewrite chunks_of_app, payload_chunks_app, Hpay.
    change (chunks_of [EYield ?c]) with [c].
    rewrite payload_chunks_cons, stream_chunk_is_progress.
    by rewrite app_nil_r.
  - change (stored_contents (?a :: ?b :: ?l)) with (stored_contents l).
    rewrite stored_contents_app. apply Forall_app. split; [exact Hstore|constructor].
Qed.
End Coordinator.

Lemma coordinator_failure_is_final_witness :
  chunks_of (events (agent_self_correct broken_world 5 (agent_of CodeGenAgent "codegen")
                       "write a parser" ∅ "boom" "agent_execution_error" "" tt))
  = [stream_chunk (agent_of CodeGenAgent "codegen")
       "[INFO] Initiating self-correction for codegen due to agent_execution_error. Error: boom";
     stream_chunk (agent_of CodeGenAgent "codegen")
       "[ERROR] A critical error occurred during the self-correction process: no rule engine"].
Proof.
  rewrite (coordinator_failure_is_final broken_world 5 (agent_of CodeGenAgent "codegen")
             "write a parser" ∅ "boom" "agent_execution_error" "" tt
             (Exn OtherException "no rule engine") eq_refl).
  reflexivity.
Defined.

Lemma correction_ends_with_the_fix_witness :
  result (agent_self_correct echo_world 1 (agent_of CodeGenAgent "codegen") "write a parser"
            drive_context "boom" "agent_execution_error" "" tt) = Ok tt
  /\ exists full,
       invalid_response full = false
       /\ carries full
            (events (agent_self_correct echo_world 1 (agent_of CodeGenAgent "codegen")
                       "write a parser" drive_context "boom" "agent_execution_error" "" tt)).
Proof.
  destruct (correction_ends_with_the_fix echo_world 0 (agent_of CodeGenAgent "codegen")
              "write a parser" drive_context "boom" "agent_execution_error" "" tt
              _ tt eq_refl ltac:(vm_compute; reflexivity)) as [E H].
  split; [by rewrite E|exact H].
Defined.

(** ** What a lifecycle leaves behind when it fails *)

Section OutcomeRules.
Context {W : Type} (C : collaborators W).

Lemma always_ret {A} (Q : list event -> res A -> Prop) a : Q [] (Ok a) -> always (@ret W A a) Q.
Proof. intros H w. exact H. Qed.

Lemma always_raise {A} (Q : list event -> res A -> Prop) e :
  Q [] (Exc e) -> always (@raise W A e) Q.
Proof. intros H w. exact H. Qed.

Lemma always_emit (Q : list event -> res unit -> Prop) ev :
  Q [ev] (Ok tt) -> always (@emit W ev) Q.
Proof. intros H w. exact H. Qed.

Lemma always_yield (Q : list event -> res unit -> Prop) c :
  Q [EYield c] (Ok tt) -> always (@yield W c) Q.
Proof. apply always_emit. Qed.

Lemma always_silent {A} (Q : list event -> res A -> Prop) (m : gen W A) :
  silent m -> (forall r, Q [] r) -> always m Q.
Proof. intros Hs H w. rewrite (Hs w). apply H. Qed.

Lemma silent_buffer self prompt task ctx : silent (buffer_llm_response C self prompt task ctx).
Proof.
  intros w. unfold buffer_llm_response.
  by destruct (execute_llm C self prompt task ctx w) as [[? [?|]] ?].
Qed.

Lemma always_bind {A B} (Q : list event -> res B -> Prop) (m : gen W A) (k : A -> gen W B) :
  always m (fun evs1 r1 =>
              match r1 with
              | Ok a => always (k a) (fun evs2 r2 => Q (evs1 ++ evs2) r2)
              | Exc e => Q evs1 (Exc e)
              | Div => Q evs1 Div
              end) ->
  always (bind m k) Q.
Proof.
  intros H w. specialize (H w). unfold bind.
  destruct (m w) as [[evs1 r1] w1]. unfold events, result in H. simpl in H.
  destruct r1 as [a|e|]; try exact H.
  specialize (H w1). by destruct (k a w1) as [[evs2 r2] w2].
Qed.
End OutcomeRules.

#[local] Hint Resolve silent_call silent_subscript silent_buffer : silent_db.
#[local] Hint Resolve FixAgent_prepare_silent DocAgent_prepare_silent
  QaAgent_prepare_silent : silent_db.

Ltac step_always :=
  first
    [ apply always_silent; [solve [auto with silent_db]|intros [?|?|]]
    | apply always_raise
    | apply always_bind
    | apply always_yield
    | apply always_emit
    | apply always_ret
    | match goal with
      | |- always (match ?x with _ => _ end) _ => destruct x eqn:?
      end ].

Ltac failure_leaf :=
  split;
  [ intros Hfail; try discriminate Hfail; simpl;
    rewrite ?payload_chunks_cons, ?stream_chunk_is_progress; reflexivity
  | simpl; lia ].

Section FailedLifecycle.
Context {W : Type} (C : collaborators W).

Lemma CodeGenAgent_body_outcomes self task ctx :
  always (CodeGenAgent_body C self task ctx)
    (fun evs r => (is_Ok r = false -> payload_chunks (chunks_of evs) = [])
                  /\ length (stored_contents evs) <= 1).
Proof.
  unfold CodeGenAgent_body, _construct_prompt, _enforce_agent_rules.
  repeat (step_always; cbv beta iota); failure_leaf.
Qed.

Lemma FixAgent_body_outcomes self task ctx :
  always (FixAgent_body C self task ctx)
    (fun evs r => (is_Ok r = false -> payload_chunks (chunks_of evs) = [])
                  /\ length (stored_contents evs) <= 1).
Proof.
  unfold FixAgent_body, _enforce_agent_rules, _write_gdrive_file, _update_gdrive_file.
  repeat (step_always; cbv beta iota); failure_leaf.
Qed.

Lemma DocAgent_body_outcomes self task ctx :
  always (DocAgent_body C self task ctx)
    (fun evs r => (is_Ok r = false -> payload_chunks (chunks_of evs) = [])
                  /\ length (stored_contents evs) <= 1).
Proof.
  unfold DocAgent_body, _enforce_agent_rules, _write_gdrive_file, _update_gdrive_file.
  repeat (step_always; cbv beta iota); failure_leaf.
Qed.

Lemma PlannerAgent_body_outcomes self task ctx :
  always (PlannerAgent_body C self task ctx)
    (fun evs r => (is_Ok r = false -> payload_chunks (chunks_of evs) = [])
                  /\ length (stored_contents evs) <= 1).
Proof.
  unfold PlannerAgent_body, _construct_prompt, _enforce_agent_rules, _write_gdrive_file.
  repeat (step_always; cbv beta iota); failure_leaf.
Qed.

Lemma QaAgent_body_outcomes self task ctx :
  always (QaAgent_body C self task ctx)
    (fun evs r => (is_Ok r = false -> payload_chunks (chunks_of evs) = [])
                  /\ length (stored_contents evs) <= 1).
Proof.
  unfold QaAgent_body, _enforce_agent_rules, _write_gdrive_file.
  repeat (step_always; cbv beta iota); failure_leaf.
Qed.

(** X4. A lifecycle of a code generation, documentation, fix, planning or
    QA agent that does not complete has yielded progress chunks only, no
    payload chunk; and no lifecycle calls the artifact store more than once. *)
Theorem failed_lifecycle_yields_no_payload agent task ctx body w :
  lifecycle C agent task ctx = Some body ->
  (result (body w) <> Ok tt -> payload_chunks (chunks_of (events (body w))) = [])
  /\ length (stored_contents (events (body w))) <= 1.
Proof.
  unfold lifecycle. intros Hl.
  assert (H : always body
                (fun evs r => (is_Ok r = false -> payload_chunks (chunks_of evs) = [])
                              /\ length (stored_contents evs) <= 1)).
  { destruct (cls agent); injection Hl as <- || discriminate;
      auto using CodeGenAgent_body_outcomes, FixAgent_body_outcomes, DocAgent_body_outcomes,
        PlannerAgent_body_outcomes, QaAgent_body_outcomes. }
  destruct (H w) as [Hpay Hstore]. split; [|exact Hstore].
  intros Hr. apply Hpay. by destruct (result (body w)) as [[]|?|].
Qed.
End FailedLifecycle.

Lemma failed_lifecycle_yields_no_payload_witness :
  payload_chunks
    (chunks_of (events (PlannerAgent_body echo_world (agent_of PlannerAgent "planner") "A"
                          ∅ tt))) = [].
Proof.
  apply (failed_lifecycle_yields_no_payload echo_world (agent_of PlannerAgent "planner") "A" ∅
           _ tt eq_refl).
  vm_compute. discriminate.
Defined.

(** ** The context of a workflow *)

Lemma str_last_app s a rest : str_last (s +:+ String a rest) = str_last (String a rest).
Proof.
  induction s as [|b s IH]; [done|].
  change (str_last (String b (s +:+ String a rest)) = str_last (String a rest)).
  cbn [str_last]. destruct (s +:+ String a rest) eqn:E.
  - by destruct s.
  - exact IH.
Qed.

Lemma output_key_last agent_type : str_last (agent_type +:+ "_output") = Some "t"%char.
Proof. by rewrite str_last_app. Qed.

Lemma output_key_neq agent_type k :
  str_last k <> Some "t"%char -> agent_type +:+ "_output" <> k.
Proof. intros Hk <-. by rewrite output_key_last in Hk. Qed.

Section WorkflowContext.
Context {W : Type} (C : collaborators W).

(** A step leaves the context as it is or adds the output of its agent. *)
Lemma workflow_step_context fuel h self i td w self1 :
  result (workflow_step C fuel h self i td w) = Ok self1 ->
  agents self1 = agents self
  /\ (context self1 = context self
      \/ exists agent_type out,
           td !! "agent" = Some agent_type
           /\ context self1 = {[ agent_type +:+ "_output" := VStr out ]} ∪ context self).
Proof.
  unfold workflow_step.
  destruct (opt_truthy (td !! "agent")) eqn:Ha; cbn [negb].
  2:{ rewrite send_bind. unfold prepend, result. simpl. intros [= <-]. by eauto. }
  destruct (opt_truthy (td !! "task")) eqn:Ht; cbn [negb].
  2:{ rewrite send_bind. unfold prepend, result. simpl. intros [= <-]. by eauto. }
  destruct (_get_agent h self _) as [agent|].
  2:{ rewrite send_bind. unfold prepend, result. simpl. intros [= <-]. by eauto. }
  rewrite send_bind. unfold prepend, bind, forward_and_collect.
  destruct (_execute_task C fuel self agent _ w) as [[evs r] w1].
  unfold result. simpl. destruct r as [[]|e|]; simpl; try done.
  intros [= <-]. split; [done|]. right.
  destruct (td !! "agent") as [agent_type|]; [|done]. by eauto.
Qed.

Lemma workflow_loop_context fuel h wf rest : forall self i w selfN,
  rest ⊆ wf ->
  result (workflow_loop C fuel h self i rest w) = Ok selfN ->
  agents selfN = agents self
  /\ forall k v, context selfN !! k = Some v ->
       context self !! k = Some v
       \/ exists td agent_type out,
            td ∈ wf /\ td !! "agent" = Some agent_type
            /\ k = agent_type +:+ "_output" /\ v = VStr out.
Proof.
  induction rest as [|td rest IH]; intros self i w selfN Hsub.
  - unfold result. simpl. intros [= <-]. by eauto.
  - cbn [workflow_loop]. unfold bind.
    pose proof (workflow_step_context fuel h self i td w) as Hstep.
    destruct (workflow_step C fuel h self i td w) as [[evs r] w1].
    destruct r as [self1|e|]; try done.
    destruct (Hstep self1 eq_refl) as [Hag Hctx].
    pose proof (IH self1 (S i) w1) as IH'.
    destruct (workflow_loop C fuel h self1 (S i) rest w1) as [[evs2 r2] w2].
    unfold result in *. simpl in *. intros ->.
    destruct (IH' selfN) as [Hag' Hkeys];
      [intros x Hx; apply Hsub; by right|done|].
    split; [congruence|]. intros k v Hk.
    destruct (Hkeys k v Hk) as [Hold|Hnew]; [|by right].
    destruct Hctx as [Hctx|(agent_type & out & Ha & Hctx)]; rewrite Hctx in Hold;
      [by left|].
    apply lookup_union_Some_raw in Hold as [Hs|[_ Hold]]; [|by left].
    apply lookup_singleton_Some in Hs as [<- <-].
    right. exists td, agent_type, out. split; [apply Hsub; by left|done].
Qed.

(** A key that does not end in [t] is no output key: the loop leaves what is
    under it. *)
Lemma workflow_loop_keeps fuel h rest : forall self i w selfN k,
  str_last k <> Some "t"%char ->
  result (workflow_loop C fuel h self i rest w) = Ok selfN ->
  context selfN !! k = context self !! k.
Proof.
  induction rest as [|td rest IH]; intros self i w selfN k Hk.
  - unfold result. simpl. by intros [= <-].
  - cbn [workflow_loop]. unfold bind.
    pose proof (workflow_step_context fuel h self i td w) as Hstep.
    destruct (workflow_step C fuel h self i td w) as [[evs r] w1].
    destruct r as [self1|e|]; try done.
    destruct (Hstep self1 eq_refl) as [_ Hctx].
    pose proof (IH self1 (S i) w1 selfN k Hk) as IH'.
    destruct (workflow_loop C fuel h self1 (S i) rest w1) as [[evs2 r2] w2].
    unfold result in *. simpl in *. intros ->. rewrite (IH' eq_refl).
    destruct Hctx as [->|(agent_type & out & _ & ->)]; [done|].
    rewrite lookup_union_r; [done|].
    apply lookup_singleton_ne. by apply output_key_neq.
Qed.

(** X5. When [run_workflow] has completed, the context is the one it built
    at the start plus outputs: ["initial_workflow"] is the workflow, ["outputs"]
    is still the empty dictionary, every other key is ["<agent>_output"] for
    the agent type of a step of this workflow, with a string under it; nothing
    of an earlier context is left, and the registry reference is unchanged. *)
Theorem workflow_context_after_run fuel h self wf w selfN :
  result (run_workflow C fuel h self wf w) = Ok selfN ->
  agents selfN = agents self
  /\ context selfN !! "initial_workflow"
     = Some (VOther (repr_workflow C wf) (negb (is_nil wf)))
  /\ context selfN !! "outputs" = Some (VOther "{}" false)
  /\ forall k v, context selfN !! k = Some v ->
       k = "initial_workflow" \/ k = "outputs"
       \/ exists td agent_type out,
            td ∈ wf /\ td !! "agent" = Some agent_type
            /\ k = agent_type +:+ "_output" /\ v = VStr out.
Proof.
  rewrite run_workflow_unfold. cbv zeta.
  set (self0 := {| context := initial_context C wf; agents := agents self |}).
  pose proof (workflow_loop_context fuel h wf wf self0 0 w) as Hloop.
  destruct (workflow_loop C fuel h self0 0 wf w) as [[evs r] w1] eqn:Ew.
  destruct r as [selfN'|e|]; unfold result; simpl; try done.
  intros [= ->]. destruct (Hloop selfN) as [Hag Hkeys]; [done..|].
  assert (Hfresh : forall k v, context selfN !! k = Some v ->
            (k = "initial_workflow" \/ k = "outputs") \/
            exists td agent_type out,
              td ∈ wf /\ td !! "agent" = Some agent_type
              /\ k = agent_type +:+ "_output" /\ v = VStr out).
  { intros k v Hk. destruct (Hkeys k v Hk) as [Hold|Hnew]; [left|by right].
    subst self0. cbn [context] in Hold. unfold initial_context in Hold.
    apply lookup_insert_Some in Hold as [[<- _]|[_ Hold]]; [by left|].
    apply lookup_insert_Some in Hold as [[<- _]|[_ Hold]]; [by right|].
    by rewrite lookup_empty in Hold. }
  split; [exact Hag|].
  pose proof (workflow_loop_keeps fuel h wf self0 0 w selfN) as Hkeep.
  rewrite Ew in Hkeep. unfold result in Hkeep. simpl in Hkeep.
  split; [|split].
  - by rewrite (Hkeep "initial_workflow").
  - by rewrite (Hkeep "outputs").
  - intros k v Hk. destruct (Hfresh k v Hk) as [[->| ->]|Hnew]; by eauto.
Qed.
End WorkflowContext.

Lemma workflow_context_after_run_witness :
  exists selfN,
    result (run_workflow echo_world 0 heap0
              {| context := {[ "stale" := VStr "left by an earlier run" ]}; agents := 0 |}
              [step_of "codegen" "A"] tt) = Ok selfN
    /\ context selfN !! "outputs" = Some (VOther "{}" false)
    /\ context selfN !! "stale" = None.
Proof.
  eexists. split; [vm_compute; reflexivity|].
  split.
  - refine (proj1 (proj2 (proj2
              (workflow_context_after_run echo_world 0 heap0
                 {| context := {[ "stale" := VStr "left by an earlier run" ]}; agents := 0 |}
                 [step_of "codegen" "A"] tt _ _)))).
    vm_compute. reflexivity.
  - by vm_compute.
Defined.

(** ** Runs through the orchestrator when [run] cannot be awaited *)

Section AwaitRaises.
Context {W : Type} (C : collaborators W).

(** [run] is the async generator it is written as: awaiting it raises, for
    an agent of class [k], the exception [err k]. *)
Variable err : agent_class -> exn.
Hypothesis run_not_awaitable : forall k, await_run C k = Throws (err k).

Lemma execute_task_Throws fuel self agent task e w :
  await_run C (cls agent) = Throws e ->
  _execute_task C fuel self agent task w = ([EYield (task_error agent e)], Ok tt, w).
Proof.
  intros Haw. unfold _execute_task.
  by rewrite (try_Exc _ _ _ _ _ _
                (bind_Exc _ _ _ _ _ _ (await_agent_run_Throws C agent task _ e w Haw))).
Qed.

Lemma workflow_step_Throws fuel h self i td agent_type task agent e w :
  td !! "agent" = Some agent_type -> opt_truthy (Some agent_type) = true ->
  td !! "task" = Some task -> opt_truthy (Some task) = true ->
  _get_agent h self agent_type = Some agent ->
  await_run C (cls agent) = Throws e ->
  workflow_step C fuel h self i td w
    = ([ESend ("[INFO] Executing task '"
               +:+ default ("Task " +:+ pretty (i + 1)) (td !! "name")
               +:+ "' with agent '" +:+ agent_type +:+ "'.");
        ESend (task_error agent e)],
       Ok (update_context self {[ agent_type +:+ "_output" := VStr (task_error agent e) ]}),
       w).
Proof.
  intros Ha Hat Ht Htt Hag Haw.
  rewrite (workflow_step_executed C fuel h self i td agent_type task agent w Ha Hat Ht Htt Hag).
  by rewrite (execute_task_Throws fuel self agent task e w Haw).
Qed.

(** A step that is not bad names an agent type that resolves and a task. *)
Lemma good_step_inv h self td :
  bad_step h self td = false ->
  exists agent_type task agent,
    td !! "agent" = Some agent_type /\ opt_truthy (Some agent_type) = true
    /\ td !! "task" = Some task /\ opt_truthy (Some task) = true
    /\ _get_agent h self agent_type = Some agent.
Proof.
  unfold bad_step. intros Hgood.
  apply orb_false_iff in Hgood as [Hgood Hreg].
  apply orb_false_iff in Hgood as [Ha Ht].
  apply negb_false_iff in Ha, Ht, Hreg. apply bool_decide_eq_true in Hreg.
  destruct (td !! "agent") as [agent_type|] eqn:Ea; [|done].
  destruct (td !! "task") as [task|] eqn:Et; [|done].
  destruct Hreg as [agent Hag]. by exists agent_type, task, agent.
Qed.

(** Every step ends where it started, but for the context. *)
Lemma workflow_step_ends fuel h self i td w :
  exists evs self1,
    workflow_step C fuel h self i td w = (evs, Ok self1, w)
    /\ 1 <= length evs
    /\ agents self1 = agents self
    /\ if bad_step h self td then self1 = self
       else exists agent_type agent,
              td !! "agent" = Some agent_type
              /\ _get_agent h self agent_type = Some agent
              /\ context self1
                 = {[ agent_type +:+ "_output" := VStr (task_error agent (err (cls agent))) ]}
                   ∪ context self.
Proof.
  destruct (bad_step h self td) eqn:Hbad.
  - destruct (bad_step_skipped C fuel h self i td w Hbad) as [msg E].
    exists [ESend msg], self. by rewrite E.
  - destruct (good_step_inv h self td Hbad) as (agent_type & task & agent & Ha & Hat & Ht & Htt & Hag).
    eexists _, _. split.
    + apply (workflow_step_Throws fuel h self i td agent_type task agent
               (err (cls agent)) w Ha Hat Ht Htt Hag).
      apply run_not_awaitable.
    + split; [simpl; lia|]. split; [done|]. by exists agent_type, agent.
Qed.

Lemma workflow_loop_ends fuel h wf : forall self i w,
  exists evs self1,
    workflow_loop C fuel h self i wf w = (evs, Ok self1, w)
    /\ length wf <= length evs
    /\ agents self1 = agents self.
Proof.
  induction wf as [|td wf IH]; intros self i w.
  - by exists [], self.
  - destruct (workflow_step_ends fuel h self i td w) as (evs & self1 & E & Hlen & Hag & _).
    destruct (IH self1 (S i) w) as (evs2 & self2 & E2 & Hlen2 & Hag2).
    exists (evs ++ evs2), self2. split.
    + cbn [workflow_loop]. rewrite (bind_Ok _ _ _ _ _ _ E), E2. reflexivity.
    + split; [rewrite length_app; simpl; lia|congruence].
Qed.

(** C3. [run_workflow] takes the steps in order: a workflow is its first
    steps followed, in the state they leave, by the others.  A step without
    agent type, without task description or with an agent type the registry
    does not hold costs exactly one error message and leaves the rest of the
    workflow to run in the same state; an executed step costs its two
    messages (the await on [run] raises, so its stream is the one chunk of
    the handler of [_execute_task]) and hands the context with its output to
    the rest; and every workflow, whatever its steps are, returns with the
    notification of completion as its last message, after at least one
    message per step. *)
Theorem run_workflow_skips_bad_steps fuel h self wf w :
  (forall self i td rest w,
      (opt_truthy (td !! "agent") = false ->
       workflow_loop C fuel h self i (td :: rest) w
         = prepend (ESend ("[ERROR] Skipping invalid task '"
                           +:+ default ("Task " +:+ pretty (i + 1)) (td !! "name")
                           +:+ "': missing agent type."))
             (workflow_loop C fuel h self (S i) rest w))
      /\ (opt_truthy (td !! "agent") = true -> opt_truthy (td !! "task") = false ->
          workflow_loop C fuel h self i (td :: rest) w
            = prepend (ESend ("[ERROR] Skipping invalid task '"
                              +:+ default ("Task " +:+ pretty (i + 1)) (td !! "name")
                              +:+ "': missing task description."))
                (workflow_loop C fuel h self (S i) rest w))
      /\ (opt_truthy (td !! "agent") = true -> opt_truthy (td !! "task") = true ->
          _get_agent h self (default "" (td !! "agent")) = None ->
          workflow_loop C fuel h self i (td :: rest) w
            = prepend (ESend ("[ERROR] Agent '" +:+ default "" (td !! "agent")
                              +:+ "' not found for task '"
                              +:+ default ("Task " +:+ pretty (i + 1)) (td !! "name")
                              +:+ "'."))
                (workflow_loop C fuel h self (S i) rest w)))
  /\ (forall self i td rest w agent_type task agent,
        td !! "agent" = Some agent_type -> opt_truthy (Some agent_type) = true ->
        td !! "task" = Some task -> opt_truthy (Some task) = true ->
        _get_agent h self agent_type = Some agent ->
        workflow_loop C fuel h self i (td :: rest) w
          = prepend (ESend ("[INFO] Executing task '"
                            +:+ default ("Task " +:+ pretty (i + 1)) (td !! "name")
                            +:+ "' with agent '" +:+ agent_type +:+ "'."))
              (prepend (ESend (task_error agent (err (cls agent))))
                 (workflow_loop C fuel h
                    (update_context self
                       {[ agent_type +:+ "_output"
                          := VStr (task_error agent (err (cls agent))) ]})
                    (S i) rest w)))
  /\ (forall self i pre post w,
         workflow_loop C fuel h self i (pre ++ post) w
           = bind (workflow_loop C fuel h self i pre)
               (fun self1 => workflow_loop C fuel h self1 (i + length pre) post) w)
  /\ exists evs self1,
       run_workflow C fuel h self wf w
       = (ESend "[INFO] Starting workflow execution..." :: evs ++ [ESend workflow_complete],
          Ok self1, w)
       /\ length wf <= length evs.
Proof.
  split; [|split; [|split]].
  - intros self' i td rest w'. split; [|split]; intros.
    + by apply workflow_loop_cons, workflow_step_missing_agent.
    + by apply workflow_loop_cons, workflow_step_missing_task.
    + by apply workflow_loop_cons, workflow_step_unknown_agent.
  - intros self' i td rest w' agent_type task agent Ha Hat Ht Htt Hag.
    cbn [workflow_loop].
    rewrite (bind_Ok _ _ _ _ _ _
               (workflow_step_Throws fuel h self' i td agent_type task agent _ w'
                  Ha Hat Ht Htt Hag (run_not_awaitable _))).
    reflexivity.
  - intros. apply workflow_loop_app.
  - rewrite run_workflow_unfold. cbv zeta.
    destruct (workflow_loop_ends fuel h wf
                {| context := initial_context C wf; agents := agents self |} 0 w)
      as (evs & self1 & E & Hlen & _).
    rewrite E. by exists evs, self1.
Qed.

Lemma bad_step_agents h s1 s2 td :
  agents s1 = agents s2 -> bad_step h s1 td = bad_step h s2 td.
Proof. unfold bad_step. by intros ->. Qed.

Lemma get_agent_agents h s1 s2 a :
  agents s1 = agents s2 -> _get_agent h s1 a = _get_agent h s2 a.
Proof. unfold _get_agent. by intros ->. Qed.

Lemma executes_agents h s1 s2 a o :
  agents s1 = agents s2 -> executes h s1 a o = executes h s2 a o.
Proof. intros H. destruct o; try done. simpl. by rewrite (bad_step_agents h s1 s2 td H). Qed.

(** The entry of an agent type after a step: what the step stored when it
    was executed with that agent type, what was there otherwise. *)
Lemma workflow_step_entry fuel h self i td w :
  exists evs self1,
    workflow_step C fuel h self i td w = (evs, Ok self1, w)
    /\ agents self1 = agents self
    /\ (forall a, context self1 !! (a +:+ "_output")
                  = if executes h self a (WorkflowStep i td) then stored_error err h self a
                    else context self !! (a +:+ "_output"))
    /\ (forall k, str_last k <> Some "t"%char -> context self1 !! k = context self !! k).
Proof.
  destruct (workflow_step_ends fuel h self i td w) as (evs & self1 & E & _ & Hag & Hctx).
  exists evs, self1. split; [exact E|]. split; [exact Hag|].
  cbn [executes]. destruct (bad_step h self td).
  - subst self1. split; [|done]. intros a. by rewrite andb_false_r.
  - destruct Hctx as (agent_type & agent & Ha & Hget & ->). split.
    + intros a. rewrite andb_true_r. rewrite Ha.
      destruct (decide (agent_type = a)) as [->|Hne].
      * rewrite bool_decide_eq_true_2 by done.
        unfold stored_error. rewrite Hget. cbn [fmap option_fmap option_map].
        by rewrite lookup_union_l', lookup_singleton_eq; [|rewrite lookup_singleton_eq].
      * rewrite bool_decide_eq_false_2 by congruence.
        rewrite lookup_union_r; [done|]. apply lookup_singleton_ne.
        intros Heq. by apply str_app_inv_tail in Heq.
    + intros k Hk. rewrite lookup_union_r; [done|].
      apply lookup_singleton_ne. by apply output_key_neq.
Qed.

Lemma handle_ipc_value fuel h self agent_type task w :
  handle_ipc C fuel h self agent_type task w = ([], Ok (ipc_value err h self agent_type), w).
Proof.
  unfold ipc_value. destruct (_get_agent h self agent_type) as [agent|] eqn:Hag.
  - apply (handle_ipc_Throws C fuel h self agent_type task agent _ w Hag).
    apply run_not_awaitable.
  - unfold handle_ipc. by rewrite Hag.
Qed.

(** One piece of a schedule. *)
Lemma run_op_ends fuel h self o w :
  exists evs self1,
    run_op C fuel h self o w
    = (evs, Ok (self1, match o with
                       | IpcCall agent_type _ => Some (ipc_value err h self agent_type)
                       | _ => None
                       end), w)
    /\ agents self1 = agents self
    /\ (is_ipc o = true -> self1 = self)
    /\ (forall wf, o = WorkflowStart wf -> context self1 = initial_context C wf)
    /\ (is_start o = false ->
        (forall a, context self1 !! (a +:+ "_output")
                   = if executes h self a o then stored_error err h self a
                     else context self !! (a +:+ "_output"))
        /\ (forall k, str_last k <> Some "t"%char -> context self1 !! k = context self !! k)).
Proof.
  destruct o as [wf|i td| |agent_type task]; cbn [run_op is_ipc is_start executes].
  - eexists _, _. rewrite send_bind. split; [reflexivity|].
    repeat split; try done. by intros wf' [= ->].
  - destruct (workflow_step_entry fuel h self i td w) as (evs & self1 & E & Hag & Hout & Hk).
    exists evs, self1. rewrite (bind_Ok _ _ _ _ _ _ E). cbn [ret events result world fst snd].
    rewrite app_nil_r. by repeat split.
  - eexists _, _. rewrite send_bind. split; [reflexivity|]. by repeat split.
  - exists [], self. rewrite (bind_Ok _ _ _ _ _ _ (handle_ipc_value fuel h self agent_type task w)).
    by repeat split.
Qed.

(** A whole schedule: it ends, every IPC call returns its value, IPC calls
    write nothing, and without the start of a workflow the entry of an agent
    type is what an executed step of that type stored, if there is one. *)
Lemma run_ops_ends fuel h self0 ops : forall self w,
  agents self = agents self0 ->
  exists evs self1,
    run_ops C fuel h self ops w = (evs, Ok (self1, ipc_values err h self0 ops), w)
    /\ agents self1 = agents self0
    /\ (forallb is_ipc ops = true -> self1 = self)
    /\ (existsb is_start ops = false ->
        (forall a, context self1 !! (a +:+ "_output")
                   = if existsb (executes h self0 a) ops then stored_error err h self0 a
                     else context self !! (a +:+ "_output"))
        /\ (forall k, str_last k <> Some "t"%char -> context self1 !! k = context self !! k)).
Proof.
  induction ops as [|o ops IH]; intros self w Hag0.
  - exists [], self. by repeat split.
  - destruct (run_op_ends fuel h self o w) as (evs & self1 & E & Hag & Hipc & _ & Hctx).
    destruct (IH self1 w (eq_trans Hag Hag0)) as (evs2 & self2 & E2 & Hag2 & Hipc2 & Hctx2).
    exists (evs ++ evs2), self2. split; [|split; [exact Hag2|split]].
    + cbn [run_ops]. rewrite (bind_Ok _ _ _ _ _ _ E). cbn [events result world fst snd].
      rewrite (bind_Ok _ _ _ _ _ _ E2). cbn [ret events result world fst snd].
      rewrite app_nil_r. do 3 f_equal.
      unfold ipc_values. cbn [omap list_omap].
      destruct o; try done.
      unfold ipc_value. by rewrite (get_agent_agents h self self0 _ Hag0).
    + cbn [forallb]. intros Hall. apply andb_true_iff in Hall as [Ho Hall].
      rewrite (Hipc2 Hall). by apply Hipc.
    + cbn [existsb]. intros Hns. apply orb_false_iff in Hns as [Ho Hns].
      destruct (Hctx Ho) as [Hout Hk]. destruct (Hctx2 Hns) as [Hout2 Hk2].
      split.
      * intros a. rewrite Hout2, Hout.
        rewrite (executes_agents h self self0 a o Hag0).
        unfold stored_error. rewrite (get_agent_agents h self self0 a Hag0).
        destruct (existsb (executes h self0 a) ops); [by rewrite orb_true_r|].
        by rewrite orb_false_r.
      * intros k Hk'. by rewrite Hk2, Hk.
Qed.






Lemma initial_context_output wf a : initial_context C wf !! (a +:+ "_output") = None.
Proof.
  unfold initial_context.
  rewrite !lookup_insert_ne by (apply not_eq_sym, output_key_neq; by vm_compute).
  apply lookup_empty.
Qed.

(** Whatever was scheduled before the start of a workflow is without effect
    on the context that the pieces after it leave. *)
Lemma run_ops_after_start fuel h self0 wf post pre : forall self w,
  agents self = agents self0 ->
  existsb is_start post = false ->
  exists evs self1 results,
    run_ops C fuel h self (pre ++ WorkflowStart wf :: post) w = (evs, Ok (self1, results), w)
    /\ context self1 !! "initial_workflow"
       = Some (VOther (repr_workflow C wf) (negb (is_nil wf)))
    /\ forall a, context self1 !! (a +:+ "_output")
                 = if existsb (executes h self0 a) post then stored_error err h self0 a
                   else None.
Proof.
  induction pre as [|o pre IH]; intros self w Hag0 Hns.
  - cbn [app].
    destruct (run_op_ends fuel h self (WorkflowStart wf) w)
      as (evs & self1 & E & Hag & _ & Hstart & _).
    destruct (run_ops_ends fuel h self0 post self1 w (eq_trans Hag Hag0))
      as (evs2 & self2 & E2 & _ & _ & Hctx).
    destruct (Hctx Hns) as [Hout Hk].
    eexists _, self2, _. split.
    { cbn [run_ops]. rewrite (bind_Ok _ _ _ _ _ _ E). cbn [events result world fst snd].
      rewrite (bind_Ok _ _ _ _ _ _ E2). reflexivity. }
    split.
    + rewrite Hk by (by vm_compute). rewrite (Hstart wf eq_refl).
      unfold initial_context. by rewrite lookup_insert_eq.
    + intros a. rewrite Hout, (Hstart wf eq_refl). by rewrite initial_context_output.
  - cbn [app].
    destruct (run_op_ends fuel h self o w) as (evs & self1 & E & Hag & _).
    destruct (IH self1 w (eq_trans Hag Hag0) Hns) as (evs2 & self2 & rs & E2 & Hctx).
    eexists _, self2, _. split; [|exact Hctx].
    cbn [run_ops]. rewrite (bind_Ok _ _ _ _ _ _ E). cbn [events result world fst snd].
    rewrite (bind_Ok _ _ _ _ _ _ E2). reflexivity.
Qed.

(** C6 (as amended). Whatever pieces of whatever runs are scheduled on one
    orchestrator, in whatever order: every IPC call returns the value it
    returns alone (it reads nothing of the context, the await on [run]
    raising before the agent sees it), and IPC calls write nothing, so a
    schedule of IPC calls leaves the orchestrator it found.  The context
    however is one for all the runs of the instance: after a schedule it holds
    the description of the workflow that started last and, for every agent
    type, the output of the steps of that type executed after that start,
    to whichever workflow those steps belong; what the workflows before it
    had written is gone. *)
Theorem runs_share_the_instance_context fuel h self :
  (forall ops w,
      exists evs self1,
        run_ops C fuel h self ops w = (evs, Ok (self1, ipc_values err h self ops), w)
        /\ (forallb is_ipc ops = true -> self1 = self))
  /\ (forall pre wf post w,
        existsb is_start post = false ->
        exists evs self1 results,
          run_ops C fuel h self (pre ++ WorkflowStart wf :: post) w
          = (evs, Ok (self1, results), w)
          /\ context self1 !! "initial_workflow"
             = Some (VOther (repr_workflow C wf) (negb (is_nil wf)))
          /\ forall agent_type,
               context self1 !! (agent_type +:+ "_output")
               = if existsb (executes h self agent_type) post
                 then stored_error err h self agent_type
                 else None).
Proof.
  split.
  - intros ops w.
    destruct (run_ops_ends fuel h self ops self w eq_refl) as (evs & self1 & E & _ & Hipc & _).
    by exists evs, self1.
  - intros pre wf post w Hns. by apply run_ops_after_start.
Qed.
End AwaitRaises.

Lemma run_workflow_skips_bad_steps_witness :
  exists evs self1,
    run_workflow echo_world 1 heap0 orch0
      [step_of "codegen" "A"; step_of "missing" "B"; step_of "" "C"; step_of "planner" "D"] tt
    = (ESend "[INFO] Starting workflow execution..." :: evs ++ [ESend workflow_complete],
       Ok self1, tt)
    /\ 4 <= length evs.
Proof.
  apply (proj2 (proj2 (proj2
           (run_workflow_skips_bad_steps echo_world (fun _ => not_awaitable)
              (fun _ => eq_refl) 1 heap0 orch0
              [step_of "codegen" "A"; step_of "missing" "B"; step_of "" "C";
               step_of "planner" "D"] tt)))).
Defined.


Lemma runs_share_the_instance_context_witness :
  exists evs self1 results,
    run_ops echo_world 0 heap0 orch0
      ([WorkflowStart [step_of "codegen" "write a parser"]]
       ++ WorkflowStart [step_of "doc" "document the parser"]
       :: [WorkflowStep 0 (step_of "codegen" "write a parser"); WorkflowEnd;
           IpcCall "codegen" "print(1)";
           WorkflowStep 0 (step_of "doc" "document the parser"); WorkflowEnd]) tt
    = (evs, Ok (self1, results), tt)
    /\ context self1 !! "codegen_output"
       = Some (VStr "[ERROR] Unhandled exception in agent 'codegen': object async_generator can't be used in 'await' expression").
Proof.
  destruct (proj2 (runs_share_the_instance_context echo_world (fun _ => not_awaitable)
                     (fun _ => eq_refl) 0 heap0 orch0)
              [WorkflowStart [step_of "codegen" "write a parser"]]
              [step_of "doc" "document the parser"]
              [WorkflowStep 0 (step_of "codegen" "write a parser"); WorkflowEnd;
               IpcCall "codegen" "print(1)";
               WorkflowStep 0 (step_of "doc" "document the parser"); WorkflowEnd] tt eq_refl)
    as (evs & self1 & results & E & _ & Hout).
  exists evs, self1, results. split; [exact E|].
  exact (Hout "codegen").
Defined.

(** Two workflows on one orchestrator.  Alone, the documentation workflow
    leaves a context without any output of the code generator; when its start
    falls between the start and the step of a code generation workflow, the
    context it ends with holds what that step wrote. *)
Lemma workflow_context_holds_the_write_of_another :
  let wf_a := [step_of "codegen" "write a parser"] in
  let wf_b := [step_of "doc" "document the parser"] in
  (exists self_b,
      result (run_workflow echo_world 0 heap0 orch0 wf_b tt) = Ok self_b
      /\ context self_b !! "codegen_output" = None)
  /\ exists self_b results,
       result (run_ops echo_world 0 heap0 orch0
                 [WorkflowStart wf_a; WorkflowStart wf_b;
                  WorkflowStep 0 (step_of "codegen" "write a parser"); WorkflowEnd;
                  WorkflowStep 0 (step_of "doc" "document the parser"); WorkflowEnd] tt)
       = Ok (self_b, results)
       /\ context self_b !! "codegen_output"
          = Some (VStr "[ERROR] Unhandled exception in agent 'codegen': object async_generator can't be used in 'await' expression").
Proof.
  split.
  - eexists. split; vm_compute; reflexivity.
  - eexists _, _. split; vm_compute; reflexivity.
Qed.

(** ** Agents that need files *)

Section OtherAgents.
Context {W : Type} (C : collaborators W).
Variable ctx : pydict.
Hypothesis ctx_file_free : file_free ctx.

Lemma always_call2 {A} (Q : list event -> res A -> Prop) (o : W -> outcome A * W) :
  (forall a, Q [] (Ok a)) -> (forall e, Q [] (Exc e)) -> always (call o) Q.
Proof.
  intros H1 H2 w. unfold call. destruct (o w) as [[a|e] w1]; [apply H1|apply H2].
Qed.

Lemma always_buffer2 (Q : list event -> res string -> Prop) self prompt task c :
  (forall a, Q [] (Ok a)) -> (forall e, Q [] (Exc e)) ->
  always (buffer_llm_response C self prompt task c) Q.
Proof.
  intros H1 H2 w. unfold buffer_llm_response.
  destruct (execute_llm C self prompt task c w) as [[cs [e|]] w1]; [apply H2|apply H1].
Qed.

Lemma DocAgent_body_missing_id self task w :
  exists evs e, DocAgent_body C self task ctx w = (evs, Exc e, w).
Proof.
  destruct ctx_file_free as (Hop & Hid & _).
  unfold DocAgent_body, DocAgent_prepare_and_construct_prompt, dict_get_or, dict_get.
  rewrite Hop, Hid. by eexists _, _.
Qed.

Lemma QaAgent_body_missing_id self task w :
  exists evs e, QaAgent_body C self task ctx w = (evs, Exc e, w).
Proof.
  destruct ctx_file_free as (Hop & Hid & _).
  unfold QaAgent_body, QaAgent_prepare_and_construct_prompt, dict_get_or, dict_get.
  rewrite Hop, Hid. by eexists _, _.
Qed.

Lemma TestAgent_body_missing_id sc self task w :
  TestAgent_body C sc self task ctx
    (dict_get_or ctx "operation_type" (VStr "generate_tests")) w
    = ([], Exc (Exn ValueError "Missing 'gdrive_file_id' in context."), w).
Proof.
  destruct ctx_file_free as (Hop & Hid & _).
  unfold TestAgent_body, TestAgent_prepare_and_construct_prompt, dict_get_or, dict_get.
  rewrite Hop, Hid. reflexivity.
Qed.

(** Without a folder the plan cannot be saved, whatever the LLM answers. *)
Lemma PlannerAgent_body_fails self task :
  always (PlannerAgent_body C self task ctx) (fun _ r => exists e, r = Exc e).
Proof.
  destruct ctx_file_free as (_ & _ & Hparent).
  unfold PlannerAgent_body, _construct_prompt, _enforce_agent_rules, dict_get.
  rewrite Hparent. cbn [from_option id truthy negb].
  apply always_bind, always_yield. cbv beta iota.
  apply always_bind, always_call2; [intros prompt|by eauto]. cbv beta iota.
  apply always_bind, always_yield. cbv beta iota.
  apply always_bind, always_buffer2; [intros full|by eauto]. cbv beta iota.
  apply always_bind, always_yield. cbv beta iota.
  destruct (invalid_response full); [apply always_raise; by eauto|].
  apply always_bind, always_call2; [intros vs|by eauto]. cbv beta iota.
  destruct (negb (is_nil vs)); [apply always_raise; by eauto|].
  apply always_bind, always_yield. cbv beta iota.
  apply always_raise. by eauto.
Qed.

(** X6. On a context that names no operation, no source file and no folder,
    only the lifecycle of the code generator can complete: the [try] block of
    [run] of a documentation, fix, planning, QA or test agent raises there,
    whatever the collaborators answer, so that every such run goes on with
    the handler and the coordinator. *)
Theorem lifecycles_that_need_files_fail sc agent task w :
  cls agent <> CodeGenAgent ->
  exists e, result (try_block C sc agent task ctx w) = Exc e.
Proof.
  intros Hcls. unfold try_block.
  destruct ctx_file_free as (Hop & Hid & Hparent).
  destruct (cls agent); try done.
  - destruct (DocAgent_body_missing_id agent task w) as (evs & e & ->). by exists e.
  - rewrite (FixAgent_body_missing_id C ctx Hop Hid). by eexists.
  - apply PlannerAgent_body_fails.
  - destruct (QaAgent_body_missing_id agent task w) as (evs & e & ->). by exists e.
  - rewrite TestAgent_body_missing_id. by eexists.
Qed.
End OtherAgents.

Lemma lifecycles_that_need_files_fail_witness :
  exists e,
    result (try_block echo_world (agent_self_correct echo_world 0)
              (agent_of QaAgent "qa") "is this code safe?" ∅ tt) = Exc e.
Proof.
  apply (lifecycles_that_need_files_fail echo_world ∅).
  - by repeat split.
  - discriminate.
Defined.

(** * Further properties: error handling and the server *)

(** ** The retry decorator *)

Section RetryProperties.
Context {W A : Type}.
Variable max_retries : Z.
Variable func_name args kwargs : string.
Variable func : W -> attempt_result A * W.

Lemma calls_cons_call evs : calls (RCall :: evs) = S (calls evs).
Proof. reflexivity. Qed.

Lemma calls_cons_sleep s evs : calls (RSleep s :: evs) = calls evs.
Proof. reflexivity. Qed.

Lemma sleeps_cons_call evs : sleeps (RCall :: evs) = sleeps evs.
Proof. reflexivity. Qed.

Lemma sleeps_cons_sleep s evs : sleeps (RSleep s :: evs) = s :: sleeps evs.
Proof. reflexivity. Qed.

Lemma handle_error_async_queue h e c :
  _error_queue (handle_error_async h e c).2
  = _error_queue h
      ++ [error_context_of (default (AsyncApplicationError "Unknown error" "E999" ∅) e) c].
Proof. reflexivity. Qed.

(** The loop from attempt [i] on, when [i] is not past the last attempt that
    is allowed to fail. *)
Lemma wrapper_loop_spec (len : nat) : forall (i : Z) last w h,
  (0 <= i)%Z -> (i + Z.of_nat len = max_retries + 1)%Z -> (i <= max_retries - 1)%Z ->
  let out := wrapper_loop max_retries func_name args kwargs func (seqZ i (Z.of_nat len))
               last w h in
  exists k : nat,
    (1 <= k)%nat /\ (i + Z.of_nat k <= max_retries)%Z
    /\ calls out.1.1 = k
    /\ out.2.1 = Nat.iter k (fun w => (func w).2) w
    /\ sleeps out.1.1 = (fun a => 2 ^ a)%Z <$> seqZ i (Z.of_nat (k - 1))
    /\ match out.1.2 with
       | Returned a =>
           (func (Nat.iter (k - 1) (fun w => (func w).2) w)).1 = Returned a
           /\ length (_error_queue out.2.2) = (length (_error_queue h) + (k - 1))%nat
       | Failed e =>
           (i + Z.of_nat k = max_retries)%Z
           /\ length (_error_queue out.2.2) = (length (_error_queue h) + k)%nat
           /\ exists last,
                (func (Nat.iter (k - 1) (fun w => (func w).2) w)).1 = Failed last
                /\ e = AsyncApplicationError
                         ("Max retries (" +:+ pretty max_retries +:+ ") exceeded for "
                          +:+ func_name +:+ ": " +:+ error_str last)
                         "E999"
                         (retry_context max_retries func_name args kwargs (max_retries - 1))
       end.
Proof.
  induction len as [|len IH]; intros i last w h Hi Hlen Hlt; [lia|].
  rewrite seqZ_cons by lia. cbn [wrapper_loop].
  destruct (func w) as [[a|e] w1] eqn:Ef.
  - exists 1%nat. cbn [fst snd Nat.sub]. unfold Nat.iter. cbn [nat_rect].
    rewrite Ef. cbn [fst snd].
    repeat split; try done; try lia.
  - destruct (i =? max_retries - 1)%Z eqn:Ei.
    + apply Z.eqb_eq in Ei. exists 1%nat. cbn [fst snd Nat.sub]. unfold Nat.iter. cbn [nat_rect].
      rewrite Ef. cbn [fst snd].
      repeat split; try done; try lia.
      * rewrite handle_error_async_queue, length_app. simpl. lia.
      * exists e. split; [done|]. by rewrite Ei.
    + apply Z.eqb_neq in Ei.
      set (h1 := (handle_error_async h (Some e) _).2).
      replace (Z.pred (Z.of_nat (S len))) with (Z.of_nat len) by lia.
      specialize (IH (Z.succ i) (Some e) w1 h1).
      destruct IH as (k & Hk1 & Hk2 & Hcalls & Hw & Hsl & Hres); [lia..|].
      destruct (wrapper_loop _ _ _ _ _ _ _ _ _) as [[evs r] [w' h']].
      cbn [fst snd] in *.
      exists (S k). rewrite calls_cons_call, calls_cons_sleep.
      assert (Hq : length (_error_queue h1) = S (length (_error_queue h))).
      { subst h1. rewrite handle_error_async_queue, length_app. simpl. lia. }
      assert (Hiter : forall m, Nat.iter m (fun w => (func w).2) w1
                                = Nat.iter (S m) (fun w => (func w).2) w).
      { intros m. rewrite Nat.iter_succ_r. by rewrite Ef. }
      split; [lia|]. split; [lia|]. split; [lia|]. split; [by rewrite Hw, Hiter|]. split.
      * rewrite sleeps_cons_call, sleeps_cons_sleep, Hsl.
        replace (S k - 1)%nat with (S (k - 1)) by lia.
        rewrite (seqZ_cons i) by lia. rewrite fmap_cons.
        by replace (Z.pred (Z.of_nat (S (k - 1)))) with (Z.of_nat (k - 1)) by lia.
      * replace (S k - 1)%nat with (S (k - 1)) by lia. rewrite <- Hiter.
        destruct r as [a|e'].
        -- destruct Hres as [Hr Hlen']. split; [done|]. lia.
        -- destruct Hres as (Hik & Hlen' & last' & Hl & ->).
           split; [lia|]. split; [lia|]. by exists last'.
Qed.

(** X8. A decorator built with [max_retries >= 1] calls the function at most
    [max_retries] times, not [max_retries + 1]: the call that fails at attempt
    [max_retries - 1] ends the loop with an [AsyncApplicationError] that
    carries the text of that last failure.  The calls are made one after the
    other on the state the previous one left; before call number [j + 2] the
    wrapper sleeps [2 ^ j] seconds; every failure is handed to the error
    handler; and a result, when there is one, is the function's own. *)
Theorem retry_stops_after_max_retries_calls w h :
  (1 <= max_retries)%Z ->
  let out := wrapper max_retries func_name args kwargs func w h in
  exists k : nat,
    (1 <= k)%nat /\ (Z.of_nat k <= max_retries)%Z
    /\ calls out.1.1 = k
    /\ out.2.1 = Nat.iter k (fun w => (func w).2) w
    /\ sleeps out.1.1 = (fun a => 2 ^ a)%Z <$> seqZ 0 (Z.of_nat (k - 1))
    /\ match out.1.2 with
       | Returned a =>
           (func (Nat.iter (k - 1) (fun w => (func w).2) w)).1 = Returned a
           /\ length (_error_queue out.2.2) = (length (_error_queue h) + (k - 1))%nat
       | Failed e =>
           Z.of_nat k = max_retries
           /\ length (_error_queue out.2.2) = (length (_error_queue h) + k)%nat
           /\ exists last,
                (func (Nat.iter (k - 1) (fun w => (func w).2) w)).1 = Failed last
                /\ e = AsyncApplicationError
                         ("Max retries (" +:+ pretty max_retries +:+ ") exceeded for "
                          +:+ func_name +:+ ": " +:+ error_str last)
                         "E999"
                         (retry_context max_retries func_name args kwargs (max_retries - 1))
       end.
Proof.
  intros Hn. unfold wrapper.
  pose proof (wrapper_loop_spec (Z.to_nat (max_retries + 1)) 0 None w h) as H.
  rewrite Z2Nat.id in H by lia.
  destruct H as (k & H1 & H2 & H3 & H4 & H5 & H6); [lia..|].
  exists k. repeat split; try done; lia.
Qed.

(** X9. With [max_retries = 0] the function is called once, and when it fails
    the wrapper still hands the error to the handler and sleeps one second
    before it raises the function's own error again; with a negative
    [max_retries] the function is never called and the wrapper raises
    ["Unknown error occurred after max retries"]. *)
Theorem retry_without_retries w h :
  (max_retries <= 0)%Z ->
  wrapper max_retries func_name args kwargs func w h
  = if (max_retries =? 0)%Z then
      match func w with
      | (Returned a, w1) => ([RCall], Returned a, (w1, h))
      | (Failed e, w1) =>
          ([RCall; RSleep 1], Failed e,
           (w1, (handle_error_async h (Some e)
                   (Some (retry_context 0 func_name args kwargs 0))).2))
      end
    else
      ([], Failed (Raised (Exn OtherException "Unknown error occurred after max retries")),
       (w, h)).
Proof.
  intros Hn. unfold wrapper.
  destruct (max_retries =? 0)%Z eqn:E.
  - apply Z.eqb_eq in E. subst max_retries.
    change (seqZ 0 (0 + 1)) with [0%Z]. cbn [wrapper_loop].
    destruct (func w) as [[a|e] w1]; reflexivity.
  - apply Z.eqb_neq in E. unfold seqZ.
    replace (Z.to_nat (max_retries + 1)) with 0%nat by lia. reflexivity.
Qed.
End RetryProperties.

Lemma retry_stops_after_max_retries_calls_witness :
  exists k : nat,
    (Z.of_nat k <= 3)%Z
    /\ calls (wrapper 3 "fetch" "()" "{}"
                (fun n : nat => (if (n <? 5)%nat
                                 then Failed (Raised (Exn IOError "timeout"))
                                 else Returned n, S n))
                0%nat StreamingErrorHandler_init).1.1 = k.
Proof.
  destruct (retry_stops_after_max_retries_calls 3 "fetch" "()" "{}"
              (fun n : nat => (if (n <? 5)%nat
                               then Failed (Raised (Exn IOError "timeout"))
                               else Returned n, S n))
              0%nat StreamingErrorHandler_init) as (k & _ & Hk & Hc & _); [lia|].
  exists k. by split.
Defined.

Lemma retry_without_retries_witness :
  wrapper 0 "fetch" "()" "{}"
    (fun w : unit => (@Failed nat (Raised (Exn IOError "timeout")), w))
    tt StreamingErrorHandler_init
  = ([RCall; RSleep 1], Failed (Raised (Exn IOError "timeout")),
     (tt, (handle_error_async StreamingErrorHandler_init
             (Some (Raised (Exn IOError "timeout")))
             (Some (retry_context 0 "fetch" "()" "{}" 0))).2)).
Proof.
  apply (retry_without_retries 0 "fetch" "()" "{}"
           (fun w : unit => (@Failed nat (Raised (Exn IOError "timeout")), w))
           tt StreamingErrorHandler_init).
  lia.
Defined.

(** ** The error cache *)

Lemma handle_error_async_queue1 h e c :
  _error_queue (handle_error_async h (Some e) c).2 = _error_queue h ++ [error_context_of e c].
Proof. reflexivity. Qed.

Lemma handle_error_async_context h e c :
  (handle_error_async h (Some e) c).1 = error_context_of e c.
Proof. reflexivity. Qed.

Lemma handle_error_async_cache h e c :
  length (_error_cache h) <= _max_cache_size ->
  _error_cache (handle_error_async h (Some e) c).2
  = drop (length (_error_cache h ++ [error_context_of e c]) - _max_cache_size)
      (_error_cache h ++ [error_context_of e c]).
Proof.
  intros Hlen. unfold handle_error_async. cbn [snd _error_cache from_option id].
  rewrite length_app. cbn [length].
  destruct (Nat.ltb_spec _max_cache_size (length (_error_cache h) + 1)) as [Hlt|Hge].
  - replace (length (_error_cache h) + 1 - _max_cache_size) with 1 by lia.
    by destruct (_error_cache h ++ [error_context_of e c]).
  - by replace (length (_error_cache h) + 1 - _max_cache_size) with 0 by lia.
Qed.

Lemma handle_error_async_bound h e c :
  length (_error_cache h) <= _max_cache_size ->
  length (_error_cache (handle_error_async h (Some e) c).2) <= _max_cache_size.
Proof.
  intros Hlen. rewrite handle_error_async_cache by done.
  rewrite length_drop, length_app. cbn [length]. lia.
Qed.

Lemma handle_error_async_total h e c :
  _state (handle_error_async h (Some e) c).2 !! "total_errors"
  = Some (py_int (Z.of_nat (length (_error_cache (handle_error_async h (Some e) c).2)))).
Proof.
  unfold handle_error_async. cbn [snd _state _error_cache]. unfold update_state.
  apply lookup_union_Some_l. by rewrite lookup_insert_eq.
Qed.

Lemma handle_error_async_last h e c :
  _state (handle_error_async h (Some e) c).2 !! "last_error" = Some (VStr (error_str e)).
Proof.
  unfold handle_error_async. cbn [snd _state]. unfold update_state.
  apply lookup_union_Some_l. rewrite lookup_insert_ne by done.
  by rewrite lookup_singleton_eq.
Qed.

Lemma handle_errors_snoc h errs ec :
  handle_errors h (errs ++ [ec])
  = (handle_error_async (handle_errors h errs) (Some ec.1) ec.2).2.
Proof. unfold handle_errors. by rewrite fold_left_app. Qed.

(** X10. The cache of the error handler is a bounded queue: after any series
    of errors it holds the most recent [_max_cache_size] (1000) of the entries
    it held and the errors handled since, oldest first, while the queue read
    by [stream_errors] holds every one of them; and the ["total_errors"] of
    the state is the length of the cache, so it stops counting at 1000. *)
Theorem error_cache_keeps_the_most_recent h errs :
  length (_error_cache h) <= _max_cache_size ->
  let h' := handle_errors h errs in
  let new := map (fun ec => error_context_of ec.1 ec.2) errs in
  let all := _error_cache h ++ new in
  _error_cache h' = drop (length all - _max_cache_size) all
  /\ _error_queue h' = _error_queue h ++ new
  /\ (errs <> [] ->
      _state h' !! "total_errors"
      = Some (py_int (Z.of_nat (Nat.min (length all) _max_cache_size)))
      /\ _state h' !! "last_error" = (fun ec => VStr (error_str ec.1)) <$> last errs).
Proof.
  intros Hlen. induction errs as [|ec errs IH] using rev_ind.
  - cbn zeta. cbn [map handle_errors fold_left]. rewrite !app_nil_r.
    replace (length (_error_cache h) - _max_cache_size) with 0 by lia.
    split; [by rewrite drop_0|]. split; [done|]. by intros [].
  - cbn zeta in *. destruct IH as (IHc & IHq & _).
    rewrite handle_errors_snoc, map_app. cbn [map].
    set (h1 := handle_errors h errs) in *.
    set (new := map _ errs) in *.
    assert (Hb : length (_error_cache h1) <= _max_cache_size).
    { rewrite IHc, length_drop. lia. }
    split; [|split].
    + rewrite handle_error_async_cache by done. rewrite IHc.
      rewrite !length_app, length_drop, length_app. cbn [length].
      set (x := error_context_of ec.1 ec.2).
      set (c := _error_cache h) in *.
      destruct (Nat.le_gt_cases (length c + length new) _max_cache_size) as [Hle|Hgt].
      * replace (length c + length new - _max_cache_size) with 0 by lia.
        rewrite drop_0, app_assoc. f_equal. lia.
      * rewrite <- (length_app c new).
        rewrite <- drop_app_le by (rewrite length_app; lia).
        rewrite drop_drop, <- app_assoc. f_equal. rewrite !length_app. cbn [length]. lia.
    + rewrite handle_error_async_queue1, IHq. by rewrite <- app_assoc.
    + intros _. split.
      * rewrite handle_error_async_total, handle_error_async_cache by done.
        rewrite IHc, length_drop, !length_app, length_drop, length_app. cbn [length].
        do 3 f_equal. lia.
      * rewrite handle_error_async_last, last_snoc. done.
Qed.

Lemma error_cache_keeps_the_most_recent_witness :
  _error_queue (handle_errors StreamingErrorHandler_init
                  [(Raised (Exn IOError "disk full"), None);
                   (AsyncApplicationError "bad input" "E001" ∅, None)])
  = [error_context_of (Raised (Exn IOError "disk full")) None;
     error_context_of (AsyncApplicationError "bad input" "E001" ∅) None].
Proof.
  destruct (error_cache_keeps_the_most_recent StreamingErrorHandler_init
              [(Raised (Exn IOError "disk full"), None);
               (AsyncApplicationError "bad input" "E001" ∅, None)]) as (_ & Hq & _).
  - unfold _max_cache_size. cbn [StreamingErrorHandler_init _error_cache length]. lia.
  - exact Hq.
Defined.

(** X11. [get_recent_errors(limit)] returns the last [limit] entries of the
    cache only for a positive [limit]: with [limit = 0] it returns the whole
    cache, and with a negative one it drops the oldest [-limit] entries.  Asked
    for one entry right after an error was handled, it returns the context of
    that error. *)
Theorem get_recent_errors_slices h limit e c :
  get_recent_errors h limit
  = (if (0 <? limit)%Z then drop (length (_error_cache h) - Z.to_nat limit) (_error_cache h)
     else if (limit =? 0)%Z then _error_cache h
     else drop (Z.to_nat (- limit)) (_error_cache h))
  /\ get_recent_errors (handle_error_async h (Some e) c).2 1 = [error_context_of e c].
Proof.
  split.
  - unfold get_recent_errors, slice_from.
    destruct (_error_cache h) as [|x l] eqn:El.
    { cbn [is_nil negb]. repeat case_match; by rewrite ?drop_nil. }
    cbn [is_nil negb]. rewrite <- El. clear El.
    destruct (Z.ltb_spec 0 limit) as [Hpos|Hle].
    + destruct (Z.ltb_spec (- limit) 0); [|lia]. f_equal. lia.
    + destruct (Z.ltb_spec (- limit) 0); [lia|].
      destruct (Z.eqb_spec limit 0) as [->|Hne]; [done|done].
  - unfold get_recent_errors, slice_from, handle_error_async.
    cbn [snd _error_cache].
    set (x := error_context_of _ c).
    assert (Hlast : forall l : list ErrorContext,
               l <> [] -> last l = Some x ->
               (if negb (is_nil l)
                then drop (Z.to_nat (if (Z.opp 1 <? 0)%Z
                                     then Z.max (Z.of_nat (length l) + Z.opp 1) 0
                                     else Z.opp 1)%Z) l
                else []) = [x]).
    { intros l0 Hne Hl. apply last_Some in Hl as [l ->].
      replace (is_nil (l ++ [x])) with false by (by destruct l). cbn [negb].
      change (Z.opp 1 <? 0)%Z with true. cbv iota.
      rewrite length_app. cbn [length].
      replace (Z.to_nat (Z.max (Z.of_nat (length l + 1) + Z.opp 1) 0)) with (length l) by lia.
      by rewrite drop_app_length. }
    destruct (_max_cache_size <? _)%nat eqn:Elt.
    + apply Nat.ltb_lt in Elt. rewrite length_app in Elt. cbn [length] in Elt.
      destruct (_error_cache h) as [|y l] eqn:El.
      { cbn [length] in Elt. unfold _max_cache_size in Elt. lia. }
      cbn [app tail]. apply Hlast.
      * by destruct l.
      * by rewrite last_snoc.
    + apply Hlast; [by destruct (_error_cache h)|by rewrite last_snoc].
Qed.

(** ** The error message system *)

Ltac pick_headline :=
  let go h := (exists h; split; [reflexivity|split; [set_solver|done]]) in
  first [ go "Invalid input" | go "Configuration validation failed"
        | go "LLM call failed or timed out" | go "File operation error"
        | go "Agent self-correction attempt failed" | go "Unknown error" ].

Lemma error_templates_cases error_type :
  exists headline,
    default (_error_templates !!! "E999") (_error_templates !! error_type)
    = headline +:+ ": {details}"
    /\ headline ∈ ["Invalid input"; "Configuration validation failed";
                   "LLM call failed or timed out"; "File operation error";
                   "Agent self-correction attempt failed"; "Unknown error"]
    /\ (_error_templates !! error_type = None -> headline = "Unknown error").
Proof.
  change (_error_templates !!! "E999") with "Unknown error: {details}".
  destruct (_error_templates !! error_type) as [t|] eqn:E.
  - assert (Hin : t ∈ ["Invalid input: {details}";
                          "Configuration validation failed: {details}";
                          "LLM call failed or timed out: {details}";
                          "File operation error: {details}";
                          "Agent self-correction attempt failed: {details}";
                          "Unknown error: {details}"]).
    { unfold _error_templates in E.
      repeat (apply lookup_insert_Some in E as [[_ <-]|[_ E]]; [set_solver|]).
      apply lookup_singleton_Some in E as [_ <-]. set_solver. }
    cbn [from_option id].
    repeat (apply elem_of_cons in Hin as [->|Hin]; [pick_headline|]).
    by apply elem_of_nil in Hin.
  - exists "Unknown error". split; [done|]. split; [set_solver|done].
Qed.

Ltac run_format H :=
  match goal with
  | |- context [str_format ?t None _] =>
      let t' := eval vm_compute in t in change t with t'
  end;
  cbn [str_format Ascii.eqb Bool.eqb];
  match goal with |- context [?kw !! ?k] => change k with "details" end;
  rewrite H; cbv beta iota.

Lemma str_format_details headline kw :
  headline ∈ ["Invalid input"; "Configuration validation failed";
              "LLM call failed or timed out"; "File operation error";
              "Agent self-correction attempt failed"; "Unknown error"] ->
  str_format (headline +:+ ": {details}") None kw
  = match kw !! "details" with
    | None => inr (Exn KeyError "'details'")
    | Some v => inl (headline +:+ ": " +:+ py_str v)
    end.
Proof.
  intros Hin. destruct (kw !! "details") as [v|] eqn:Hd.
  - repeat (apply elem_of_cons in Hin as [->|Hin];
            [run_format Hd; rewrite str_app_nil_r; reflexivity|]).
    by apply elem_of_nil in Hin.
  - repeat (apply elem_of_cons in Hin as [->|Hin];
            [run_format Hd; reflexivity|]).
    by apply elem_of_nil in Hin.
Qed.

Lemma format_error_streaming_without_details {W} error_type context (w : W) :
  context !! "details" = None ->
  format_error_streaming error_type context w = ([], Exc (Exn KeyError "'details'"), w).
Proof.
  intros Hd. destruct (error_templates_cases error_type) as (headline & Ht & Hin & Hnone).
  unfold format_error_streaming. by rewrite Ht, (str_format_details _ _ Hin), Hd.
Qed.

Lemma format_error_streaming_with_details {W} error_type context (w : W) v :
  context !! "details" = Some v ->
  exists headline,
    default (_error_templates !!! "E999") (_error_templates !! error_type)
    = headline +:+ ": {details}"
    /\ (_error_templates !! error_type = None -> headline = "Unknown error")
    /\ format_error_streaming error_type context w
       = (map EYield
            ([headline +:+ ": " +:+ py_str v]
             ++ (if truthy v then ["Details: " +:+ py_str v] else [])
             ++ (if truthy (dict_get context "resolution_hint")
                 then ["Resolution: " +:+ py_str (dict_get context "resolution_hint")]
                 else [])),
          Ok tt, w).
Proof.
  intros Hd. destruct (error_templates_cases error_type) as (headline & Ht & Hin & Hnone).
  unfold format_error_streaming. rewrite Ht, (str_format_details _ _ Hin), Hd.
  exists headline. split; [done|]. split; [done|].
  unfold dict_get at 1 2. rewrite Hd. cbn [from_option id].
  unfold bind, yield, emit, ret.
  by destruct (truthy v), (truthy (dict_get context "resolution_hint")).
Qed.

(** X12. An error cannot be formatted without its details: every template
    has a [{details}] field, so when the context has no ["details"] entry
    [format_error_streaming] raises [KeyError] before it yields anything, for
    every error type.  With the entry it yields the headline of the error type
    (the one of [E999] for a type it does not know) followed by the details,
    then the details again when they are not empty, then the resolution hint
    when there is one: one to three messages. *)
Theorem format_error_needs_details {W} error_type context (w : W) :
  match context !! "details" with
  | None =>
      format_error_streaming error_type context w = ([], Exc (Exn KeyError "'details'"), w)
  | Some v =>
      exists headline,
        default (_error_templates !!! "E999") (_error_templates !! error_type)
        = headline +:+ ": {details}"
        /\ (_error_templates !! error_type = None -> headline = "Unknown error")
        /\ format_error_streaming error_type context w
           = (map EYield
                ([headline +:+ ": " +:+ py_str v]
                 ++ (if truthy v then ["Details: " +:+ py_str v] else [])
                 ++ (if truthy (dict_get context "resolution_hint")
                     then ["Resolution: " +:+ py_str (dict_get context "resolution_hint")]
                     else [])),
              Ok tt, w)
  end.
Proof.
  destruct (context !! "details") as [v|] eqn:Hd.
  - by apply format_error_streaming_with_details.
  - by apply format_error_streaming_without_details.
Qed.

Lemma str_app_inj_l p s1 s2 : p +:+ s1 = p +:+ s2 -> s1 = s2.
Proof.
  induction p as [|c p IH]; [done|].
  change (String c (p +:+ s1) = String c (p +:+ s2) -> s1 = s2).
  intros [= H]. by apply IH.
Qed.

Ltac same_headline Ht :=
  first
    [ done
    | match type of Ht with
      | ?l = _ => let l' := eval vm_compute in l in change l with l' in Ht
      end;
      apply (str_app_inv_tail _ _ ": {details}"); exact Ht ].

(** X18. The two tables of error messages agree on every code but one: for
    an error with details, [get_error_message] gives the code in brackets
    followed by the first message of [format_error_streaming], for codes both
    tables know and for codes neither knows, except for [E002], which is
    "Config validation failed" in the one and "Configuration validation
    failed" in the other. *)
Theorem error_message_tables_differ_on_E002 {W} code detail context (w : W) :
  truthy detail = true ->
  context !! "details" = Some detail ->
  (exists first rest,
      chunks_of (events (format_error_streaming code context w)) = first :: rest
      /\ (get_error_message code detail = "[" +:+ code +:+ "] " +:+ first
          <-> code <> "E002")).
Proof.
  intros Htruthy Hd.
  destruct (format_error_streaming_with_details code context w detail Hd)
    as (headline & Ht & Hnone & Hrun).
  rewrite Hrun. cbn [events fst snd map app chunks_of].
  eexists _, _. split; [reflexivity|].
  unfold get_error_message. rewrite Htruthy.
  change (ERROR_CODES !!! "E999") with "Unknown error".
  change (_error_templates !!! "E999") with "Unknown error: {details}" in Ht.
  split.
  - intros Heq ->. apply str_app_inj_l in Heq.
    change (_error_templates !! "E002")
      with (Some "Configuration validation failed: {details}") in Ht.
    change (ERROR_CODES !! "E002") with (Some "Config validation failed") in Heq.
    cbn [from_option id] in Ht, Heq.
    assert (headline = "Configuration validation failed") as ->.
    { change ("Configuration validation failed: {details}")
        with ("Configuration validation failed" +:+ ": {details}") in Ht.
      by apply str_app_inv_tail in Ht. }
    cbv [String.append] in Heq. congruence.
  - intros Hne.
    assert (Hm : default "Unknown error" (ERROR_CODES !! code) = headline);
      [|by rewrite Hm].
    destruct (ERROR_CODES !! code) as [m|] eqn:Em; cbn [from_option id].
    + unfold ERROR_CODES in Em.
      repeat (apply lookup_insert_Some in Em as [[<- <-]|[? Em]]; [same_headline Ht|]).
      apply lookup_singleton_Some in Em as [<- <-]. same_headline Ht.
    + rewrite Hnone; [done|].
      unfold ERROR_CODES in Em. unfold _error_templates.
      repeat (apply lookup_insert_None in Em as [Em ?]; rewrite lookup_insert_ne by done).
      apply lookup_singleton_None in Em. by rewrite lookup_singleton_ne.
Qed.

Lemma error_message_tables_differ_on_E002_witness :
  exists first rest,
    chunks_of (events (format_error_streaming "E002"
                         {[ "details" := VStr "no schema" ]} tt)) = first :: rest
    /\ (get_error_message "E002" (VStr "no schema") = "[" +:+ "E002" +:+ "] " +:+ first
        <-> "E002" <> "E002").
Proof.
  apply (error_message_tables_differ_on_E002 "E002" (VStr "no schema")
           {[ "details" := VStr "no schema" ]} tt); reflexivity.
Defined.

(** ** The websocket protocol *)

Lemma str_split_0 sep s : str_split sep 0 s = [s].
Proof. by destruct s. Qed.

Lemma str_split_no_sep sep n r : has_char sep r = false -> str_split sep n r = [r].
Proof.
  revert n. induction r as [|c r IH]; intros n H.
  - by destruct n.
  - destruct n as [|n]; [done|]. cbn [has_char] in H.
    apply orb_false_iff in H as [Hc Hr]. cbn [str_split]. rewrite Hc.
    by rewrite (IH (S n) Hr).
Qed.

Lemma str_split_first sep n a t :
  has_char sep a = false ->
  str_split sep (S n) (a +:+ String sep t) = a :: str_split sep n t.
Proof.
  induction a as [|c a IH]; intros H.
  - change ("" +:+ String sep t) with (String sep t). cbn [str_split].
    by rewrite Ascii.eqb_refl.
  - cbn [has_char] in H. apply orb_false_iff in H as [Hc Ha].
    change (String c a +:+ String sep t) with (String c (a +:+ String sep t)).
    cbn [str_split]. rewrite Hc. by rewrite (IH Ha).
Qed.

Lemma has_char_decompose sep r :
  has_char sep r = true ->
  exists a t, has_char sep a = false /\ r = a +:+ String sep t.
Proof.
  induction r as [|c r IH]; [done|]. cbn [has_char].
  destruct (Ascii.eqb c sep) eqn:Hc.
  - intros _. apply Ascii.eqb_eq in Hc as ->. by exists "", r.
  - intros H. destruct (IH H) as (a & t & Ha & ->).
    exists (String c a), t. split; [|done]. cbn [has_char]. by rewrite Hc.
Qed.

Lemma startswith_app s p : startswith s p = true <-> exists r, s = p +:+ r.
Proof.
  unfold startswith. revert s. induction p as [|c p IH]; intros s.
  - split; [intros _; by exists s|]. by destruct s.
  - destruct s as [|d s].
    + split; [done|]. by intros [r Hr].
    + cbn [String.prefix]. destruct (ascii_dec c d) as [->|Hne].
      * rewrite IH. split; intros [r Hr]; exists r.
        -- by rewrite Hr.
        -- change (String d p +:+ r) with (String d (p +:+ r)) in Hr. congruence.
      * split; [done|]. intros [r Hr].
        change (String c p +:+ r) with (String c (p +:+ r)) in Hr. congruence.
Qed.

Lemma start_workflow_split r :
  str_split ":" 2 ("START_WORKFLOW:" +:+ r) = "START_WORKFLOW" :: str_split ":" 1 r.
Proof. by apply (str_split_first ":" 1 "START_WORKFLOW" r). Qed.

Lemma websocket_endpoint_step_start a t :
  has_char ":" a = false ->
  websocket_endpoint_step ("START_WORKFLOW:" +:+ a +:+ ":" +:+ t)
  = StartWorkflow [websocket_task a t].
Proof.
  intros Ha. unfold websocket_endpoint_step.
  replace (startswith _ "START_WORKFLOW:") with true
    by (symmetry; apply startswith_app; by eexists).
  rewrite start_workflow_split.
  change (a +:+ ":" +:+ t) with (a +:+ String ":" t).
  by rewrite (str_split_first ":" 0 a t Ha), str_split_0.
Qed.

Lemma websocket_endpoint_step_invalid r :
  has_char ":" r = false ->
  websocket_endpoint_step ("START_WORKFLOW:" +:+ r)
  = SendText "[ERROR] Invalid START_WORKFLOW format.".
Proof.
  intros Hr. unfold websocket_endpoint_step.
  replace (startswith _ "START_WORKFLOW:") with true
    by (symmetry; apply startswith_app; by eexists).
  rewrite start_workflow_split. by rewrite (str_split_no_sep ":" 1 r Hr).
Qed.

(** X13. The websocket protocol.  A message starts a workflow exactly when it
    reads [START_WORKFLOW:<agent>:<task>] with no colon in the agent part: the
    workflow then has one step, for that agent, with everything after the
    second colon (colons included) as its task.  A message that starts with
    [START_WORKFLOW:] and holds no other colon is answered with the format
    error, and only such a message is. *)
Theorem start_workflow_message_round_trip data :
  (forall wf,
      websocket_endpoint_step data = StartWorkflow wf
      <-> exists a t, has_char ":" a = false
                      /\ data = "START_WORKFLOW:" +:+ a +:+ ":" +:+ t
                      /\ wf = [websocket_task a t])
  /\ (websocket_endpoint_step data = SendText "[ERROR] Invalid START_WORKFLOW format."
      <-> exists r, has_char ":" r = false /\ data = "START_WORKFLOW:" +:+ r).
Proof.
  split; [intros wf|]; (split; [|by (intros (a & t & Ha & -> & ->);
                                     apply websocket_endpoint_step_start)
                                  || (intros (r & Hr & ->);
                                      by apply websocket_endpoint_step_invalid)]).
  - intros H. unfold websocket_endpoint_step in H.
    destruct (startswith data "START_WORKFLOW:") eqn:Hs.
    + apply startswith_app in Hs as [r ->].
      destruct (has_char ":" r) eqn:Hr.
      * apply has_char_decompose in Hr as (a & t & Ha & ->).
        pose proof (websocket_endpoint_step_start a t Ha) as Hgo.
        unfold websocket_endpoint_step in Hgo.
        replace (startswith _ "START_WORKFLOW:") with true in Hgo
          by (symmetry; apply startswith_app; by eexists).
        change (a +:+ ":" +:+ t) with (a +:+ String ":" t) in Hgo.
        rewrite Hgo in H. injection H as <-. by exists a, t.
      * rewrite start_workflow_split, (str_split_no_sep ":" 1 r Hr) in H. done.
    + by destruct (startswith data "PING").
  - intros H. unfold websocket_endpoint_step in H.
    destruct (startswith data "START_WORKFLOW:") eqn:Hs.
    + apply startswith_app in Hs as [r ->].
      destruct (has_char ":" r) eqn:Hr; [|by exists r].
      apply has_char_decompose in Hr as (a & t & Ha & ->).
      rewrite start_workflow_split, (str_split_first ":" 0 a t Ha), str_split_0 in H. done.
    + by destruct (startswith data "PING").
Qed.

(** ** From a websocket message to the workflow *)

Lemma websocket_task_agent a t : websocket_task a t !! "agent" = Some a.
Proof. unfold websocket_task. by rewrite lookup_insert_eq. Qed.

Lemma websocket_task_task a t : websocket_task a t !! "task" = Some t.
Proof.
  unfold websocket_task. rewrite lookup_insert_ne by done. by rewrite lookup_insert_eq.
Qed.

Lemma websocket_task_name a t :
  websocket_task a t !! "name" = Some ("WebSocket Task: " +:+ a).
Proof.
  unfold websocket_task. rewrite !lookup_insert_ne by done. by rewrite lookup_singleton_eq.
Qed.

Lemma opt_truthy_Some s : s <> "" -> opt_truthy (Some s) = true.
Proof. intros H. cbn [opt_truthy]. by apply negb_true_iff, String.eqb_neq. Qed.

Section WebsocketWorkflows.
Context {W : Type} (C : collaborators W).

(** X14. A [START_WORKFLOW] message that names a registered agent starts a
    workflow of one step.  The await on [run] raising, that workflow sends the
    client exactly four messages (the start, the step, the error chunk of
    [_execute_task], the completion) and leaves a context that holds the
    workflow and, as the output of the agent, the error text: over the
    websocket no agent ever runs. *)
Theorem websocket_task_for_registered_agent fuel h self a t agent e w :
  has_char ":" a = false -> a <> "" -> t <> "" ->
  deref h (agents self) !! a = Some agent ->
  await_run C (cls agent) = Throws e ->
  exists wf,
    websocket_endpoint_step ("START_WORKFLOW:" +:+ a +:+ ":" +:+ t) = StartWorkflow wf
    /\ run_workflow C fuel h self wf w
       = ([ESend "[INFO] Starting workflow execution...";
           ESend ("[INFO] Executing task 'WebSocket Task: " +:+ a
                  +:+ "' with agent '" +:+ a +:+ "'.");
           ESend (task_error agent e);
           ESend workflow_complete],
          Ok (update_context {| context := initial_context C wf; agents := agents self |}
                {[ a +:+ "_output" := VStr (task_error agent e) ]}),
          w).
Proof.
  intros Hcolon Ha Ht Hget Haw.
  exists [websocket_task a t]. split; [by apply websocket_endpoint_step_start|].
  set (self0 := {| context := initial_context C [websocket_task a t];
                   agents := agents self |}).
  rewrite run_workflow_unfold. cbv zeta. fold self0. cbn [workflow_loop].
  rewrite (bind_Ok _ _ _ _ _ _
             (workflow_step_Throws C fuel h self0 0 (websocket_task a t) a t agent e w
                (websocket_task_agent a t) (opt_truthy_Some a Ha)
                (websocket_task_task a t) (opt_truthy_Some t Ht) Hget Haw)).
  by rewrite websocket_task_name.
Qed.


(** X15. A [START_WORKFLOW] message with an empty agent part, an empty task
    or an agent the registry does not hold is not refused by the endpoint: it
    starts a workflow, which sends the client exactly three messages (the
    start, one error, the completion) and leaves a context that holds nothing
    but that workflow. *)
Theorem websocket_task_that_cannot_run fuel h self a t w :
  has_char ":" a = false ->
  bad_step h self (websocket_task a t) = true ->
  exists wf msg,
    websocket_endpoint_step ("START_WORKFLOW:" +:+ a +:+ ":" +:+ t) = StartWorkflow wf
    /\ run_workflow C fuel h self wf w
       = ([ESend "[INFO] Starting workflow execution..."; ESend msg; ESend workflow_complete],
          Ok {| context := initial_context C wf; agents := agents self |}, w)
    /\ startswith msg "[ERROR] " = true.
Proof.
  intros Hcolon Hbad.
  set (self0 := {| context := initial_context C [websocket_task a t];
                   agents := agents self |}).
  assert (Hstep : exists msg,
             workflow_step C fuel h self0 0 (websocket_task a t) w
             = ([ESend msg], Ok self0, w) /\ startswith msg "[ERROR] " = true).
  { unfold bad_step in Hbad.
    destruct (opt_truthy (websocket_task a t !! "agent")) eqn:E1.
    - destruct (opt_truthy (websocket_task a t !! "task")) eqn:E2.
      + cbn [negb orb] in Hbad. apply negb_true_iff, bool_decide_eq_false in Hbad.
        eexists. split; [apply workflow_step_unknown_agent; [done..|]|done].
        unfold _get_agent. by apply eq_None_not_Some.
      + eexists. split; [by apply workflow_step_missing_task|done].
    - eexists. split; [by apply workflow_step_missing_agent|done]. }
  destruct Hstep as (msg & Hstep & Hmsg).
  exists [websocket_task a t], msg.
  split; [by apply websocket_endpoint_step_start|]. split; [|done].
  rewrite run_workflow_unfold. cbv zeta. fold self0.
  by rewrite (workflow_loop_cons C fuel h self0 0 _ [] w _ Hstep).
Qed.
End WebsocketWorkflows.


Lemma websocket_task_for_registered_agent_witness :
  exists wf,
    websocket_endpoint_step ("START_WORKFLOW:" +:+ "qa" +:+ ":" +:+ "review: the parser")
    = StartWorkflow wf
    /\ sent_messages (events (run_workflow echo_world 5 heap0 orch0 wf tt))
       = ["[INFO] Starting workflow execution...";
          "[INFO] Executing task 'WebSocket Task: qa' with agent 'qa'.";
          "[ERROR] Unhandled exception in agent 'qa': object async_generator can't be used in 'await' expression";
          "[INFO] Workflow execution complete."].
Proof.
  destruct (websocket_task_for_registered_agent echo_world 5 heap0 orch0
              "qa" "review: the parser" (agent_of QaAgent "qa") not_awaitable tt)
    as (wf & Hwf & Hrun); try done.
  exists wf. split; [exact Hwf|]. by rewrite Hrun.
Defined.

Lemma websocket_task_that_cannot_run_witness :
  exists wf msg,
    websocket_endpoint_step ("START_WORKFLOW:" +:+ "" +:+ ":" +:+ "write a parser")
    = StartWorkflow wf
    /\ run_workflow echo_world 5 heap0 orch0 wf tt
       = ([ESend "[INFO] Starting workflow execution..."; ESend msg; ESend workflow_complete],
          Ok {| context := initial_context echo_world wf; agents := agents orch0 |}, tt)
    /\ startswith msg "[ERROR] " = true.
Proof.
  apply (websocket_task_that_cannot_run echo_world 5 heap0 orch0 "" "write a parser" tt);
    reflexivity.
Defined.

(** ** Merging a configuration update *)

Lemma dict_lookup_None d k : dict_lookup d k = None <-> k ∉ dict_keys d.
Proof.
  induction d as [|k' v d IH]; cbn [dict_lookup dict_keys].
  - split; [intros _; apply not_elem_of_nil|done].
  - rewrite not_elem_of_cons. destruct (String.eqb_spec k k') as [->|Hne].
    + split; [done|]. by intros [? _].
    + rewrite IH. by split; [|intros [_ ?]].
Qed.

Lemma dict_lookup_set_eq d k v : dict_lookup (dict_set d k v) k = Some v.
Proof.
  induction d as [|k' v' d IH]; cbn [dict_set dict_lookup].
  - by rewrite String.eqb_refl.
  - destruct (String.eqb_spec k k') as [->|Hne]; cbn [dict_lookup].
    + by rewrite String.eqb_refl.
    + by destruct (String.eqb_spec k k').
Qed.

Lemma dict_lookup_set_ne d k k' v : k <> k' -> dict_lookup (dict_set d k' v) k = dict_lookup d k.
Proof.
  intros Hne. induction d as [|k0 v0 d IH]; cbn [dict_set dict_lookup].
  - by destruct (String.eqb_spec k k').
  - destruct (String.eqb_spec k' k0) as [->|Hne0]; cbn [dict_lookup].
    + by destruct (String.eqb_spec k k0).
    + by rewrite IH.
Qed.

Lemma dict_keys_set d k v :
  dict_keys (dict_set d k v)
  = if bool_decide (k ∈ dict_keys d) then dict_keys d else dict_keys d ++ [k].
Proof.
  induction d as [|k' v' d IH]; cbn [dict_set dict_keys]; [done|].
  destruct (String.eqb_spec k k') as [->|Hne]; cbn [dict_keys].
  - rewrite bool_decide_eq_true_2; [done|]. apply elem_of_cons. by left.
  - rewrite IH. destruct (decide (k ∈ dict_keys d)) as [Hin|Hnin].
    + rewrite !bool_decide_eq_true_2; [done|by apply elem_of_cons; right|done].
    + rewrite !bool_decide_eq_false_2; [done| |done].
      rewrite elem_of_cons. by intros [?|?].
Qed.

Lemma filter_iff_on {A} (P1 P2 : A -> Prop) `{!forall x, Decision (P1 x)}
    `{!forall x, Decision (P2 x)} (l : list A) :
  (forall x, x ∈ l -> P1 x <-> P2 x) -> filter P1 l = filter P2 l.
Proof.
  induction l as [|a l IH]; intros Hiff; [done|].
  rewrite !filter_cons.
  rewrite IH by (intros x Hx; apply Hiff; by apply elem_of_cons; right).
  destruct (decide (P1 a)) as [H1|H1], (decide (P2 a)) as [H2|H2]; try done.
  - destruct H2. apply Hiff; [apply elem_of_cons; by left|done].
  - destruct H1. apply Hiff; [apply elem_of_cons; by left|done].
Qed.

(** What [deep_merge] puts under a key of the update. *)
Lemma deep_merge_cons d k v u :
  deep_merge d (DCons k v u)
  = deep_merge
      (dict_set d k
         match v, dict_lookup d k with
         | JDict vi, Some (JDict di) => JDict (deep_merge di vi)
         | _, _ => v
         end) u.
Proof.
  cbn [deep_merge]. destruct v as [text|vi]; [done|].
  by destruct (dict_lookup d k) as [[text|di]|].
Qed.

(** X16. [deep_merge(d, u)], the partial update of [save_config].  A key of
    [u] takes the value [u] gives it, unless both values are dictionaries,
    which are merged in the same way; a key [u] does not have keeps the value
    of [d]; and no key is ever removed or moved: the keys of [d] stay where
    they are and the new keys of [u] follow them, in the order of [u]. *)
Theorem deep_merge_updates_key_by_key d u :
  NoDup (dict_keys u) ->
  (forall k,
      dict_lookup (deep_merge d u) k
      = match dict_lookup u k with
        | None => dict_lookup d k
        | Some (JDict vi) =>
            match dict_lookup d k with
            | Some (JDict di) => Some (JDict (deep_merge di vi))
            | _ => Some (JDict vi)
            end
        | Some (JAtom text) => Some (JAtom text)
        end)
  /\ dict_keys (deep_merge d u)
     = dict_keys d ++ filter (fun k => k ∉ dict_keys d) (dict_keys u).
Proof.
  revert d. induction u as [|k0 v0 u IH]; intros d Hnd.
  - cbn [deep_merge dict_lookup dict_keys]. split; [done|].
    by rewrite filter_nil, app_nil_r.
  - cbn [dict_keys] in Hnd. apply NoDup_cons in Hnd as [Hk0 Hnd].
    rewrite deep_merge_cons.
    set (v1 := match v0, dict_lookup d k0 with
               | JDict vi, Some (JDict di) => JDict (deep_merge di vi)
               | _, _ => v0
               end).
    destruct (IH (dict_set d k0 v1) Hnd) as [IHl IHk]. split.
    + intros k. rewrite IHl. cbn [dict_lookup].
      destruct (String.eqb_spec k k0) as [->|Hne].
      * apply dict_lookup_None in Hk0. rewrite Hk0, dict_lookup_set_eq.
        subst v1. destruct v0 as [text|vi]; [done|].
        by destruct (dict_lookup d k0) as [[text|di]|].
      * by rewrite dict_lookup_set_ne.
    + rewrite IHk, dict_keys_set. cbn [dict_keys]. rewrite filter_cons.
      destruct (decide (k0 ∈ dict_keys d)) as [Hin|Hnin].
      * rewrite bool_decide_eq_true_2 by done.
        by rewrite decide_False by (by intros ?).
      * rewrite bool_decide_eq_false_2 by done. rewrite decide_True by done.
        rewrite <- app_assoc. cbn [app]. do 2 f_equal.
        apply filter_iff_on. intros k Hk.
        rewrite not_elem_of_app, not_elem_of_cons.
        split; [by intros [? _]|]. intros Hd. split; [done|]. split; [|apply not_elem_of_nil].
        intros ->. done.
Qed.

Lemma deep_merge_updates_key_by_key_witness :
  dict_keys
    (deep_merge
       (DCons "llm_configurations"
          (JDict (DCons "codegen" (JDict (DCons "model" (JAtom "m1") DNil)) DNil))
          (DCons "port" (JAtom "9102") DNil))
       (DCons "theme" (JAtom "dark")
          (DCons "llm_configurations"
             (JDict (DCons "codegen" (JDict (DCons "api_key" (JAtom "k") DNil)) DNil))
             DNil)))
  = ["llm_configurations"; "port"; "theme"].
Proof.
  destruct (deep_merge_updates_key_by_key
              (DCons "llm_configurations"
                 (JDict (DCons "codegen" (JDict (DCons "model" (JAtom "m1") DNil)) DNil))
                 (DCons "port" (JAtom "9102") DNil))
              (DCons "theme" (JAtom "dark")
                 (DCons "llm_configurations"
                    (JDict (DCons "codegen" (JDict (DCons "api_key" (JAtom "k") DNil)) DNil))
                    DNil))) as [_ Hk].
  - cbn [dict_keys]. apply (bool_decide_unpack _). reflexivity.
  - rewrite Hk. reflexivity.
Defined.

Scheme json_dict_ind := Induction for json Sort Prop
  with dict_json_ind := Induction for dict Sort Prop.

Lemma dict_set_same d k v : dict_lookup d k = Some v -> dict_set d k v = d.
Proof.
  induction d as [|k' v' d IH]; cbn [dict_lookup dict_set]; [done|].
  destruct (String.eqb_spec k k') as [->|Hne].
  - by intros [= ->].
  - intros H. by rewrite IH.
Qed.

Lemma deep_merge_frame u : forall d k,
  k ∉ dict_keys u -> dict_lookup (deep_merge d u) k = dict_lookup d k.
Proof.
  induction u as [|k0 v0 u IH]; intros d k Hk; [done|].
  cbn [dict_keys] in Hk. apply not_elem_of_cons in Hk as [Hne Hk].
  rewrite deep_merge_cons, IH by done. by apply dict_lookup_set_ne.
Qed.

Lemma dict_wf_NoDup d : dict_wf d -> NoDup (dict_keys d).
Proof.
  induction d as [|k v d IH]; cbn [dict_wf dict_keys]; [intros _; apply NoDup_nil_2|].
  intros (Hk & _ & Hd). apply NoDup_cons_2; [done|by apply IH].
Qed.

(** Merging in what is already there changes nothing, and merging twice is
    merging once. *)
Lemma deep_merge_again u :
  dict_wf u ->
  (forall d, (forall k v, dict_lookup u k = Some v -> dict_lookup d k = Some v) ->
             deep_merge d u = d)
  /\ (forall d, deep_merge (deep_merge d u) u = deep_merge d u).
Proof.
  revert u.
  apply (dict_json_ind
           (fun v => match v with
                     | JAtom _ => True
                     | JDict u =>
                         dict_wf u ->
                         (forall d, (forall k v, dict_lookup u k = Some v ->
                                                 dict_lookup d k = Some v) ->
                                    deep_merge d u = d)
                         /\ (forall d, deep_merge (deep_merge d u) u = deep_merge d u)
                     end)
           (fun u =>
              dict_wf u ->
              (forall d, (forall k v, dict_lookup u k = Some v -> dict_lookup d k = Some v) ->
                         deep_merge d u = d)
              /\ (forall d, deep_merge (deep_merge d u) u = deep_merge d u))).
  - done.
  - intros u IH. exact IH.
  - done.
  - intros k v IHv u IHu (Hk & Hv & Hu).
    destruct (IHu Hu) as [IHsame IHtwice].
    assert (Hsub : forall v1, (match v with
                               | JDict vi => v1 = JDict vi \/ exists di, v1 = JDict (deep_merge di vi)
                               | JAtom _ => v1 = v
                               end) ->
                   match v, Some v1 with
                   | JDict vi, Some (JDict di) => JDict (deep_merge di vi)
                   | _, _ => v
                   end = v1).
    { intros v1 Hv1. destruct v as [text|vi]; [done|].
      cbn [json_wf] in Hv. destruct (IHv Hv) as [IHvsame IHvtwice].
      destruct Hv1 as [->|[di ->]].
      - by rewrite IHvsame.
      - by rewrite IHvtwice. }
    split.
    + intros d Hagree. rewrite deep_merge_cons.
      assert (Hdk : dict_lookup d k = Some v).
      { apply Hagree. cbn [dict_lookup]. by rewrite String.eqb_refl. }
      rewrite Hdk, Hsub by (destruct v; by eauto).
      rewrite dict_set_same by done. apply IHsame.
      intros k' v' Hl. apply Hagree. cbn [dict_lookup].
      destruct (String.eqb_spec k' k) as [->|Hne]; [|done].
      apply dict_lookup_None in Hk. congruence.
    + intros d. rewrite (deep_merge_cons d).
      set (v1 := match v, dict_lookup d k with
                 | JDict vi, Some (JDict di) => JDict (deep_merge di vi)
                 | _, _ => v
                 end).
      set (m := deep_merge (dict_set d k v1) u).
      assert (Hmk : dict_lookup m k = Some v1).
      { subst m. rewrite deep_merge_frame by done. apply dict_lookup_set_eq. }
      rewrite deep_merge_cons, Hmk, Hsub.
      * rewrite dict_set_same by done. subst m. apply IHtwice.
      * subst v1. destruct v as [text|vi]; [done|].
        destruct (dict_lookup d k) as [[text|di]|]; by eauto.
Qed.

(** X17. Saving the same update twice is saving it once: [deep_merge] is
    idempotent, and an update that only repeats what the configuration
    already says leaves it as it is. *)
Theorem deep_merge_is_idempotent d u :
  dict_wf u ->
  deep_merge (deep_merge d u) u = deep_merge d u
  /\ ((forall k v, dict_lookup u k = Some v -> dict_lookup d k = Some v) ->
      deep_merge d u = d).
Proof.
  intros Hu. destruct (deep_merge_again u Hu) as [Hsame Htwice].
  split; [apply Htwice|apply Hsame].
Qed.

Lemma deep_merge_is_idempotent_witness :
  let d := DCons "llm_configurations"
             (JDict (DCons "codegen" (JDict (DCons "model" (JAtom "m1") DNil)) DNil))
             (DCons "port" (JAtom "9102") DNil) in
  let u := DCons "theme" (JAtom "dark")
             (DCons "llm_configurations"
                (JDict (DCons "codegen" (JDict (DCons "api_key" (JAtom "k") DNil)) DNil))
                DNil) in
  deep_merge (deep_merge d u) u = deep_merge d u.
Proof.
  intros d u. apply (deep_merge_is_idempotent d u).
  cbn [u dict_wf json_wf dict_keys].
  repeat split; try apply not_elem_of_nil.
  apply not_elem_of_cons. split; [done|apply not_elem_of_nil].
Defined.
